(** * Byfl run-time library (lib/byfl/byfl.cpp): counters, call stack,
      decimated basic-block output and end-of-program report.

    The development embeds the C++ code of [byfl.cpp] as Rocq functions over
    an explicit program state (the file's global and static variables) and
    proves or refutes the properties stated about it.

    Conventions.
    - A [uint64_t] is a [Z] in [0, 2^64); every addition and subtraction of
      the source is written with its wrap-around ([u64]).
    - A [const char*] that went through [bf_string_to_symbol] is represented
      by the text it points to: two interned pointers are equal exactly when
      their texts are, so a map whose keys are all interned pointers is a
      map keyed by [string].  Where a pointer can also be null or the
      address of a string literal ([bf_func_and_parents], the keys of
      [per_func_totals()]) it is a [char_ptr].
    - A [std::vector] used as a stack is a [list] whose head is [back()].
    - Calling [back()] or [pop_back()] on an empty vector is undefined
      behaviour in C++; the embedding returns [Undefined] there. *)

From Stdlib Require Import ZArith String Ascii List Lia Bool.
From stdpp Require Import base gmap strings list fin_maps sorting.

Local Open Scope Z_scope.

(** ** Unsigned 64-bit arithmetic *)

Definition u64 (z : Z) : Z := z mod 2 ^ 64.

Definition b2u (b : bool) : Z := if b then 1 else 0.

(** ** How a basic block can terminate ([bb_end_t]) *)

Inductive bb_end_t : Type :=
| BB_NOT_END      (* Basic block has not actually terminated. *)
| BB_END_UNCOND   (* Terminated with an unconditional branch. *)
| BB_END_COND.    (* Terminated with a conditional branch. *)

Definition is_cond (e : bb_end_t) : bool :=
  match e with BB_END_COND => true | _ => false end.

Definition is_end (e : bb_end_t) : bool :=
  match e with BB_NOT_END => false | _ => true end.

(** ** [class ByteFlopCounters] *)

Record ByteFlopCounters : Type := BFC {
  loads : Z;
  stores : Z;
  load_ins : Z;
  load_float_ins : Z;
  load_double_ins : Z;
  load_int8_ins : Z;
  load_int16_ins : Z;
  load_int32_ins : Z;
  load_int64_ins : Z;
  load_ptr_ins : Z;
  load_other_type_ins : Z;
  store_ins : Z;
  store_float_ins : Z;
  store_double_ins : Z;
  store_int8_ins : Z;
  store_int16_ins : Z;
  store_int32_ins : Z;
  store_int64_ins : Z;
  store_ptr_ins : Z;
  store_other_type_ins : Z;
  flops : Z;
  fp_bits : Z;
  ops : Z;
  op_bits : Z;
  cond_brs : Z;
  b_blocks : Z
}.

(** The constructor with every argument defaulted: all counters zero. *)
Definition BFC_zero : ByteFlopCounters :=
  BFC 0 0 0 0 0 0 0 0 0 0 0 0 0 0 0 0 0 0 0 0 0 0 0 0 0 0.

(** [void accumulate (uint64_t more_loads, ..., uint64_t more_b_blocks)] *)
Definition accumulate (c : ByteFlopCounters)
    (more_loads more_stores
     more_load_ins
     more_load_float_ins more_load_double_ins
     more_load_int8_ins more_load_int16_ins
     more_load_int32_ins more_load_int64_ins
     more_load_ptr_ins more_load_other_type_ins
     more_store_ins
     more_store_float_ins more_store_double_ins
     more_store_int8_ins more_store_int16_ins
     more_store_int32_ins more_store_int64_ins
     more_store_ptr_ins more_store_other_type_ins
     more_flops more_fp_bits
     more_ops more_op_bits
     more_cbrs more_b_blocks : Z) : ByteFlopCounters :=
  {| loads := u64 (loads c + more_loads);
     stores := u64 (stores c + more_stores);
     load_ins := u64 (load_ins c + more_load_ins);
     load_float_ins := u64 (load_float_ins c + more_load_float_ins);
     load_double_ins := u64 (load_double_ins c + more_load_double_ins);
     load_int8_ins := u64 (load_int8_ins c + more_load_int8_ins);
     load_int16_ins := u64 (load_int16_ins c + more_load_int16_ins);
     load_int32_ins := u64 (load_int32_ins c + more_load_int32_ins);
     load_int64_ins := u64 (load_int64_ins c + more_load_int64_ins);
     load_ptr_ins := u64 (load_ptr_ins c + more_load_ptr_ins);
     load_other_type_ins :=
       u64 (load_other_type_ins c + more_load_other_type_ins);
     store_ins := u64 (store_ins c + more_store_ins);
     store_float_ins := u64 (store_float_ins c + more_store_float_ins);
     store_double_ins := u64 (store_double_ins c + more_store_double_ins);
     store_int8_ins := u64 (store_int8_ins c + more_store_int8_ins);
     store_int16_ins := u64 (store_int16_ins c + more_store_int16_ins);
     store_int32_ins := u64 (store_int32_ins c + more_store_int32_ins);
     store_int64_ins := u64 (store_int64_ins c + more_store_int64_ins);
     store_ptr_ins := u64 (store_ptr_ins c + more_store_ptr_ins);
     store_other_type_ins :=
       u64 (store_other_type_ins c + more_store_other_type_ins);
     flops := u64 (flops c + more_flops);
     fp_bits := u64 (fp_bits c + more_fp_bits);
     ops := u64 (ops c + more_ops);
     op_bits := u64 (op_bits c + more_op_bits);
     cond_brs := u64 (cond_brs c + more_cbrs);
     b_blocks := u64 (b_blocks c + more_b_blocks) |}.

(** [void accumulate (ByteFlopCounters* other)] *)
Definition accumulate_other (c other : ByteFlopCounters) : ByteFlopCounters :=
  {| loads := u64 (loads c + loads other);
     stores := u64 (stores c + stores other);
     load_ins := u64 (load_ins c + load_ins other);
     load_float_ins := u64 (load_float_ins c + load_float_ins other);
     load_double_ins := u64 (load_double_ins c + load_double_ins other);
     load_int8_ins := u64 (load_int8_ins c + load_int8_ins other);
     load_int16_ins := u64 (load_int16_ins c + load_int16_ins other);
     load_int32_ins := u64 (load_int32_ins c + load_int32_ins other);
     load_int64_ins := u64 (load_int64_ins c + load_int64_ins other);
     load_ptr_ins := u64 (load_ptr_ins c + load_ptr_ins other);
     load_other_type_ins :=
       u64 (load_other_type_ins c + load_other_type_ins other);
     store_ins := u64 (store_ins c + store_ins other);
     store_float_ins := u64 (store_float_ins c + store_float_ins other);
     store_double_ins := u64 (store_double_ins c + store_double_ins other);
     store_int8_ins := u64 (store_int8_ins c + store_int8_ins other);
     store_int16_ins := u64 (store_int16_ins c + store_int16_ins other);
     store_int32_ins := u64 (store_int32_ins c + store_int32_ins other);
     store_int64_ins := u64 (store_int64_ins c + store_int64_ins other);
     store_ptr_ins := u64 (store_ptr_ins c + store_ptr_ins other);
     store_other_type_ins :=
       u64 (store_other_type_ins c + store_other_type_ins other);
     flops := u64 (flops c + flops other);
     fp_bits := u64 (fp_bits c + fp_bits other);
     ops := u64 (ops c + ops other);
     op_bits := u64 (op_bits c + op_bits other);
     cond_brs := u64 (cond_brs c + cond_brs other);
     b_blocks := u64 (b_blocks c + b_blocks other) |}.

(** [ByteFlopCounters* difference (ByteFlopCounters* other)] *)
Definition difference (c other : ByteFlopCounters) : ByteFlopCounters :=
  BFC (u64 (loads c - loads other))
      (u64 (stores c - stores other))
      (u64 (load_ins c - load_ins other))
      (u64 (load_float_ins c - load_float_ins other))
      (u64 (load_double_ins c - load_double_ins other))
      (u64 (load_int8_ins c - load_int8_ins other))
      (u64 (load_int16_ins c - load_int16_ins other))
      (u64 (load_int32_ins c - load_int32_ins other))
      (u64 (load_int64_ins c - load_int64_ins other))
      (u64 (load_ptr_ins c - load_ptr_ins other))
      (u64 (load_other_type_ins c - load_other_type_ins other))
      (u64 (store_ins c - store_ins other))
      (u64 (store_float_ins c - store_float_ins other))
      (u64 (store_double_ins c - store_double_ins other))
      (u64 (store_int8_ins c - store_int8_ins other))
      (u64 (store_int16_ins c - store_int16_ins other))
      (u64 (store_int32_ins c - store_int32_ins other))
      (u64 (store_int64_ins c - store_int64_ins other))
      (u64 (store_ptr_ins c - store_ptr_ins other))
      (u64 (store_other_type_ins c - store_other_type_ins other))
      (u64 (flops c - flops other))
      (u64 (fp_bits c - fp_bits other))
      (u64 (ops c - ops other))
      (u64 (op_bits c - op_bits other))
      (u64 (cond_brs c - cond_brs other))
      (u64 (b_blocks c - b_blocks other)).

(** [void reset (void)] *)
Definition reset (c : ByteFlopCounters) : ByteFlopCounters := BFC_zero.

(** ** The thread-local scalar tallies ([__thread uint64_t bf_*_count])

    One executing thread is modelled; the record is that thread's copy of the
    24 scalars.  The instrumented program updates them inline. *)

Record Tallies : Type := TL {
  bf_load_count : Z;
  bf_store_count : Z;
  bf_load_ins_count : Z;
  bf_load_float_ins_count : Z;
  bf_load_double_ins_count : Z;
  bf_load_int8_ins_count : Z;
  bf_load_int16_ins_count : Z;
  bf_load_int32_ins_count : Z;
  bf_load_int64_ins_count : Z;
  bf_load_ptr_ins_count : Z;
  bf_load_other_type_ins_count : Z;
  bf_store_ins_count : Z;
  bf_store_float_ins_count : Z;
  bf_store_double_ins_count : Z;
  bf_store_int8_ins_count : Z;
  bf_store_int16_ins_count : Z;
  bf_store_int32_ins_count : Z;
  bf_store_int64_ins_count : Z;
  bf_store_ptr_ins_count : Z;
  bf_store_other_type_ins_count : Z;
  bf_flop_count : Z;
  bf_fp_bits_count : Z;
  bf_op_count : Z;
  bf_op_bits_count : Z
}.

(** Every scalar is initialised to 0. *)
Definition TL_zero : Tallies :=
  TL 0 0 0 0 0 0 0 0 0 0 0 0 0 0 0 0 0 0 0 0 0 0 0 0.

(** The argument list [bf_load_count, bf_store_count, ..., bf_op_bits_count]
    that the source passes, in this order, in front of the two block flags at
    each of its four call sites. *)
Definition with_scalars {A : Type}
    (f : Z -> Z -> Z -> Z -> Z -> Z -> Z -> Z -> Z -> Z -> Z -> Z ->
         Z -> Z -> Z -> Z -> Z -> Z -> Z -> Z -> Z -> Z -> Z -> Z -> A)
    (t : Tallies) : A :=
  f (bf_load_count t) (bf_store_count t)
    (bf_load_ins_count t)
    (bf_load_float_ins_count t) (bf_load_double_ins_count t)
    (bf_load_int8_ins_count t) (bf_load_int16_ins_count t)
    (bf_load_int32_ins_count t) (bf_load_int64_ins_count t)
    (bf_load_ptr_ins_count t) (bf_load_other_type_ins_count t)
    (bf_store_ins_count t)
    (bf_store_float_ins_count t) (bf_store_double_ins_count t)
    (bf_store_int8_ins_count t) (bf_store_int16_ins_count t)
    (bf_store_int32_ins_count t) (bf_store_int64_ins_count t)
    (bf_store_ptr_ins_count t) (bf_store_other_type_ins_count t)
    (bf_flop_count t) (bf_fp_bits_count t)
    (bf_op_count t) (bf_op_bits_count t).

(** The inline update [bf_x_count += d.x] of the instrumented program, for
    every scalar [x] at once (unsigned 64-bit addition). *)
Definition tallies_add (t d : Tallies) : Tallies :=
  {| bf_load_count := u64 (bf_load_count t + bf_load_count d);
     bf_store_count := u64 (bf_store_count t + bf_store_count d);
     bf_load_ins_count := u64 (bf_load_ins_count t + bf_load_ins_count d);
     bf_load_float_ins_count :=
       u64 (bf_load_float_ins_count t + bf_load_float_ins_count d);
     bf_load_double_ins_count :=
       u64 (bf_load_double_ins_count t + bf_load_double_ins_count d);
     bf_load_int8_ins_count :=
       u64 (bf_load_int8_ins_count t + bf_load_int8_ins_count d);
     bf_load_int16_ins_count :=
       u64 (bf_load_int16_ins_count t + bf_load_int16_ins_count d);
     bf_load_int32_ins_count :=
       u64 (bf_load_int32_ins_count t + bf_load_int32_ins_count d);
     bf_load_int64_ins_count :=
       u64 (bf_load_int64_ins_count t + bf_load_int64_ins_count d);
     bf_load_ptr_ins_count :=
       u64 (bf_load_ptr_ins_count t + bf_load_ptr_ins_count d);
     bf_load_other_type_ins_count :=
       u64 (bf_load_other_type_ins_count t + bf_load_other_type_ins_count d);
     bf_store_ins_count := u64 (bf_store_ins_count t + bf_store_ins_count d);
     bf_store_float_ins_count :=
       u64 (bf_store_float_ins_count t + bf_store_float_ins_count d);
     bf_store_double_ins_count :=
       u64 (bf_store_double_ins_count t + bf_store_double_ins_count d);
     bf_store_int8_ins_count :=
       u64 (bf_store_int8_ins_count t + bf_store_int8_ins_count d);
     bf_store_int16_ins_count :=
       u64 (bf_store_int16_ins_count t + bf_store_int16_ins_count d);
     bf_store_int32_ins_count :=
       u64 (bf_store_int32_ins_count t + bf_store_int32_ins_count d);
     bf_store_int64_ins_count :=
       u64 (bf_store_int64_ins_count t + bf_store_int64_ins_count d);
     bf_store_ptr_ins_count :=
       u64 (bf_store_ptr_ins_count t + bf_store_ptr_ins_count d);
     bf_store_other_type_ins_count :=
       u64 (bf_store_other_type_ins_count t + bf_store_other_type_ins_count d);
     bf_flop_count := u64 (bf_flop_count t + bf_flop_count d);
     bf_fp_bits_count := u64 (bf_fp_bits_count t + bf_fp_bits_count d);
     bf_op_count := u64 (bf_op_count t + bf_op_count d);
     bf_op_bits_count := u64 (bf_op_bits_count t + bf_op_bits_count d) |}.

(** ** Configuration constants defined by the instrumented code

    The [uint8_t] flags are only ever tested for being non-zero. *)

Record Config : Type := {
  bf_bb_merge : Z;        (* Number of basic blocks to merge *)
  bf_all_ops : bool;      (* bf_op_count and bf_op_bits_count are valid *)
  bf_types : bool;        (* count loads/stores per type *)
  bf_per_func : bool;     (* Tally and output per-function data *)
  bf_call_stack : bool;   (* Maintain a function call stack *)
  bf_unique_bytes : bool; (* Tally and output unique bytes *)
  bf_vectors : bool       (* Bin then output vector characteristics *)
}.

(** ** Collaborators defined in other files

    The values the reporter obtains from [bf_get_reuse_distance],
    [bf_tally_unique_addresses], [bf_get_median_reuse_distance] and
    [bf_get_vector_statistics] are taken as given. *)

Record Collaborators : Type := {
  reuse_unique : Z;
  tally_unique_addresses : Z;
  tally_unique_addresses_of : string -> Z;  (* the overload for a function *)
  median_value : Z;
  mad_value : Z;
  vector_statistics : option string -> Z * Z * Z
}.

(** ** Pointers to C strings

    A [const char*] of the library is null, a symbol returned by
    [bf_string_to_symbol], or the address of one of the string literals of
    byfl.cpp.  A map keyed by [const char*] compares addresses: a symbol and
    a literal with the same text are two keys. *)
Inductive char_ptr : Type :=
| NULL
| Symbol (text : string)
| Literal (text : string).

#[global] Instance char_ptr_eq_dec : EqDecision char_ptr.
Proof. solve_decision. Defined.

#[global] Instance char_ptr_countable : Countable char_ptr.
Proof.
  refine (inj_countable'
            (fun p => match p with
                      | NULL => inl tt
                      | Symbol text => inr (inl text)
                      | Literal text => inr (inr text)
                      end)
            (fun x => match x with
                      | inl _ => NULL
                      | inr (inl text) => Symbol text
                      | inr (inr text) => Literal text
                      end) _).
  intros []; reflexivity.
Defined.

(** The text a pointer points to; a null pointer points to none. *)
Definition c_str (p : char_ptr) : option string :=
  match p with
  | NULL => None
  | Symbol text | Literal text => Some text
  end.

(** Modelled from the spec: [bf_string_to_symbol] (the symbol table is not
    part of the sources) maps equal strings to one canonical representative,
    kept in the table's own storage; a symbol is represented here by its
    text, and is the pointer [Symbol text]. *)
Definition bf_string_to_symbol (nonunique : string) : string := nonunique.

(** Modelled from the spec: the interner applied to a possibly null pointer.
    Section 4.6 interns only a non-null tag; a null tag stays null. *)
Definition bf_string_to_symbol_ptr (nonunique : option string)
  : option string :=
  match nonunique with
  | Some str => Some (bf_string_to_symbol str)
  | None => None
  end.

(** Modelled from the spec: [CachedUnorderedMap] (cachemap.h is not part of
    the sources) is a map from keys to values; [m[k]] on a map of counts
    yields 0 for a key that is not present yet. *)
Definition tally_of (m : gmap string Z) (k : string) : Z :=
  default 0 (m !! k).

(** [m[k] += d] on a map of [uint64_t] counts. *)
Definition tally_add (k : string) (d : Z) (m : gmap string Z)
  : gmap string Z :=
  <[k := u64 (tally_of m k + d)]> m.

(** Modelled from the spec: [sorted_keys(compare_char_stars)] (cachemap.h)
    lists the keys in increasing [strcmp] order. *)
Definition sorted_keys {V : Type} (m : gmap string V) : list string :=
  merge_sort (fun a b => Is_true (String.leb a b)) (map fst (map_to_list m)).

(** Modelled from the spec: [sorted_keys(compare_char_stars)] on a map whose
    keys are arbitrary pointers.  The caller reads only the text of each
    key, so the texts are listed, in increasing [strcmp] order; [None] when
    a key is null, whose text neither [strcmp] nor the caller can read. *)
Definition sorted_key_texts {V : Type} (m : gmap char_ptr V)
  : option (list string) :=
  option_map (merge_sort (fun a b => Is_true (String.leb a b)))
    (mapM c_str (map fst (map_to_list m))).

(** ** [class CallStack] *)

Record CallStack : Type := {
  complete_call_stack : list string; (* function and ancestor names *)
  max_depth : Z                      (* Maximum depth achieved *)
}.

Definition space : string := String " "%char EmptyString.

(** [const char* push_function (const char* funcname)].  The growable buffer
    [combined_name] only holds the text being built and is not modelled. *)
Definition push_function (funcname : string) (cs : CallStack)
  : string * CallStack :=
  let current_stack_depth := Z.of_nat (length (complete_call_stack cs)) in
  let '(combined_name, new_max_depth) :=
    match complete_call_stack cs with
    | [] =>
        (* First function on the call stack *)
        (funcname, 1)
    | ancestors_names :: _ =>
        (* All other calls (the common case) *)
        let current_stack_depth := current_stack_depth + 1 in
        (String.append funcname (String.append space ancestors_names),
         if max_depth cs <? current_stack_depth
         then current_stack_depth else max_depth cs)
    end in
  let unique_combined_name := bf_string_to_symbol combined_name in
  (unique_combined_name,
   {| complete_call_stack := unique_combined_name :: complete_call_stack cs;
      max_depth := new_max_depth |}).

Definition EMPTY_marker : string := "[EMPTY]".

(** [const char* pop_function (void)]; [None] is the undefined
    [pop_back()] of an empty vector. *)
Definition pop_function (cs : CallStack)
  : option (char_ptr * CallStack) :=
  match complete_call_stack cs with
  | [] => None
  | _ :: rest =>
      Some (match rest with
            | top :: _ => Symbol top
            | [] => Literal EMPTY_marker
            end,
            {| complete_call_stack := rest; max_depth := max_depth cs |})
  end.

(** ** Output *)

Inductive summary_item : Type :=
| Separator
| Counts (vals : list Z) (text : string)
| Words (text : string)
| Ratio (numerator denominator : Z) (text : string).

Inductive line : Type :=
| BYFL_BB_HEADER (cols : list string)
| BYFL_BB (vals : list Z)
| BYFL_FUNC_HEADER (cols : list string) (parent_cols : Z)
    (* the titles, then Parent_func_1 ... Parent_func_<parent_cols> *)
| BYFL_FUNC (vals : list Z) (uniq_bytes : option Z)
            (conds invocations : Z) (funcname : string)
| BYFL_CALLEE_HEADER
| BYFL_CALLEE (tally : Z) (instrumented : bool) (funcname : string)
| BYFL_VECTORS (call_stack_depth : Z)
    (* what bf_report_vector_operations(call_stack_depth) writes *)
| BYFL_SUMMARY (partition : option string) (item : summary_item).

(** The static local [output] of [suppress_output]. *)
Inductive output_t : Type := UNKNOWN | SUPPRESS | SHOW.

Definition is_SUPPRESS (o : output_t) : bool :=
  match o with SUPPRESS => true | _ => false end.

(** ** Program state: the global and static variables of the file *)

Record State : Type := {
  scalars : Tallies;
  num_merged : Z;
  global_totals : ByteFlopCounters;
  prev_global_totals : ByteFlopCounters;
  per_func_totals : gmap char_ptr ByteFlopCounters;
  func_call_tallies : gmap string Z;
  user_defined_totals : gmap string ByteFlopCounters;
  bf_func_and_parents : char_ptr;
  bb_totals : list ByteFlopCounters;
  freelist : list ByteFlopCounters;     (* of counter_memory_pool *)
  call_stack : CallStack;
  all_constructors_called : bool;
  output : output_t;                    (* static in suppress_output *)
  showed_header : bool;                 (* static in bf_report_bb_tallies *)
  environ : gmap string string;         (* what getenv reads *)
  cout : list line;                     (* most recent line first *)
  cerr : list string
}.

Definition set_scalars (v : Tallies) (s : State) : State :=
  {| scalars := v; num_merged := num_merged s;
     global_totals := global_totals s;
     prev_global_totals := prev_global_totals s;
     per_func_totals := per_func_totals s;
     func_call_tallies := func_call_tallies s;
     user_defined_totals := user_defined_totals s;
     bf_func_and_parents := bf_func_and_parents s; bb_totals := bb_totals s;
     freelist := freelist s; call_stack := call_stack s;
     all_constructors_called := all_constructors_called s;
     output := output s; showed_header := showed_header s;
     environ := environ s; cout := cout s; cerr := cerr s |}.

Definition set_num_merged (v : Z) (s : State) : State :=
  {| scalars := scalars s; num_merged := v; global_totals := global_totals s;
     prev_global_totals := prev_global_totals s;
     per_func_totals := per_func_totals s;
     func_call_tallies := func_call_tallies s;
     user_defined_totals := user_defined_totals s;
     bf_func_and_parents := bf_func_and_parents s; bb_totals := bb_totals s;
     freelist := freelist s; call_stack := call_stack s;
     all_constructors_called := all_constructors_called s;
     output := output s; showed_header := showed_header s;
     environ := environ s; cout := cout s; cerr := cerr s |}.

Definition set_global_totals (v : ByteFlopCounters) (s : State) : State :=
  {| scalars := scalars s; num_merged := num_merged s; global_totals := v;
     prev_global_totals := prev_global_totals s;
     per_func_totals := per_func_totals s;
     func_call_tallies := func_call_tallies s;
     user_defined_totals := user_defined_totals s;
     bf_func_and_parents := bf_func_and_parents s; bb_totals := bb_totals s;
     freelist := freelist s; call_stack := call_stack s;
     all_constructors_called := all_constructors_called s;
     output := output s; showed_header := showed_header s;
     environ := environ s; cout := cout s; cerr := cerr s |}.

Definition set_prev_global_totals (v : ByteFlopCounters) (s : State) : State :=
  {| scalars := scalars s; num_merged := num_merged s;
     global_totals := global_totals s; prev_global_totals := v;
     per_func_totals := per_func_totals s;
     func_call_tallies := func_call_tallies s;
     user_defined_totals := user_defined_totals s;
     bf_func_and_parents := bf_func_and_parents s; bb_totals := bb_totals s;
     freelist := freelist s; call_stack := call_stack s;
     all_constructors_called := all_constructors_called s;
     output := output s; showed_header := showed_header s;
     environ := environ s; cout := cout s; cerr := cerr s |}.

Definition set_per_func_totals (v : gmap char_ptr ByteFlopCounters)
    (s : State) : State :=
  {| scalars := scalars s; num_merged := num_merged s;
     global_totals := global_totals s;
     prev_global_totals := prev_global_totals s; per_func_totals := v;
     func_call_tallies := func_call_tallies s;
     user_defined_totals := user_defined_totals s;
     bf_func_and_parents := bf_func_and_parents s; bb_totals := bb_totals s;
     freelist := freelist s; call_stack := call_stack s;
     all_constructors_called := all_constructors_called s;
     output := output s; showed_header := showed_header s;
     environ := environ s; cout := cout s; cerr := cerr s |}.

Definition set_func_call_tallies (v : gmap string Z) (s : State) : State :=
  {| scalars := scalars s; num_merged := num_merged s;
     global_totals := global_totals s;
     prev_global_totals := prev_global_totals s;
     per_func_totals := per_func_totals s; func_call_tallies := v;
     user_defined_totals := user_defined_totals s;
     bf_func_and_parents := bf_func_and_parents s; bb_totals := bb_totals s;
     freelist := freelist s; call_stack := call_stack s;
     all_constructors_called := all_constructors_called s;
     output := output s; showed_header := showed_header s;
     environ := environ s; cout := cout s; cerr := cerr s |}.

Definition set_user_defined_totals (v : gmap string ByteFlopCounters) (s : State) : State :=
  {| scalars := scalars s; num_merged := num_merged s;
     global_totals := global_totals s;
     prev_global_totals := prev_global_totals s;
     per_func_totals := per_func_totals s;
     func_call_tallies := func_call_tallies s; user_defined_totals := v;
     bf_func_and_parents := bf_func_and_parents s; bb_totals := bb_totals s;
     freelist := freelist s; call_stack := call_stack s;
     all_constructors_called := all_constructors_called s;
     output := output s; showed_header := showed_header s;
     environ := environ s; cout := cout s; cerr := cerr s |}.

Definition set_bf_func_and_parents (v : char_ptr) (s : State) : State :=
  {| scalars := scalars s; num_merged := num_merged s;
     global_totals := global_totals s;
     prev_global_totals := prev_global_totals s;
     per_func_totals := per_func_totals s;
     func_call_tallies := func_call_tallies s;
     user_defined_totals := user_defined_totals s; bf_func_and_parents := v;
     bb_totals := bb_totals s; freelist := freelist s;
     call_stack := call_stack s;
     all_constructors_called := all_constructors_called s;
     output := output s; showed_header := showed_header s;
     environ := environ s; cout := cout s; cerr := cerr s |}.

Definition set_bb_totals (v : list ByteFlopCounters) (s : State) : State :=
  {| scalars := scalars s; num_merged := num_merged s;
     global_totals := global_totals s;
     prev_global_totals := prev_global_totals s;
     per_func_totals := per_func_totals s;
     func_call_tallies := func_call_tallies s;
     user_defined_totals := user_defined_totals s;
     bf_func_and_parents := bf_func_and_parents s; bb_totals := v;
     freelist := freelist s; call_stack := call_stack s;
     all_constructors_called := all_constructors_called s;
     output := output s; showed_header := showed_header s;
     environ := environ s; cout := cout s; cerr := cerr s |}.

Definition set_freelist (v : list ByteFlopCounters) (s : State) : State :=
  {| scalars := scalars s; num_merged := num_merged s;
     global_totals := global_totals s;
     prev_global_totals := prev_global_totals s;
     per_func_totals := per_func_totals s;
     func_call_tallies := func_call_tallies s;
     user_defined_totals := user_defined_totals s;
     bf_func_and_parents := bf_func_and_parents s; bb_totals := bb_totals s;
     freelist := v; call_stack := call_stack s;
     all_constructors_called := all_constructors_called s;
     output := output s; showed_header := showed_header s;
     environ := environ s; cout := cout s; cerr := cerr s |}.

Definition set_call_stack (v : CallStack) (s : State) : State :=
  {| scalars := scalars s; num_merged := num_merged s;
     global_totals := global_totals s;
     prev_global_totals := prev_global_totals s;
     per_func_totals := per_func_totals s;
     func_call_tallies := func_call_tallies s;
     user_defined_totals := user_defined_totals s;
     bf_func_and_parents := bf_func_and_parents s; bb_totals := bb_totals s;
     freelist := freelist s; call_stack := v;
     all_constructors_called := all_constructors_called s;
     output := output s; showed_header := showed_header s;
     environ := environ s; cout := cout s; cerr := cerr s |}.

Definition set_output (v : output_t) (s : State) : State :=
  {| scalars := scalars s; num_merged := num_merged s;
     global_totals := global_totals s;
     prev_global_totals := prev_global_totals s;
     per_func_totals := per_func_totals s;
     func_call_tallies := func_call_tallies s;
     user_defined_totals := user_defined_totals s;
     bf_func_and_parents := bf_func_and_parents s; bb_totals := bb_totals s;
     freelist := freelist s; call_stack := call_stack s;
     all_constructors_called := all_constructors_called s; output := v;
     showed_header := showed_header s; environ := environ s; cout := cout s;
     cerr := cerr s |}.

Definition set_showed_header (v : bool) (s : State) : State :=
  {| scalars := scalars s; num_merged := num_merged s;
     global_totals := global_totals s;
     prev_global_totals := prev_global_totals s;
     per_func_totals := per_func_totals s;
     func_call_tallies := func_call_tallies s;
     user_defined_totals := user_defined_totals s;
     bf_func_and_parents := bf_func_and_parents s; bb_totals := bb_totals s;
     freelist := freelist s; call_stack := call_stack s;
     all_constructors_called := all_constructors_called s;
     output := output s; showed_header := v; environ := environ s;
     cout := cout s; cerr := cerr s |}.

Definition set_cout (v : list line) (s : State) : State :=
  {| scalars := scalars s; num_merged := num_merged s;
     global_totals := global_totals s;
     prev_global_totals := prev_global_totals s;
     per_func_totals := per_func_totals s;
     func_call_tallies := func_call_tallies s;
     user_defined_totals := user_defined_totals s;
     bf_func_and_parents := bf_func_and_parents s; bb_totals := bb_totals s;
     freelist := freelist s; call_stack := call_stack s;
     all_constructors_called := all_constructors_called s;
     output := output s; showed_header := showed_header s;
     environ := environ s; cout := v; cerr := cerr s |}.

Definition set_cerr (v : list string) (s : State) : State :=
  {| scalars := scalars s; num_merged := num_merged s;
     global_totals := global_totals s;
     prev_global_totals := prev_global_totals s;
     per_func_totals := per_func_totals s;
     func_call_tallies := func_call_tallies s;
     user_defined_totals := user_defined_totals s;
     bf_func_and_parents := bf_func_and_parents s; bb_totals := bb_totals s;
     freelist := freelist s; call_stack := call_stack s;
     all_constructors_called := all_constructors_called s;
     output := output s; showed_header := showed_header s;
     environ := environ s; cout := cout s; cerr := v |}.
(** ** Results of running a piece of the library *)

Inductive outcome (A : Type) : Type :=
| Ok (a : A) (s : State)           (* returned normally *)
| Exited (status : Z) (s : State)  (* called exit(status) *)
| Undefined.                       (* undefined behaviour in C++ *)

Arguments Ok {A} a s.
Arguments Exited {A} status s.
Arguments Undefined {A}.

Definition bind {A B : Type} (m : outcome A) (k : A -> State -> outcome B)
  : outcome B :=
  match m with
  | Ok a s => k a s
  | Exited status s => Exited status s
  | Undefined => Undefined
  end.

(** ** [class CounterMemoryPool] *)

(** [ByteFlopCounters* allocate(void)] *)
Definition allocate (fl : list ByteFlopCounters)
  : ByteFlopCounters * list ByteFlopCounters :=
  match fl with
  | newBFC :: rest => (reset newBFC, rest)
  | [] => (BFC_zero, [])
  end.

(** [void deallocate(ByteFlopCounters* oldBFC)] *)
Definition deallocate (oldBFC : ByteFlopCounters)
    (fl : list ByteFlopCounters) : list ByteFlopCounters :=
  oldBFC :: fl.

(** ** Start of the program *)

(** The variables as their initialisers leave them, in an environment [env];
    [constructed] tells whether the constructor of [check_construction] has
    run.  [call_stack] and [counter_memory_pool] are null pointers until
    [initialize_byfl]; the library is used only after it. *)
Definition static_state (env : gmap string string) (constructed : bool)
  : State :=
  {| scalars := TL_zero;
     num_merged := 0;
     global_totals := BFC_zero;
     prev_global_totals := BFC_zero;
     per_func_totals := ∅;
     func_call_tallies := ∅;
     user_defined_totals := ∅;
     bf_func_and_parents := NULL;
     bb_totals := [];
     freelist := [];
     call_stack := {| complete_call_stack := []; max_depth := 0 |};
     all_constructors_called := constructed;
     output := UNKNOWN;
     showed_header := false;
     environ := env;
     cout := [];
     cerr := [] |}.

(** [void bf_push_basic_block (void)] *)
Definition bf_push_basic_block (s : State) : outcome unit :=
  let '(newBFC, fl) := allocate (freelist s) in
  Ok tt (set_bb_totals (newBFC :: bb_totals s) (set_freelist fl s)).

(** The constructor [CallStack()]. *)
Definition new_CallStack (s : State) : State :=
  set_call_stack {| complete_call_stack := []; max_depth := 0 |}
    (set_bf_func_and_parents (Literal "-") s).

(** [void initialize_byfl (void)] *)
Definition initialize_byfl (s : State) : outcome unit :=
  bf_push_basic_block (set_freelist [] (new_CallStack s)).

(** ** Basic-block stack, invocation tallies and function calls *)

(** [void bf_pop_basic_block (void)] *)
Definition bf_pop_basic_block (s : State) : outcome unit :=
  match bb_totals s with
  | [] => Undefined
  | top :: rest =>
      Ok tt (set_bb_totals rest (set_freelist (deallocate top (freelist s)) s))
  end.

(** [void bf_incr_func_tally (const char* funcname)] *)
Definition bf_incr_func_tally (funcname : string) (s : State)
  : outcome unit :=
  let unique_name := bf_string_to_symbol funcname in
  Ok tt (set_func_call_tallies
           (tally_add unique_name 1 (func_call_tallies s)) s).

(** [void bf_push_function (const char* funcname)] *)
Definition bf_push_function (funcname : string) (s : State) : outcome unit :=
  let '(unique_combined_name, cs) := push_function funcname (call_stack s) in
  let s := set_bf_func_and_parents (Symbol unique_combined_name)
             (set_call_stack cs s) in
  (* bf_func_and_parents is the symbol unique_combined_name here *)
  let s := set_func_call_tallies
             (tally_add unique_combined_name 1 (func_call_tallies s)) s in
  let unique_name := bf_string_to_symbol funcname in
  Ok tt (set_func_call_tallies
           (tally_add unique_name 0 (func_call_tallies s)) s).

(** [void bf_pop_function (void)] *)
Definition bf_pop_function (s : State) : outcome unit :=
  match pop_function (call_stack s) with
  | None => Undefined
  | Some (top, cs) => Ok tt (set_bf_func_and_parents top (set_call_stack cs s))
  end.

(** ** Output suppression *)

Definition getenv (s : State) (name : string) : option string :=
  environ s !! name.

(** [std::string::find_first_of(char)]: position of the first occurrence,
    [None] for [npos]. *)
Fixpoint find_first_of (str : string) (c : ascii) : option nat :=
  match str with
  | EmptyString => None
  | String a rest =>
      if Ascii.eqb a c then Some O
      else match find_first_of rest c with
           | Some n => Some (S n)
           | None => None
           end
  end.

(** [str.substr(pos)]: everything from position [pos] on. *)
Fixpoint substr_from (pos : nat) (str : string) : string :=
  match pos, str with
  | O, _ => str
  | S n, String _ rest => substr_from n rest
  | S _, EmptyString => EmptyString
  end.

(** [str.substr(0, len)] *)
Definition substr_to (len : nat) (str : string) : string :=
  String.substring 0 len str.

Definition dquote : string := String "034"%char EmptyString.
Definition newline : string := String "010"%char EmptyString.

Definition parse_failure (value : string) : string :=
  String.append "Failed to parse "
    (String.append dquote
       (String.append value
          (String.append dquote (String.append " into VAR=VALUE" newline)))).

(** [static bool suppress_output (void)] *)
Definition suppress_output (s : State) : outcome bool :=
  if negb (all_constructors_called s) then
    (* If cout hasn't been constructed, force all output to be suppressed. *)
    Ok true s
  else
    match output s with
    | UNKNOWN =>
        (* First invocation -- parse the BYFL_OUTPUT_IF environment
           variable. *)
        match getenv s "BYFL_OUTPUT_IF" with
        | Some value =>
            match find_first_of value "="%char with
            | None => Exited 1 (set_cerr (parse_failure value :: cerr s) s)
            | Some eqpos =>
                let output_var := substr_to eqpos value in
                let output_value := substr_from (S eqpos) value in
                let actual_value :=
                  match getenv s output_var with
                  | Some value => value
                  | None => EmptyString
                  end in
                let o := if String.eqb output_value actual_value
                         then SHOW else SUPPRESS in
                Ok (is_SUPPRESS o) (set_output o s)
            end
        | None =>
            (* The variable isn't defined.  Show all output. *)
            Ok (is_SUPPRESS SHOW) (set_output SHOW s)
        end
    | o => Ok (is_SUPPRESS o) s
    end.

(** ** Basic-block tallies *)

(** [void bf_accumulate_bb_tallies (bb_end_t end_of_basic_block)].
    [categorize] is what the overridable [bf_categorize_counters()] returns
    at this call (the default definition returns NULL); it is consulted only
    at the end of a basic block.  The source compares the iterator returned
    by [user_defined_totals().find] with [per_func_totals().end()]: a
    past-the-end iterator of an unordered map refers to no node whichever
    map it comes from, so the test holds exactly when [partition] is absent
    from [user_defined_totals]. *)
Definition bf_accumulate_bb_tallies (end_of_basic_block : bb_end_t)
    (categorize : option string) (s : State) : outcome unit :=
  match bb_totals s with
  | [] => Undefined
  | current_bb :: rest =>
      (* Add the current values to the per-BB totals. *)
      let current_bb :=
        with_scalars (accumulate current_bb) (scalars s)
          (b2u (is_cond end_of_basic_block))
          (b2u (is_end end_of_basic_block)) in
      let s := set_bb_totals (current_bb :: rest) s in
      if is_end end_of_basic_block then
        let s := set_global_totals
                   (accumulate_other (global_totals s) current_bb) s in
        match bf_string_to_symbol_ptr categorize with
        | Some partition =>
            match user_defined_totals s !! partition with
            | None =>
                Ok tt (set_user_defined_totals
                         (<[partition := current_bb]>
                            (user_defined_totals s)) s)
            | Some totals =>
                Ok tt (set_user_defined_totals
                         (<[partition := accumulate_other totals current_bb]>
                            (user_defined_totals s)) s)
            end
        | None => Ok tt s
        end
      else Ok tt s
  end.

(** [void bf_reset_bb_tallies (void)] *)
Definition bf_reset_bb_tallies (s : State) : outcome unit :=
  match bb_totals s with
  | [] => Undefined
  | top :: rest => Ok tt (set_bb_totals (reset top :: rest) s)
  end.

(** The column titles of the basic-block header line. *)
Definition bb_header_columns (cfg : Config) : list string :=
  ["Bytes_LD"; "Bytes_ST"; "Ops_LD"; "Ops_ST"; "Flops"; "FP_bits"] ++
  (if bf_all_ops cfg then
     ["Int_Ops"; "Int_Op_bits"] ++
     (if bf_types cfg then
        ["Flt_LD"; "Dbl_LD"; "I8_LD"; "I16_LD"; "I32_LD"; "I64_LD";
         "Ptr_LD"; "Other_LD";
         "Flt_ST"; "Dbl_ST"; "I8_ST"; "I16_ST"; "I32_ST"; "I64_ST";
         "Ptr_ST"; "Other_ST"]
      else [])
   else []).

(** The fields of [counter_deltas] printed on a [BYFL_BB] line. *)
Definition bb_columns (cfg : Config) (counter_deltas : ByteFlopCounters)
  : list Z :=
  [loads counter_deltas; stores counter_deltas;
   load_ins counter_deltas; store_ins counter_deltas;
   flops counter_deltas; fp_bits counter_deltas] ++
  (if bf_all_ops cfg then
     [ops counter_deltas; op_bits counter_deltas] ++
     (if bf_types cfg then
        [load_float_ins counter_deltas; load_double_ins counter_deltas;
         load_int8_ins counter_deltas; load_int16_ins counter_deltas;
         load_int32_ins counter_deltas; load_int64_ins counter_deltas;
         load_ptr_ins counter_deltas; load_other_type_ins counter_deltas;
         store_float_ins counter_deltas; store_double_ins counter_deltas;
         store_int8_ins counter_deltas; store_int16_ins counter_deltas;
         store_int32_ins counter_deltas; store_int64_ins counter_deltas;
         store_ptr_ins counter_deltas; store_other_type_ins counter_deltas]
      else [])
   else []).

Definition print (l : line) (s : State) : State := set_cout (l :: cout s) s.

(** [void bf_report_bb_tallies (void)] *)
Definition bf_report_bb_tallies (cfg : Config) (s : State) : outcome unit :=
  bind (suppress_output s) (fun suppressed s =>
    (* Do nothing if our output is suppressed. *)
    if suppressed then Ok tt s
    else
      (* If this is our first invocation, output a basic-block header
         line. *)
      let s := if negb (showed_header s)
               then set_showed_header true
                      (print (BYFL_BB_HEADER (bb_header_columns cfg)) s)
               else s in
      (* If we've accumulated enough basic blocks, output the aggregate of
         their values. *)
      let s := set_num_merged (u64 (num_merged s + 1)) s in
      if bf_bb_merge cfg <=? num_merged s then
        let counter_deltas :=
          difference (global_totals s) (prev_global_totals s) in
        let s := print (BYFL_BB (bb_columns cfg counter_deltas)) s in
        let s := set_num_merged 0 s in
        Ok tt (set_prev_global_totals (global_totals s) s)
      else Ok tt s).

(** [void bf_assoc_counters_with_func (const char* funcname,
    bb_end_t end_of_basic_block)] *)
Definition bf_assoc_counters_with_func (cfg : Config) (funcname : string)
    (end_of_basic_block : bb_end_t) (s : State) : outcome unit :=
  let funcname := if bf_call_stack cfg then bf_func_and_parents s
                  else Symbol (bf_string_to_symbol funcname) in
  match per_func_totals s !! funcname with
  | None =>
      (* This is the first time we've seen this function name. *)
      Ok tt (set_per_func_totals
               (<[funcname :=
                    with_scalars BFC (scalars s)
                      (b2u (is_cond end_of_basic_block))
                      (b2u (is_end end_of_basic_block))]>
                  (per_func_totals s)) s)
  | Some func_counters =>
      Ok tt (set_per_func_totals
               (<[funcname :=
                    with_scalars (accumulate func_counters) (scalars s)
                      (b2u (is_cond end_of_basic_block))
                      (b2u (is_end end_of_basic_block))]>
                  (per_func_totals s)) s)
  end.

(** ** The end-of-program report ([class RunAtEndOfProgram]) *)

Definition is_Some_bool {A : Type} (o : option A) : bool :=
  match o with Some _ => true | None => false end.


(** [void report_totals (const char* partition,
    ByteFlopCounters& counter_totals)]: the lines written, first line first.
    A [Ratio n d text] line stands for the quotient of [n] and [d], both
    converted to [double], printed with four decimals; the floating-point
    division itself is not modelled. *)
Definition report_totals (cfg : Config) (ext : Collaborators)
    (partition : option string) (counter_totals : ByteFlopCounters)
  : list line :=
  let global_bytes := u64 (loads counter_totals + stores counter_totals) in
  let global_mem_ops :=
    u64 (load_ins counter_totals + store_ins counter_totals) in
  let global_view := bf_unique_bytes cfg && negb (is_Some_bool partition) in
  let global_unique_bytes :=
    if 0 <? reuse_unique ext then reuse_unique ext
    else if global_view then tally_unique_addresses ext else 0 in
  let num_vec_ops :=
    if bf_vectors cfg then fst (fst (vector_statistics ext partition))
    else 0 in
  let total_vec_elts := snd (fst (vector_statistics ext partition)) in
  let total_vec_bits := snd (vector_statistics ext partition) in
  map (BYFL_SUMMARY partition)
    ((* Report the dynamic basic-block count. *)
     [Separator] ++
     (if 0 <? cond_brs counter_totals then
        [Counts [b_blocks counter_totals] "basic blocks";
         Counts [cond_brs counter_totals] "conditional or indirect branches";
         Separator]
      else []) ++
     (* Report the raw measurements in terms of bytes and operations. *)
     [Counts [global_bytes; loads counter_totals; stores counter_totals]
        "bytes (loaded + stored)"] ++
     (if global_view then [Counts [global_unique_bytes] "unique bytes"]
      else []) ++
     [Counts [flops counter_totals] "flops"] ++
     (if bf_all_ops cfg then
        [Counts [ops counter_totals] "integer ops";
         Counts [global_mem_ops; load_ins counter_totals;
                 store_ins counter_totals] "memory ops (loads + stores)"] ++
        (if bf_types cfg then
           [Separator;
            Counts [load_float_ins counter_totals]
              "single-precision floating point loads";
            Counts [load_double_ins counter_totals]
              "double-precision floating point loads";
            Counts [load_int8_ins counter_totals] " 8-bit integer loads";
            Counts [load_int16_ins counter_totals] "16-bit integer loads";
            Counts [load_int32_ins counter_totals] "32-bit integer loads";
            Counts [load_int64_ins counter_totals] "64-bit integer loads";
            Counts [load_ptr_ins counter_totals] "pointer/address loads";
            Counts [load_other_type_ins counter_totals]
              "loads of other types";
            Separator;
            Counts [store_float_ins counter_totals]
              "single-precision floating point stores";
            Counts [store_double_ins counter_totals]
              "double-precision floating point stores";
            Counts [store_int8_ins counter_totals] " 8-bit integer stores";
            Counts [store_int16_ins counter_totals] "16-bit integer stores";
            Counts [store_int32_ins counter_totals] "32-bit integer stores";
            Counts [store_int64_ins counter_totals] "64-bit integer stores";
            Counts [store_ptr_ins counter_totals] "pointer/address stores";
            Counts [store_other_type_ins counter_totals]
              "stores of other types"]
         else [])
      else []) ++
     (if 0 <? reuse_unique ext then
        if median_value ext =? 2 ^ 64 - 1
        then [Words "infinite median reuse distance"]
        else [Counts [median_value ext; mad_value ext]
                "median reuse distance (+/-)"]
      else []) ++
     [Separator] ++
     (* Report the raw measurements in terms of bits and bit operations. *)
     [Counts [u64 (global_bytes * 8); u64 (loads counter_totals * 8);
              u64 (stores counter_totals * 8)] "bits (loaded + stored)"] ++
     (if global_view
      then [Counts [u64 (global_unique_bytes * 8)] "unique bits"]
      else []) ++
     [Counts [fp_bits counter_totals] "flop bits"] ++
     (if bf_all_ops cfg
      then [Counts [op_bits counter_totals] "integer op bits"]
      else []) ++
     [Separator] ++
     (* Report vector-operation measurements. *)
     (if bf_vectors cfg then
        [Counts [num_vec_ops] "vector operations"] ++
        (if 0 <? num_vec_ops then
           [Ratio total_vec_elts num_vec_ops "elements per vector";
            Ratio total_vec_bits num_vec_ops "bits per element"]
         else []) ++
        [Separator]
      else []) ++
     (* Report a bunch of derived measurements. *)
     [Ratio (loads counter_totals) (stores counter_totals)
        "bytes loaded per byte stored"] ++
     (if bf_all_ops cfg then
        (if 0 <? load_ins counter_totals then
           [Ratio (ops counter_totals) (load_ins counter_totals)
              "integer ops per load instruction"]
         else []) ++
        (if 0 <? global_mem_ops then
           [Ratio (global_bytes * 8) global_mem_ops
              "bits loaded/stored per memory op"]
         else [])
      else []) ++
     (if 0 <? cond_brs counter_totals then
        (if 0 <? flops counter_totals then
           [Ratio (flops counter_totals) (cond_brs counter_totals)
              "flops per conditional/indirect branch"]
         else []) ++
        (if 0 <? ops counter_totals then
           [Ratio (ops counter_totals) (cond_brs counter_totals)
              "ops per conditional/indirect branch"]
         else []) ++
        (if 0 <? num_vec_ops then
           [Ratio num_vec_ops (cond_brs counter_totals)
              "vector ops per conditional/indirect branch"]
         else [])
      else []) ++
     (if 0 <? num_vec_ops then
        (if 0 <? flops counter_totals then
           [Ratio num_vec_ops (flops counter_totals)
              "vector operations (FP & int) per flop"]
         else []) ++
        (if 0 <? ops counter_totals then
           [Ratio num_vec_ops (ops counter_totals)
              "vector operations per integer op"]
         else [])
      else []) ++
     [Separator] ++
     (if 0 <? flops counter_totals then
        [Ratio global_bytes (flops counter_totals) "bytes per flop";
         Ratio (global_bytes * 8) (fp_bits counter_totals)
           "bits per flop bit"]
      else []) ++
     (if 0 <? ops counter_totals then
        [Ratio global_bytes (ops counter_totals) "bytes per integer op";
         Ratio (global_bytes * 8) (op_bits counter_totals)
           "bits per integer op bit"]
      else []) ++
     (if bf_unique_bytes cfg &&
         ((0 <? flops counter_totals) || (0 <? ops counter_totals)) then
        [Separator] ++
        (if 0 <? flops counter_totals then
           [Ratio global_unique_bytes (flops counter_totals)
              "unique bytes per flop";
            Ratio (global_unique_bytes * 8) (fp_bits counter_totals)
              "unique bits per flop bit"]
         else []) ++
        (if 0 <? ops counter_totals then
           [Ratio global_unique_bytes (ops counter_totals)
              "unique bytes per integer op";
            Ratio (global_unique_bytes * 8) (op_bits counter_totals)
              "unique bits per integer op bit"]
         else [])
      else []) ++
     (if global_view
      then [Ratio global_bytes global_unique_bytes "bytes per unique byte"]
      else []) ++
     [Separator]).

Definition print_all (ls : list line) (s : State) : State :=
  set_cout (rev ls ++ cout s) s.

(** *** The per-function report *)

(** [static bool compare_char_stars (const char* one, const char* two)]:
    [strcmp(one, two) < 0]. *)
Definition compare_char_stars (one two : string) : bool :=
  String.ltb one two.

(** [static bool compare_func_totals (const char* one, const char* two)],
    over the tallies [func_call_tallies()]. *)
Definition compare_func_totals (tallies : gmap string Z)
    (one two : string) : bool :=
  let one_calls := tally_of tallies one in
  let two_calls := tally_of tallies two in
  if negb (one_calls =? two_calls) then two_calls <? one_calls
  else compare_char_stars one two.

(** Reading [m[k]] makes an entry with value 0 for a key that has none. *)
Definition tally_touch (k : string) (m : gmap string Z) : gmap string Z :=
  match m !! k with
  | Some _ => m
  | None => <[k := 0]> m
  end.

(** [std::sort(first, last, comp)] for a comparison [comp] that is a strict
    order on the elements. *)
Definition std_sort (comp : string -> string -> bool) (l : list string)
  : list string :=
  merge_sort (fun a b => Is_true (negb (comp b a))) l.

(** The titles of the [BYFL_FUNC_HEADER] line before the parent columns. *)
Definition func_header_columns (cfg : Config) : list string :=
  bb_header_columns cfg ++
  (if bf_unique_bytes cfg then ["Uniq_bytes"] else []) ++
  ["Cond_brs"; "Invocations"; "Function"].

(** The header line: the loop [for (size_t i=0; i<call_stack->max_depth-1;
    i++)] writes one parent column per iteration. *)
Definition func_header (cfg : Config) (cs : CallStack) : line :=
  BYFL_FUNC_HEADER (func_header_columns cfg)
    (if bf_call_stack cfg then u64 (max_depth cs - 1) else 0).

(** The loop over the sorted function names: one [BYFL_FUNC] line each.
    The name is interned again and the counters are looked up under that
    symbol: [per_func_totals()[funcname_c]] on a symbol that is no key makes
    an entry holding a null [ByteFlopCounters*], and [func_counters->loads]
    dereferences it.  Reading [func_call_tallies()[funcname_c]] for the line
    makes an entry for a function that has none. *)
Fixpoint report_funcs (cfg : Config) (ext : Collaborators)
    (all_func_names : list string) (s : State) : outcome unit :=
  match all_func_names with
  | [] => Ok tt s
  | funcname :: all_func_names =>
      let funcname_c := bf_string_to_symbol funcname in
      match per_func_totals s !! Symbol funcname_c with
      | None => Undefined   (* func_counters is null and is dereferenced *)
      | Some func_counters =>
          let s := set_func_call_tallies
                     (tally_touch funcname_c (func_call_tallies s)) s in
          let s :=
            print
              (BYFL_FUNC (bb_columns cfg func_counters)
                 (if bf_unique_bytes cfg
                  then Some (tally_unique_addresses_of ext funcname_c)
                  else None)
                 (cond_brs func_counters)
                 (tally_of (func_call_tallies s) funcname_c)
                 funcname_c) s in
          report_funcs cfg ext all_func_names s
      end
  end.

(** The body of the loop over the called functions: the line written for
    the key [funcname], if any. *)
Definition report_callee (tallies : gmap string Z) (funcname : string)
  : list line :=
  match funcname with
  | String "+" rest =>
      let unique_name := bf_string_to_symbol rest in
      let instrumented := is_Some_bool (tallies !! unique_name) in
      let tally := tally_of tallies (bf_string_to_symbol funcname) in
      if 0 <? tally then [BYFL_CALLEE tally instrumented unique_name]
      else []
  | _ => []   (* tally stays 0 *)
  end.

(** [void report_by_function (void)] *)
Definition report_by_function (cfg : Config) (ext : Collaborators)
    (s : State) : outcome unit :=
  (* Output a header line. *)
  let s := print (func_header cfg (call_stack s)) s in
  (* Output the data by sorted function name. *)
  match sorted_key_texts (per_func_totals s) with
  | None => Undefined
  | Some all_func_names =>
      bind (report_funcs cfg ext all_func_names s) (fun _ s =>
        (* Output invocation tallies for all called functions, not just
           instrumented functions. *)
        let s := print BYFL_CALLEE_HEADER s in
        let all_called_funcs :=
          std_sort (compare_func_totals (func_call_tallies s))
            (map fst (map_to_list (func_call_tallies s))) in
        Ok tt (print_all
                 (flat_map (report_callee (func_call_tallies s))
                    all_called_funcs) s))
  end.

(** First block of the fallback in [~RunAtEndOfProgram]: "If we're not
    instrumented on the basic-block level, then we need to accumulate the
    current values of all of our counters into the global totals." *)
Definition fold_live_scalars (s : State) : State :=
  if b_blocks (global_totals s) =? 0 then
    set_global_totals
      (with_scalars (accumulate (global_totals s)) (scalars s) 0 0) s
  else s.

Definition set_b_blocks_cond_brs_zero (c : ByteFlopCounters)
  : ByteFlopCounters :=
  {| loads := loads c; stores := stores c; load_ins := load_ins c;
     load_float_ins := load_float_ins c;
     load_double_ins := load_double_ins c;
     load_int8_ins := load_int8_ins c; load_int16_ins := load_int16_ins c;
     load_int32_ins := load_int32_ins c; load_int64_ins := load_int64_ins c;
     load_ptr_ins := load_ptr_ins c;
     load_other_type_ins := load_other_type_ins c;
     store_ins := store_ins c; store_float_ins := store_float_ins c;
     store_double_ins := store_double_ins c;
     store_int8_ins := store_int8_ins c;
     store_int16_ins := store_int16_ins c;
     store_int32_ins := store_int32_ins c;
     store_int64_ins := store_int64_ins c;
     store_ptr_ins := store_ptr_ins c;
     store_other_type_ins := store_other_type_ins c;
     flops := flops c; fp_bits := fp_bits c; ops := ops c;
     op_bits := op_bits c; cond_brs := 0; b_blocks := 0 |}.

(** The loop over [per_func_totals()]; the order in which an unordered map
    is visited is unspecified, and [map_fold] fixes one. *)
Definition sum_per_func_totals (m : gmap char_ptr ByteFlopCounters)
    (acc : ByteFlopCounters) : ByteFlopCounters :=
  map_fold (fun _ func_counters acc => accumulate_other acc func_counters)
    acc m.

(** Second block of the fallback: "If the global counter totals are empty
    ... We therefore reconstruct the lost global counts from the
    per-function tallies." *)
Definition reconstruct_from_per_func (s : State) : State :=
  if b_blocks (global_totals s) =? 0 then
    set_global_totals
      (set_b_blocks_cond_brs_zero
         (sum_per_func_totals (per_func_totals s) (global_totals s))) s
  else s.

(** The user-defined reports, by sorted tag name.  Every tag comes from the
    map, so the lookup always succeeds. *)
Definition report_user_defined (cfg : Config) (ext : Collaborators)
    (m : gmap string ByteFlopCounters) : list line :=
  flat_map (fun tag_name =>
              match m !! tag_name with
              | Some totals => report_totals cfg ext (Some tag_name) totals
              | None => []
              end)
           (sorted_keys m).

(** [~RunAtEndOfProgram()].  [bf_report_vector_operations] is defined in
    another file, where it only writes its histogram; the one line
    [BYFL_VECTORS] stands for what it writes. *)
Definition RunAtEndOfProgram_destructor (cfg : Config) (ext : Collaborators)
    (s : State) : outcome unit :=
  bind (suppress_output s) (fun suppressed s =>
    (* Do nothing if our output is suppressed. *)
    if suppressed then Ok tt s
    else
      (* Report per-function counter totals. *)
      bind (if bf_per_func cfg then report_by_function cfg ext s
            else Ok tt s) (fun _ s =>
        (* Output a histogram of vector usage. *)
        let s := if bf_vectors cfg
                 then print (BYFL_VECTORS (max_depth (call_stack s))) s
                 else s in
        let s := fold_live_scalars s in
        let s := reconstruct_from_per_func s in
        (* Report user-defined counter totals, if any. *)
        let s := print_all
                   (report_user_defined cfg ext (user_defined_totals s)) s in
        (* Report the global counter totals across all basic blocks. *)
        Ok tt (print_all (report_totals cfg ext None (global_totals s)) s))).

(** ** Runs of the library

    What the instrumented program does to the library, one event at a time:
    its inline updates of the thread-local scalars and its calls. *)

Inductive op : Type :=
| op_add_scalars (d : Tallies)     (* bf_x_count += d.x, for each scalar x *)
| op_clear_scalars                 (* bf_x_count = 0, for each scalar x *)
| op_push_basic_block
| op_pop_basic_block
| op_accumulate_bb_tallies (end_of_basic_block : bb_end_t)
                           (categorize : option string)
| op_reset_bb_tallies
| op_report_bb_tallies
| op_assoc_counters_with_func (funcname : string)
                              (end_of_basic_block : bb_end_t)
| op_incr_func_tally (funcname : string)
| op_push_function (funcname : string)
| op_pop_function.

Definition exec (cfg : Config) (o : op) (s : State) : outcome unit :=
  match o with
  | op_add_scalars d => Ok tt (set_scalars (tallies_add (scalars s) d) s)
  | op_clear_scalars => Ok tt (set_scalars TL_zero s)
  | op_push_basic_block => bf_push_basic_block s
  | op_pop_basic_block => bf_pop_basic_block s
  | op_accumulate_bb_tallies e categorize =>
      bf_accumulate_bb_tallies e categorize s
  | op_reset_bb_tallies => bf_reset_bb_tallies s
  | op_report_bb_tallies => bf_report_bb_tallies cfg s
  | op_assoc_counters_with_func funcname e =>
      bf_assoc_counters_with_func cfg funcname e s
  | op_incr_func_tally funcname => bf_incr_func_tally funcname s
  | op_push_function funcname => bf_push_function funcname s
  | op_pop_function => bf_pop_function s
  end.

Fixpoint run (cfg : Config) (tr : list op) (s : State) : outcome unit :=
  match tr with
  | [] => Ok tt s
  | o :: tr => bind (exec cfg o s) (fun _ s => run cfg tr s)
  end.

(** The state in which the instrumented program starts calling the library:
    the static initial values, then [initialize_byfl] at first use. *)
Definition start (env : gmap string string) (constructed : bool)
  : outcome unit :=
  initialize_byfl (static_state env constructed).

Definition run_program (cfg : Config) (env : gmap string string)
    (constructed : bool) (tr : list op) : outcome unit :=
  bind (start env constructed) (fun _ s => run cfg tr s).

(** * The energy audit (lib/bytesflops/eaudit.cpp)

    The file keeps a stack of energy readings, one per open call, and a map
    from function names to accumulated energy.  The PAPI library and the
    interval timer are outside the file: each entry point is given, in a
    [Papi] record, the answers that PAPI gives during that call.  A
    [long long] is a [Z]; signed overflow is undefined behaviour. *)

Record Papi : Type := {
  signal_ok : bool;          (* signal() did not return SIG_ERR *)
  library_init_ok : bool;    (* PAPI_library_init returned the version *)
  create_eventset_ok : bool; (* PAPI_create_eventset returned PAPI_OK *)
  add_event_ok : bool;       (* PAPI_add_named_event returned PAPI_OK *)
  reset_ok : bool;           (* PAPI_reset returned PAPI_OK *)
  start_ok : bool;           (* PAPI_start returned PAPI_OK *)
  stop_value : option Z      (* the value PAPI_stop stores, if PAPI_OK *)
}.

Inductive message : Type :=
| Text (text : string)
| PAPI_perror.             (* the message PAPI itself prints *)

Record Audit : Type := {
  cur_energy : list Z;               (* std::stack, top first *)
  total_energy : gmap string Z;      (* std::map<std::string, long long> *)
  eventset_created : bool;           (* eventset != PAPI_NULL *)
  audit_out : list string;           (* stdout, most recent first *)
  audit_err : list message           (* stderr, most recent first *)
}.

Inductive audit_outcome (A : Type) : Type :=
| AOk (a : A) (st : Audit)
| AExit (status : Z) (st : Audit)
| AUndefined.

Arguments AOk {A} a st.
Arguments AExit {A} status st.
Arguments AUndefined {A}.

Definition abind {A B : Type} (m : audit_outcome A)
    (k : A -> Audit -> audit_outcome B) : audit_outcome B :=
  match m with
  | AOk a st => k a st
  | AExit status st => AExit status st
  | AUndefined => AUndefined
  end.

Definition audit_print (text : string) (st : Audit) : Audit :=
  {| cur_energy := cur_energy st; total_energy := total_energy st;
     eventset_created := eventset_created st;
     audit_out := text :: audit_out st; audit_err := audit_err st |}.

Definition audit_error (m : message) (st : Audit) : Audit :=
  {| cur_energy := cur_energy st; total_energy := total_energy st;
     eventset_created := eventset_created st;
     audit_out := audit_out st; audit_err := m :: audit_err st |}.

Definition set_cur_energy (v : list Z) (st : Audit) : Audit :=
  {| cur_energy := v; total_energy := total_energy st;
     eventset_created := eventset_created st;
     audit_out := audit_out st; audit_err := audit_err st |}.

Definition set_total_energy (v : gmap string Z) (st : Audit) : Audit :=
  {| cur_energy := cur_energy st; total_energy := v;
     eventset_created := eventset_created st;
     audit_out := audit_out st; audit_err := audit_err st |}.

Definition set_eventset_created (v : bool) (st : Audit) : Audit :=
  {| cur_energy := cur_energy st; total_energy := total_energy st;
     eventset_created := v;
     audit_out := audit_out st; audit_err := audit_err st |}.

(** Addition of two [long long]; [None] when it overflows. *)
Definition add_ll (a b : Z) : option Z :=
  if (- 2 ^ 63 <=? a + b) && (a + b <? 2 ^ 63) then Some (a + b) else None.

Definition SIGALRM : Z := 14.

(** [void do_init(int* eventset)] *)
Definition do_init (p : Papi) (st : Audit) : audit_outcome unit :=
  let st := audit_print "init" st in
  if negb (signal_ok p) then
    AExit (-1) (audit_error (Text "Unable to set signal handler.") st)
  else if negb (library_init_ok p) then
    AExit (-1) (audit_error (Text "Unable to init PAPI library.") st)
  else if negb (create_eventset_ok p) then
    AExit (-1)
      (audit_error (Text "Unable to create PAPI eventset.")
         (audit_error (Text "Unable to create PAPI eventset.") st))
  else
    let st := set_eventset_created true st in
    if negb (add_event_ok p) then
      AExit (-1)
        (audit_error PAPI_perror
           (audit_error (Text "Unable to add RAPL PACKAGE_ENERGY event.") st))
    else AOk tt st.

(** [int* get_eventset()] *)
Definition get_eventset (p : Papi) (st : Audit) : audit_outcome unit :=
  if eventset_created st then AOk tt st else do_init p st.

(** [void reset_rapl()]; the interval timer it sets is not modelled. *)
Definition reset_rapl (p : Papi) (st : Audit) : audit_outcome unit :=
  abind (get_eventset p st) (fun _ st =>
    if negb (reset_ok p) then AExit (-1) (audit_error PAPI_perror st)
    else
      abind (get_eventset p st) (fun _ st =>
        if negb (start_ok p)
        then AExit (-1) (audit_error (Text "Unable to start PAPI.") st)
        else AOk tt st)).

(** [long long get_rapl_energy()] *)
Definition get_rapl_energy (p : Papi) (st : Audit) : audit_outcome Z :=
  abind (get_eventset p st) (fun _ st =>
    match stop_value p with
    | None => AExit (-1) (audit_error (Text "Unable to stop RAPL.") st)
    | Some energy_val => AOk energy_val st
    end).

(** [void timeout(int signum)].  In [cur_energy.top() += get_rapl_energy()]
    the right operand is evaluated first. *)
Definition timeout (signum : Z) (p : Papi) (st : Audit)
  : audit_outcome unit :=
  if signum =? SIGALRM then
    abind (get_rapl_energy p st) (fun energy st =>
      match cur_energy st with
      | [] => AUndefined
      | top :: rest =>
          match add_ll top energy with
          | None => AUndefined
          | Some top => reset_rapl p (set_cur_energy (top :: rest) st)
          end
      end)
  else AOk tt st.

(** [void do_push()] *)
Definition do_push (p : Papi) (st : Audit) : audit_outcome unit :=
  let st := audit_print "push" st in
  reset_rapl p (set_cur_energy (0 :: cur_energy st) st).

(** [void do_pop(const char* func_name)] *)
Definition do_pop (func_name : string) (p : Papi) (st : Audit)
  : audit_outcome unit :=
  let st := audit_print "pop" st in
  abind (timeout SIGALRM p st) (fun _ st =>
    match cur_energy st with
    | [] => AUndefined
    | top :: rest =>
        match add_ll (default 0 (total_energy st !! func_name)) top with
        | None => AUndefined
        | Some total =>
            AOk tt (set_cur_energy rest
                      (set_total_energy
                         (<[func_name := total]> (total_energy st)) st))
        end
    end).

(** What happens to the audit: the calls [EAUDIT_push] and [EAUDIT_pop] of
    the instrumented program, and deliveries of a signal to [timeout]. *)
Inductive audit_event : Type :=
| ev_push (p : Papi)
| ev_pop (func_name : string) (p : Papi)
| ev_signal (signum : Z) (p : Papi).

Definition audit_exec (e : audit_event) (st : Audit) : audit_outcome unit :=
  match e with
  | ev_push p => do_push p st
  | ev_pop func_name p => do_pop func_name p st
  | ev_signal signum p => timeout signum p st
  end.

Fixpoint audit_run (evs : list audit_event) (st : Audit)
  : audit_outcome unit :=
  match evs with
  | [] => AOk tt st
  | e :: evs => abind (audit_exec e st) (fun _ st => audit_run evs st)
  end.

(** * Notions used to state the properties *)

(** ** Records written by [bf_report_bb_tallies] *)

(** The [BYFL_BB] records among the lines written. *)
Definition bb_records (ls : list line) : list (list Z) :=
  flat_map (fun l => match l with BYFL_BB vals => [vals] | _ => [] end) ls.

(** Column-wise sum, in [uint64_t] arithmetic, of [BYFL_BB] records. *)
Definition add_columns (a b : list Z) : list Z :=
  zip_with (fun x y => u64 (x + y)) a b.

Definition sum_of_records (cfg : Config) (recs : list (list Z)) : list Z :=
  fold_right add_columns (bb_columns cfg BFC_zero) recs.

(** Column-wise difference, in [uint64_t] arithmetic, of the printed fields
    of two sets of counters. *)
Definition minus_columns (a b : list Z) : list Z :=
  zip_with (fun x y => u64 (x - y)) a b.

(** Every counter lies in the range of [uint64_t]. *)
Definition in_u64 (c : ByteFlopCounters) : Prop :=
  accumulate_other BFC_zero c = c.

(** The records written so far add up to the totals last reported. *)
Definition decimated (cfg : Config) (s : State) : Prop :=
  in_u64 (global_totals s) /\
  in_u64 (prev_global_totals s) /\
  sum_of_records cfg (bb_records (cout s))
  = bb_columns cfg (prev_global_totals s).

(** ** Increments of the scalars *)




(** An increment of [n] bytes loaded by one load instruction. *)
Definition one_load (n : Z) : Tallies :=
  TL n 0 1 0 0 0 0 0 0 0 0 0 0 0 0 0 0 0 0 0 0 0 0 0.

(** ** The categorization hook *)

(** The categorization hook returns [tag] whenever event [o] consults it. *)
Definition hook_returns (tag : option string) (o : op) : Prop :=
  match o with
  | op_accumulate_bb_tallies e categorize =>
      is_end e = true -> categorize = tag
  | _ => True
  end.

(** Event [o] is a flush at the end of a basic block. *)
Definition ends_block (o : op) : bool :=
  match o with
  | op_accumulate_bb_tallies e _ => is_end e
  | _ => false
  end.

(** Some basic block has terminated during the run. *)
Definition terminated (tr : list op) : bool := existsb ends_block tr.

(** Every terminating block so far went to partition [tag] and nowhere
    else: if a block has terminated ([any] is [true]), [tag] is the only
    partition and holds the global totals; if none has, there is no
    partition and the global totals are zero. *)
Definition routed_to (tag : string) (any : bool) (s : State) : Prop :=
  if any then user_defined_totals s = {[ tag := global_totals s ]}
  else user_defined_totals s = ∅ /\ global_totals s = BFC_zero.

(** ** Counting invocations *)

(** Number of [bf_push_function(f)] calls in a run. *)
Fixpoint count_push_calls (f : string) (tr : list op) : nat :=
  match tr with
  | [] => O
  | op_push_function g :: tr =>
      ((if String.eqb g f then 1 else 0) + count_push_calls f tr)%nat
  | _ :: tr => count_push_calls f tr
  end.

(** The text of the key under which [bf_push_function(f)] counts a call made
    while [stack] holds the live combined names. *)
Definition combined_key (f : string) (stack : list string) : string :=
  match stack with
  | [] => f
  | ancestors :: _ => String.append f (String.append space ancestors)
  end.

(** Whether event [o], met while [stack] holds the live combined names,
    counts one invocation under key [k]: a call [bf_push_function(f)] whose
    combined key is [k], or a call [bf_incr_func_tally(k)]. *)
Definition counts_under (k : string) (stack : list string) (o : op) : nat :=
  match o with
  | op_push_function f =>
      if String.eqb (combined_key f stack) k then 1%nat else 0%nat
  | op_incr_func_tally f => if String.eqb f k then 1%nat else 0%nat
  | _ => 0%nat
  end.

(** The live combined names after event [o]. *)
Definition stack_after (o : op) (stack : list string) : list string :=
  match o with
  | op_push_function f => combined_key f stack :: stack
  | op_pop_function => tail stack
  | _ => stack
  end.

(** Number of events of a run that count one invocation under key [k]. *)
Fixpoint bumps (k : string) (stack : list string) (tr : list op) : nat :=
  match tr with
  | [] => O
  | o :: tr => (counts_under k stack o + bumps k (stack_after o stack) tr)%nat
  end.

(** ** Matched pushes and pops *)

(** Every pop is preceded by a matching push: [bb] and [fn] count the pushes
    of the run not yet matched by a pop.  The basic-block frame pushed by
    [initialize_byfl] is not one of them. *)
Fixpoint well_matched (bb fn : nat) (tr : list op) : bool :=
  match tr with
  | [] => true
  | op_push_basic_block :: tr => well_matched (S bb) fn tr
  | op_pop_basic_block :: tr =>
      match bb with O => false | S bb => well_matched bb fn tr end
  | op_push_function _ :: tr => well_matched bb (S fn) tr
  | op_pop_function :: tr =>
      match fn with O => false | S fn => well_matched bb fn tr end
  | _ :: tr => well_matched bb fn tr
  end.

(** Greatest depth the call stack has during a run of pushes and pops that
    starts at depth [d], given the greatest depth [m] seen before. *)
Fixpoint deepest (d m : nat) (tr : list op) : nat :=
  match tr with
  | [] => m
  | op_push_function _ :: tr => deepest (S d) (Nat.max m (S d)) tr
  | op_pop_function :: tr => deepest (Nat.pred d) m tr
  | _ :: tr => deepest d m tr
  end.

(** ** Ratio lines and strings *)

(** The ratio lines of [report_totals] whose test, if any, is not on their
    own denominator. *)
Definition unguarded_ratios : list string :=
  ["bytes loaded per byte stored";
   "bits per flop bit";
   "bits per integer op bit";
   "unique bits per flop bit";
   "unique bits per integer op bit";
   "bytes per unique byte"].

(** The character [c] occurs in [str]. *)
Fixpoint occurs (c : ascii) (str : string) : Prop :=
  match str with
  | EmptyString => False
  | String a rest => a = c \/ occurs c rest
  end.

(** ** Concrete configurations, environments and runs *)

Definition empty_env : gmap string string := ∅.

(** An environment in which RANK is 0 and BYFL_OUTPUT_IF is [spec]. *)
Definition env_with (spec : string) : gmap string string :=
  <["BYFL_OUTPUT_IF" := spec]> (<["RANK" := "0"]> empty_env).

Definition default_config : Config :=
  {| bf_bb_merge := 1; bf_all_ops := false; bf_types := false;
     bf_per_func := false; bf_call_stack := false;
     bf_unique_bytes := false; bf_vectors := false |}.

Definition call_stack_config : Config :=
  {| bf_bb_merge := 1; bf_all_ops := false; bf_types := false;
     bf_per_func := true; bf_call_stack := true;
     bf_unique_bytes := false; bf_vectors := false |}.

Definition no_collaborators : Collaborators :=
  {| reuse_unique := 0; tally_unique_addresses := 0;
     tally_unique_addresses_of := fun _ => 0;
     median_value := 0; mad_value := 0;
     vector_statistics := fun _ => (0, 0, 0) |}.

Definition state_of {A : Type} (o : outcome A) (d : State) : State :=
  match o with
  | Ok _ s => s
  | _ => d
  end.

(** The state right after [initialize_byfl], in an empty environment. *)
Definition started_state : State :=
  state_of (start empty_env true) (static_state empty_env true).

Definition final_state (cfg : Config) (tr : list op) : State :=
  state_of (run_program cfg empty_env true tr) started_state.

(** One terminating basic block that loaded 4 bytes. *)
Definition one_block : list op :=
  [op_add_scalars (one_load 4);
   op_accumulate_bb_tallies BB_END_COND None].

(** A run of two terminating basic blocks, as instrumented code drives the
    library: tally, flush, report, then reset the frame and the scalars.
    The hook returns [categorize] at each block. *)
Definition two_blocks (categorize : option string) : list op :=
  [op_add_scalars (one_load 4);
   op_accumulate_bb_tallies BB_END_COND categorize;
   op_report_bb_tallies;
   op_reset_bb_tallies;
   op_clear_scalars;
   op_add_scalars (one_load 8);
   op_accumulate_bb_tallies BB_END_UNCOND categorize;
   op_report_bb_tallies;
   op_reset_bb_tallies;
   op_clear_scalars].

(** A first block that has been reported, and a second one that has
    terminated and is about to be. *)
Definition second_block_pending : list op :=
  [op_add_scalars (one_load 4);
   op_accumulate_bb_tallies BB_END_COND None;
   op_report_bb_tallies;
   op_reset_bb_tallies;
   op_clear_scalars;
   op_add_scalars (one_load 8);
   op_accumulate_bb_tallies BB_END_UNCOND None].

(** [main] calls [f]. *)
Definition main_calls_f : list op :=
  [op_push_function "main"; op_push_function "f"].

(** [f1] calls [f2], which calls [f3], which loads 4 bytes and returns. *)
Definition attributed_run : list op :=
  [op_push_function "f1"; op_push_function "f2"; op_push_function "f3";
   op_add_scalars (one_load 4);
   op_assoc_counters_with_func "f3" BB_END_UNCOND;
   op_pop_function].

(** Per-function tallying without basic-block instrumentation: 7 bytes are
    loaded and associated with [f], the instrumented code zeroes the scalars,
    and 5 more bytes are loaded before the program ends. *)
Definition per_func_run : list op :=
  [op_add_scalars (one_load 7);
   op_assoc_counters_with_func "f" BB_NOT_END;
   op_clear_scalars;
   op_add_scalars (one_load 5)].

(** Per-function tallying in which the scalars are not zeroed after the
    association: 7 bytes are loaded and associated with [f]. *)
Definition unzeroed_run : list op :=
  [op_add_scalars (one_load 7);
   op_assoc_counters_with_func "f" BB_NOT_END].

(** A run whose pops all match an earlier push. *)
Definition nested_call : list op :=
  [op_push_function "main";
   op_push_basic_block;
   op_push_function "f";
   op_add_scalars (one_load 4);
   op_accumulate_bb_tallies BB_END_UNCOND None;
   op_reset_bb_tallies;
   op_pop_function;
   op_pop_basic_block;
   op_pop_function].

(** ** Notions for further properties of the library *)

(** The totals obtained by visiting the entries of a map in the order [l]. *)
Definition sum_in_order (l : list (char_ptr * ByteFlopCounters))
    (acc : ByteFlopCounters) : ByteFlopCounters :=
  foldr (fun kc acc => accumulate_other acc (snd kc)) acc l.

(** Event [o] neither pushes nor pops a basic-block frame. *)
Definition keeps_bb_depth (o : op) : Prop :=
  match o with
  | op_push_basic_block | op_pop_basic_block => False
  | _ => True
  end.

(** Number of calls of [bf_report_bb_tallies] in a run. *)
Fixpoint count_reports (tr : list op) : nat :=
  match tr with
  | [] => O
  | op_report_bb_tallies :: tr => S (count_reports tr)
  | _ :: tr => count_reports tr
  end.

(** Every entry of a call stack is a function name, a space and the entry
    below it; the bottom entry is a bare name. *)
Fixpoint chained (stack : list string) : Prop :=
  match stack with
  | [] => True
  | top :: below =>
      (exists f, top = combined_key f below) /\ chained below
  end.



(** The same state in another environment (a [setenv] of the program). *)
Definition set_environ (v : gmap string string) (s : State) : State :=
  {| scalars := scalars s; num_merged := num_merged s;
     global_totals := global_totals s;
     prev_global_totals := prev_global_totals s;
     per_func_totals := per_func_totals s;
     func_call_tallies := func_call_tallies s;
     user_defined_totals := user_defined_totals s;
     bf_func_and_parents := bf_func_and_parents s; bb_totals := bb_totals s;
     freelist := freelist s; call_stack := call_stack s;
     all_constructors_called := all_constructors_called s;
     output := output s; showed_header := showed_header s;
     environ := v; cout := cout s; cerr := cerr s |}.

(** Two function records. *)
Definition two_records : gmap char_ptr ByteFlopCounters :=
  <[Symbol "f" := with_scalars BFC (one_load 4) 0 1]>
    (<[Symbol "g" := with_scalars BFC (one_load 8) 1 1]> ∅).

(** A callee that flushes and resets its own frame between the push and the
    pop of that frame. *)
Definition callee_body : list op :=
  [op_add_scalars (one_load 4);
   op_accumulate_bb_tallies BB_END_COND None;
   op_reset_bb_tallies;
   op_add_scalars (one_load 8);
   op_accumulate_bb_tallies BB_NOT_END None].

(** The lines written so far are the header, written first, and [BYFL_BB]
    records with as many fields as the header has columns; [cout] holds the
    most recent line first. *)
Definition header_then_records (cfg : Config) (ls : list line) : Prop :=
  exists recs,
    ls = map BYFL_BB recs ++ [BYFL_BB_HEADER (bb_header_columns cfg)] /\
    Forall (fun r => length r = length (bb_header_columns cfg)) recs.

(** Output has not been ruled out: the constructors have run, no decision
    to suppress has been taken, and BYFL_OUTPUT_IF is unset. *)
Definition output_shown (s : State) : Prop :=
  all_constructors_called s = true /\
  output s <> SUPPRESS /\
  environ s !! "BYFL_OUTPUT_IF" = None.

(** A window of three basic blocks. *)
Definition window3_config : Config :=
  {| bf_bb_merge := 3; bf_all_ops := true; bf_types := false;
     bf_per_func := false; bf_call_stack := false;
     bf_unique_bytes := false; bf_vectors := false |}.

(** Seven basic blocks, each reported. *)
Definition seven_blocks : list op :=
  two_blocks None ++ two_blocks None ++ two_blocks None ++
  [op_add_scalars (one_load 1);
   op_accumulate_bb_tallies BB_END_COND None;
   op_report_bb_tallies].


(** A comparison function is a strict total order: what [std::sort] needs
    from it to give one well-defined result. *)
Definition strict_total_order (comp : string -> string -> bool) : Prop :=
  (forall a, comp a a = false) /\
  (forall a b c, comp a b = true -> comp b c = true -> comp a c = true) /\
  (forall a b, a <> b -> comp a b = true \/ comp b a = true).

(** The name on a [BYFL_FUNC] line. *)
Definition func_line_name (l : line) : option string :=
  match l with
  | BYFL_FUNC _ _ _ _ funcname => Some funcname
  | _ => None
  end.

(** A run in which [main] calls the instrumented [f] and the library
    function [memcpy], which has no counters of its own. *)
Definition calls_with_callees : list op :=
  [op_push_function "main";
   op_incr_func_tally "+f";
   op_push_function "f";
   op_add_scalars (one_load 4);
   op_assoc_counters_with_func "f" BB_END_UNCOND;
   op_clear_scalars;
   op_pop_function;
   op_incr_func_tally "+memcpy";
   op_incr_func_tally "+memcpy"].

Definition per_func_config : Config :=
  {| bf_bb_merge := 1; bf_all_ops := false; bf_types := false;
     bf_per_func := true; bf_call_stack := false;
     bf_unique_bytes := false; bf_vectors := false |}.

(** Event [o] is not a call of [bf_push_function]. *)
Definition not_a_push (o : op) : Prop :=
  match o with
  | op_push_function _ => False
  | _ => True
  end.

(** The lines of a summary written only when there is no partition. *)
Definition unique_byte_texts : list string :=
  ["unique bytes"; "unique bits"; "bytes per unique byte"].

Definition summary_text (i : summary_item) : option string :=
  match i with
  | Separator => None
  | Counts _ text => Some text
  | Words text => Some text
  | Ratio _ _ text => Some text
  end.

(** Every feature switched on. *)
Definition full_config : Config :=
  {| bf_bb_merge := 1; bf_all_ops := true; bf_types := true;
     bf_per_func := true; bf_call_stack := true;
     bf_unique_bytes := true; bf_vectors := true |}.

(** The lines written between two states, first line first. *)
Definition written (s s' : State) (ls : list line) : Prop :=
  cout s' = rev ls ++ cout s.

(** Every key of a map keyed by pointer is a symbol. *)
Definition keyed_by_symbols {V : Type} (m : gmap char_ptr V) : Prop :=
  forall k, is_Some (m !! k) -> exists text, k = Symbol text.

(** Strictly increasing in the order of [compare_char_stars], so without
    repetition. *)
Definition strictly_increasing (l : list string) : Prop :=
  StronglySorted (fun a b => compare_char_stars a b = true) l.

(** Counters are associated with [f] while no function is pushed. *)
Definition top_level_assoc : list op :=
  [op_add_scalars (one_load 4);
   op_assoc_counters_with_func "f" BB_END_UNCOND].

(** ** Notions for the energy audit *)

(** PAPI answers without error and reports [energy] at [PAPI_stop]. *)
Definition papi_reads (energy : Z) : Papi :=
  {| signal_ok := true; library_init_ok := true; create_eventset_ok := true;
     add_event_ok := true; reset_ok := true; start_ok := true;
     stop_value := Some energy |}.

(** The energy read by an event, if it reads any. *)
Definition energy_read (e : audit_event) : Z :=
  match e with
  | ev_push _ => 0
  | ev_pop _ p => default 0 (stop_value p)
  | ev_signal signum p =>
      if signum =? SIGALRM then default 0 (stop_value p) else 0
  end.

Definition sum_Z (l : list Z) : Z := fold_right Z.add 0 l.

(** All the energy the audit holds: the totals of the functions and the
    readings of the open calls. *)
Definition energy_held (st : Audit) : Z :=
  map_fold (fun _ v acc => v + acc) 0 (total_energy st)
  + sum_Z (cur_energy st).

Definition audit_start : Audit :=
  {| cur_energy := []; total_energy := ∅; eventset_created := false;
     audit_out := []; audit_err := [] |}.

(** [main] runs for 5 and 7 units, calls [f], which runs for 3 and 4, and
    then runs for 2 more. *)
Definition audit_nested : list audit_event :=
  [ev_push (papi_reads 0);
   ev_signal SIGALRM (papi_reads 5);
   ev_signal SIGALRM (papi_reads 7);
   ev_push (papi_reads 0);
   ev_signal SIGALRM (papi_reads 3);
   ev_pop "f" (papi_reads 4);
   ev_pop "main" (papi_reads 2)].

(** ** Proof automation *)

(** Inversion of a normal return of one of the entry points that touch
    neither the totals nor the output. *)
Ltac invert_call Hx :=
  lazymatch type of Hx with
  | Ok _ _ = Ok _ _ => injection Hx as <-
  | bf_push_basic_block ?s = _ =>
      unfold bf_push_basic_block in Hx;
      destruct (allocate (freelist s)); injection Hx as <-
  | bf_pop_basic_block ?s = _ =>
      unfold bf_pop_basic_block in Hx;
      destruct (bb_totals s); [discriminate|]; injection Hx as <-
  | bf_reset_bb_tallies ?s = _ =>
      unfold bf_reset_bb_tallies in Hx;
      destruct (bb_totals s); [discriminate|]; injection Hx as <-
  | bf_assoc_counters_with_func _ _ _ ?s = _ =>
      unfold bf_assoc_counters_with_func in Hx;
      destruct (per_func_totals s !! _); injection Hx as <-
  | bf_incr_func_tally _ _ = _ =>
      unfold bf_incr_func_tally in Hx; injection Hx as <-
  | bf_push_function ?f ?s = _ =>
      unfold bf_push_function in Hx;
      destruct (push_function f (call_stack s)); injection Hx as <-
  | bf_pop_function ?s = _ =>
      unfold bf_pop_function in Hx;
      destruct (pop_function (call_stack s)) as [[? ?]|]; [|discriminate];
      injection Hx as <-
  end.

(** Case analysis of the membership of a line in a summary. *)
Ltac split_summary H :=
  repeat match type of H with
         | In _ (_ ++ _) => apply in_app_or in H; destruct H as [H|H]
         | In _ (if ?b then _ else _) => destruct b eqn:?
         | In _ (_ :: _) => destruct H as [H|H]
         | In _ [] => destruct H
         end.

(** * Properties *)

(** ** Arithmetic on [uint64_t] *)

Lemma u64_range z : 0 <= u64 z < 2 ^ 64.
Proof. unfold u64. apply Z.mod_pos_bound. lia. Qed.

Lemma u64_idem z : u64 (u64 z) = u64 z.
Proof. unfold u64. apply Zmod_mod. Qed.

Lemma u64_add_l a b : u64 (u64 a + b) = u64 (a + b).
Proof. unfold u64. apply Zplus_mod_idemp_l. Qed.

Lemma u64_add_r a b : u64 (a + u64 b) = u64 (a + b).
Proof. unfold u64. apply Zplus_mod_idemp_r. Qed.

Lemma u64_small z : 0 <= z < 2 ^ 64 -> u64 z = z.
Proof. intros H. unfold u64. apply Z.mod_small. exact H. Qed.



Lemma u64_sub_add a b : u64 (0 + a) = a -> u64 (u64 (a - b) + b) = a.
Proof.
  intros Ha. rewrite u64_add_l.
  replace (a - b + b) with (0 + a) by lia. exact Ha.
Qed.

(** ** Runs and what the entry points leave untouched *)

Lemma suppress_output_Ok s b s1 :
  suppress_output s = Ok b s1 -> exists o, s1 = set_output o s.
Proof.
  unfold suppress_output.
  destruct (all_constructors_called s) eqn:Hc; cbn.
  - destruct (output s) eqn:Ho.
    + destruct (getenv s "BYFL_OUTPUT_IF") as [value|].
      * destruct (find_first_of value "=") as [eqpos|]; [|discriminate].
        intros [= _ <-]. eauto.
      * intros [= _ <-]. eauto.
    + intros [= _ <-]. exists SUPPRESS. rewrite <- Ho. destruct s; reflexivity.
    + intros [= _ <-]. exists SHOW. rewrite <- Ho. destruct s; reflexivity.
  - intros [= _ <-]. exists (output s). destruct s; reflexivity.
Qed.

Lemma suppress_output_defined s : suppress_output s <> Undefined.
Proof.
  unfold suppress_output.
  destruct (all_constructors_called s); cbn; [|discriminate].
  destruct (output s); try discriminate.
  destruct (getenv s "BYFL_OUTPUT_IF") as [value|]; [|discriminate].
  destruct (find_first_of value "="); discriminate.
Qed.

Lemma bf_report_bb_tallies_frame cfg s s' :
  bf_report_bb_tallies cfg s = Ok tt s' ->
  scalars s' = scalars s /\
  global_totals s' = global_totals s /\
  per_func_totals s' = per_func_totals s /\
  func_call_tallies s' = func_call_tallies s /\
  user_defined_totals s' = user_defined_totals s /\
  bb_totals s' = bb_totals s /\
  call_stack s' = call_stack s.
Proof.
  unfold bf_report_bb_tallies.
  destruct (suppress_output s) as [b s1| |] eqn:Hs; cbn; try discriminate.
  apply suppress_output_Ok in Hs as [o ->].
  destruct b; [intros [= <-]; cbn; repeat split|].
  cbn. destruct (showed_header s); cbn;
    destruct (bf_bb_merge cfg <=? _); intros [= <-]; cbn; repeat split.
Qed.

Lemma bf_report_bb_tallies_cases cfg s s' :
  bf_report_bb_tallies cfg s = Ok tt s' ->
  global_totals s' = global_totals s /\
  ((bb_records (cout s') = bb_records (cout s) /\
    prev_global_totals s' = prev_global_totals s) \/
   (bb_records (cout s')
    = bb_columns cfg (difference (global_totals s) (prev_global_totals s))
      :: bb_records (cout s) /\
    prev_global_totals s' = global_totals s)).
Proof.
  unfold bf_report_bb_tallies.
  destruct (suppress_output s) as [b s1| |] eqn:Hs; cbn; try discriminate.
  apply suppress_output_Ok in Hs as [o ->].
  destruct b; [intros [= <-]; cbn; auto|].
  cbn. destruct (showed_header s); cbn;
    destruct (bf_bb_merge cfg <=? _); intros [= <-]; cbn; auto.
Qed.

Lemma bf_report_bb_tallies_defined cfg s :
  bf_report_bb_tallies cfg s <> Undefined.
Proof.
  unfold bf_report_bb_tallies.
  pose proof (suppress_output_defined s) as Hd.
  destruct (suppress_output s) as [b s1| |]; cbn; [|discriminate|tauto].
  destruct b; [discriminate|].
  destruct (bf_bb_merge cfg <=? _); discriminate.
Qed.



(** An invariant of single events is an invariant of runs. *)
Lemma run_invariant cfg (P : op -> Prop) (Inv : State -> Prop) :
  (forall o s s', exec cfg o s = Ok tt s' -> P o -> Inv s -> Inv s') ->
  forall tr s s',
    run cfg tr s = Ok tt s' -> Forall P tr -> Inv s -> Inv s'.
Proof.
  intros Hstep. induction tr as [|o tr IH]; intros s s' Hrun HP Hinv.
  - injection Hrun as <-. exact Hinv.
  - cbn in Hrun. inversion HP as [|? ? Ho Htr]; subst.
    destruct (exec cfg o s) as [[] s1| |] eqn:Hx; cbn in Hrun;
      try discriminate.
    exact (IH s1 s' Hrun Htr (Hstep o s s1 Hx Ho Hinv)).
Qed.

Lemma run_program_inv cfg env constructed tr s :
  run_program cfg env constructed tr = Ok tt s ->
  exists s0, start env constructed = Ok tt s0 /\ run cfg tr s0 = Ok tt s /\
    global_totals s0 = BFC_zero /\ user_defined_totals s0 = ∅ /\
    func_call_tallies s0 = ∅ /\
    complete_call_stack (call_stack s0) = [] /\
    bb_totals s0 = [BFC_zero].
Proof.
  unfold run_program. intros H. eexists. split; [reflexivity|].
  split; [exact H|]. repeat split.
Qed.

(** ** Decimated basic-block output *)

(** The printed fields of a difference are the differences of the printed
    fields. *)
Lemma bb_columns_difference cfg g p :
  bb_columns cfg (difference g p)
  = minus_columns (bb_columns cfg g) (bb_columns cfg p).
Proof.
  unfold bb_columns, minus_columns, difference.
  destruct (bf_all_ops cfg); [destruct (bf_types cfg)|]; reflexivity.
Qed.

(** C1.  When output is not suppressed, a call of [bf_report_bb_tallies]
    increments the merge count; if the count has reached [bf_bb_merge] it
    writes exactly one [BYFL_BB] record, whose fields are those of
    [global_totals] minus those of [prev_global_totals], field by field in
    [uint64_t] arithmetic, sets the merge count to zero and copies
    [global_totals] into [prev_global_totals]; otherwise it writes no record
    and leaves [prev_global_totals] as it is.  In both cases
    [global_totals] is unchanged. *)
Theorem decimator_emission cfg s s1 :
  suppress_output s = Ok false s1 ->
  let n := u64 (num_merged s + 1) in
  exists s',
    bf_report_bb_tallies cfg s = Ok tt s' /\
    global_totals s' = global_totals s /\
    (bf_bb_merge cfg <= n ->
       bb_records (cout s') =
         minus_columns (bb_columns cfg (global_totals s))
           (bb_columns cfg (prev_global_totals s))
         :: bb_records (cout s) /\
       num_merged s' = 0 /\
       prev_global_totals s' = global_totals s) /\
    (n < bf_bb_merge cfg ->
       bb_records (cout s') = bb_records (cout s) /\
       num_merged s' = n /\
       prev_global_totals s' = prev_global_totals s).
Proof.
  intros Hs n. unfold bf_report_bb_tallies. rewrite Hs. cbn [bind].
  apply suppress_output_Ok in Hs as [o ->].
  rewrite <- bb_columns_difference.
  destruct (showed_header s) eqn:Hh; cbn; rewrite Hh; cbn;
    fold n; destruct (Z.leb_spec (bf_bb_merge cfg) n) as [Hle|Hlt];
    eexists; (split; [reflexivity|]); cbn;
    (split; [reflexivity|]); split; intros H; try lia; auto.
Qed.

Lemma decimator_emission_witness :
  exists s',
    bf_report_bb_tallies default_config
      (final_state default_config second_block_pending) = Ok tt s' /\
    bb_records (cout s') = [[8; 0; 1; 0; 0; 0]; [4; 0; 1; 0; 0; 0]] /\
    num_merged s' = 0 /\
    prev_global_totals s'
    = global_totals (final_state default_config second_block_pending) /\
    loads (prev_global_totals s') = 12.
Proof.
  destruct (decimator_emission default_config
              (final_state default_config second_block_pending)
              (final_state default_config second_block_pending)
              ltac:(vm_compute; reflexivity))
    as (s' & Hrun & _ & Hemit & _).
  exists s'. split; [exact Hrun|].
  destruct (Hemit ltac:(vm_compute; discriminate)) as (Hrec & Hn & Hp).
  split; [rewrite Hrec; vm_compute; reflexivity|].
  split; [exact Hn|]. split; [exact Hp|].
  rewrite Hp. vm_compute. reflexivity.
Defined.

Lemma add_columns_difference cfg g p :
  in_u64 g ->
  add_columns (bb_columns cfg (difference g p)) (bb_columns cfg p)
  = bb_columns cfg g.
Proof.
  unfold in_u64, accumulate_other. destruct g, p. cbn.
  intros [= ]. unfold bb_columns, add_columns.
  destruct (bf_all_ops cfg); [destruct (bf_types cfg)|]; cbn;
    repeat (f_equal; try (apply u64_sub_add; assumption)).
Qed.

Lemma in_u64_accumulate_other c other : in_u64 (accumulate_other c other).
Proof.
  unfold in_u64, accumulate_other. cbn. f_equal; apply u64_idem.
Qed.

Lemma exec_decimated cfg o s s' :
  exec cfg o s = Ok tt s' -> True -> decimated cfg s -> decimated cfg s'.
Proof.
  unfold decimated.
  destruct o; cbn [exec]; intros Hx _ Hinv;
    try (invert_call Hx; exact Hinv).
  - destruct Hinv as (Hg & Hp & Hsum).
    unfold bf_accumulate_bb_tallies in Hx.
    destruct (bb_totals s) as [|current_bb rest]; [discriminate|].
    destruct (is_end end_of_basic_block).
    + destruct (bf_string_to_symbol_ptr categorize) as [partition|].
      * cbn in Hx. destruct (user_defined_totals s !! partition);
          injection Hx as <-; cbn;
          (split; [apply in_u64_accumulate_other|]); split; assumption.
      * injection Hx as <-. cbn.
        split; [apply in_u64_accumulate_other|]. split; assumption.
    + injection Hx as <-. cbn. repeat split; assumption.
  - destruct Hinv as (Hg & Hp & Hsum).
    apply bf_report_bb_tallies_cases in Hx
      as (Hg' & [[Hrec Hp']|[Hrec Hp']]); rewrite Hg', Hrec, Hp'.
    + repeat split; assumption.
    + split; [exact Hg|]. split; [exact Hg|].
      unfold sum_of_records in *. cbn [fold_right].
      rewrite Hsum. apply add_columns_difference, Hg.
Qed.

(** Decimation invariant: in every state a run reaches from the start of the
    program, the column-wise sum (modulo 2^64) of all the [BYFL_BB] records
    written so far equals the printed fields of [prev_global_totals], that
    is, of [global_totals] as it was at the last record. *)
Lemma decimation_invariant cfg env constructed tr s :
  run_program cfg env constructed tr = Ok tt s ->
  sum_of_records cfg (bb_records (cout s))
  = bb_columns cfg (prev_global_totals s).
Proof.
  intros Hrun. unfold run_program in Hrun. cbn [start initialize_byfl
    bf_push_basic_block allocate freelist set_freelist bind] in Hrun.
  refine (proj2 (proj2
            (run_invariant cfg (fun _ => True) (decimated cfg)
               (exec_decimated cfg) tr _ s Hrun _ _))).
  - apply Forall_forall. intros; exact I.
  - repeat split.
Qed.

(** ** Flushing the thread-local scalars *)




(** What one flush does to a state whose basic-block stack is not empty. *)
Lemma flush_top e categorize s top rest :
  bb_totals s = top :: rest ->
  exists s',
    bf_accumulate_bb_tallies e categorize s = Ok tt s' /\
    bb_totals s' =
      with_scalars (accumulate top) (scalars s)
        (b2u (is_cond e)) (b2u (is_end e)) :: rest /\
    scalars s' = scalars s.
Proof.
  intros Hbb. unfold bf_accumulate_bb_tallies. rewrite Hbb.
  destruct (is_end e); cbn.
  - destruct (bf_string_to_symbol_ptr categorize) as [partition|]; cbn.
    + destruct (user_defined_totals s !! partition);
        eexists; (split; [reflexivity|]); split; reflexivity.
    + eexists; (split; [reflexivity|]); split; reflexivity.
  - eexists; (split; [reflexivity|]); split; reflexivity.
Qed.




(** ** Derived ratios of the summary *)

(** The line "bytes loaded per byte stored" is written for every set of
    counters, with [stores] as its denominator. *)
Lemma loaded_per_stored_always_written cfg ext partition c :
  In (BYFL_SUMMARY partition
        (Ratio (loads c) (stores c) "bytes loaded per byte stored"))
     (report_totals cfg ext partition c).
Proof.
  unfold report_totals. apply in_map.
  repeat (apply in_or_app; first [ left; solve [left; reflexivity] | right ]).
Qed.

(** C3.  For counters that are all zero, whatever the configuration, the
    collaborators and the partition, [report_totals] writes the line "bytes
    loaded per byte stored" with denominator 0: that line is not guarded. *)
Theorem ratio_line_with_zero_denominator cfg ext partition :
  In (BYFL_SUMMARY partition (Ratio 0 0 "bytes loaded per byte stored"))
     (report_totals cfg ext partition BFC_zero).
Proof. exact (loaded_per_stored_always_written cfg ext partition BFC_zero). Qed.

(** With 100 bytes loaded, 50 stored and 25 flops, the line "bytes per flop"
    is the quotient of 150 and 25. *)
Example bytes_per_flop_line :
  In (BYFL_SUMMARY None (Ratio 150 25 "bytes per flop"))
     (report_totals default_config no_collaborators None
        (BFC 100 50 0 0 0 0 0 0 0 0 0 0 0 0 0 0 0 0 0 0 25 0 0 0 0 0)).
Proof. vm_compute. tauto. Qed.

(** Every other ratio line of [report_totals] is written under a test that
    its denominator is positive. *)
Lemma guarded_ratio_lines cfg ext partition c n d text :
  In (BYFL_SUMMARY partition (Ratio n d text))
     (report_totals cfg ext partition c) ->
  0 < d \/ In text unguarded_ratios.
Proof.
  unfold report_totals. intros H.
  apply in_map_iff in H as (item & Heq & Hin).
  injection Heq as ->.
  repeat match goal with
         | H : In _ (_ ++ _) |- _ => apply in_app_or in H; destruct H as [H|H]
         | H : In _ (if ?b then _ else _) |- _ => destruct b eqn:?
         | H : In _ (_ :: _) |- _ => destruct H as [H|H]
         | H : In _ [] |- _ => destruct H
         | H : _ = Ratio _ _ _ |- _ =>
             first [ discriminate H | injection H as <- <- <- ]
         end;
    first [ left; apply Z.ltb_lt; assumption
          | right; unfold unguarded_ratios; cbn; tauto ].
Qed.

(** ** Partition routing *)

Lemma accumulate_other_zero_l c t cb bb :
  accumulate_other BFC_zero (with_scalars (accumulate c) t cb bb)
  = with_scalars (accumulate c) t cb bb.
Proof.
  unfold accumulate_other, with_scalars, accumulate. cbn.
  f_equal; apply u64_idem.
Qed.

Lemma exec_routed_to cfg tag any o s s' :
  exec cfg o s = Ok tt s' ->
  hook_returns (Some tag) o ->
  routed_to tag any s -> routed_to tag (any || ends_block o) s'.
Proof.
  destruct o; cbn [exec hook_returns ends_block]; intros Hx Hhook Hinv;
    rewrite ?orb_false_r;
    try (invert_call Hx; exact Hinv).
  - unfold bf_accumulate_bb_tallies in Hx.
    destruct (bb_totals s) as [|current_bb rest]; [discriminate|].
    destruct (is_end end_of_basic_block) eqn:He.
    + rewrite (Hhook eq_refl) in Hx. cbn in Hx.
      unfold bf_string_to_symbol in Hx. rewrite orb_true_r.
      destruct any; cbn [routed_to] in Hinv |- *.
      * rewrite Hinv in Hx. rewrite lookup_singleton_eq in Hx.
        injection Hx as <-. cbn. apply insert_singleton_eq.
      * destruct Hinv as [Hu Hg]. rewrite Hu in Hx.
        rewrite lookup_empty in Hx. injection Hx as <-. cbn.
        rewrite Hg, accumulate_other_zero_l. apply insert_empty.
    + injection Hx as <-. rewrite orb_false_r. exact Hinv.
  - apply bf_report_bb_tallies_frame in Hx as (_ & Hg & _ & _ & Hu & _).
    unfold routed_to in *. rewrite Hg, Hu. exact Hinv.
Qed.

Lemma run_routed_to cfg tag : forall tr any s s',
  run cfg tr s = Ok tt s' ->
  Forall (hook_returns (Some tag)) tr ->
  routed_to tag any s -> routed_to tag (any || terminated tr) s'.
Proof.
  induction tr as [|o tr IH]; intros any s s' Hrun Hhook Hinv.
  - injection Hrun as <-. cbn. rewrite orb_false_r. exact Hinv.
  - cbn in Hrun. inversion Hhook as [|? ? Ho Htr]; subst.
    destruct (exec cfg o s) as [[] s1| |] eqn:Hx; cbn in Hrun;
      try discriminate.
    cbn [terminated existsb]. fold (terminated tr). rewrite orb_assoc.
    exact (IH _ s1 s' Hrun Htr (exec_routed_to cfg tag any o s s1 Hx Ho Hinv)).
Qed.

Lemma exec_no_partition cfg o s s' :
  exec cfg o s = Ok tt s' ->
  hook_returns None o ->
  user_defined_totals s = ∅ -> user_defined_totals s' = ∅.
Proof.
  destruct o; cbn [exec hook_returns]; intros Hx Hhook Hinv;
    try (invert_call Hx; exact Hinv).
  - unfold bf_accumulate_bb_tallies in Hx.
    destruct (bb_totals s) as [|current_bb rest]; [discriminate|].
    destruct (is_end end_of_basic_block) eqn:He.
    + rewrite (Hhook eq_refl) in Hx. cbn in Hx.
      injection Hx as <-. exact Hinv.
    + injection Hx as <-. exact Hinv.
  - apply bf_report_bb_tallies_frame in Hx as (_ & _ & _ & _ & Hu & _).
    rewrite Hu. exact Hinv.
Qed.

(** C4.  In every state a run reaches from the start of the program: if the
    categorization hook returned the tag [tag] at every terminating basic
    block, then, once a block has terminated, [tag] is the only partition
    and its counters equal [global_totals], while before that no partition
    exists and the global totals are zero; and a further terminating flush
    adds the counters of its block (the top frame) to [global_totals] and
    leaves partition [tag] equal to the new [global_totals].  If the hook
    returned NULL at every terminating block, no partition exists. *)
Theorem partition_routing cfg env constructed tr tag s :
  run_program cfg env constructed tr = Ok tt s ->
  (Forall (hook_returns (Some tag)) tr ->
     (terminated tr = true ->
        user_defined_totals s = {[ tag := global_totals s ]}) /\
     (terminated tr = false ->
        user_defined_totals s = ∅ /\ global_totals s = BFC_zero) /\
     (forall e s',
        is_end e = true ->
        bf_accumulate_bb_tallies e (Some tag) s = Ok tt s' ->
        exists block rest,
          bb_totals s' = block :: rest /\
          global_totals s' = accumulate_other (global_totals s) block /\
          user_defined_totals s' = {[ tag := global_totals s' ]})) /\
  (Forall (hook_returns None) tr -> user_defined_totals s = ∅).
Proof.
  intros Hrun.
  apply run_program_inv in Hrun as (s0 & _ & Hrun & Hg & Hu & _).
  split; intros Hhook.
  - pose proof (run_routed_to cfg tag tr false s0 s Hrun Hhook
                  (conj Hu Hg)) as Hinv.
    cbn [orb] in Hinv. split; [|split].
    + intros Ht. rewrite Ht in Hinv. exact Hinv.
    + intros Ht. rewrite Ht in Hinv. exact Hinv.
    + intros e s' He Hx.
      pose proof (exec_routed_to cfg tag (terminated tr)
                    (op_accumulate_bb_tallies e (Some tag)) s s' Hx
                    (fun _ => eq_refl) Hinv) as Hinv'.
      cbn [ends_block] in Hinv'. rewrite He, orb_true_r in Hinv'.
      unfold bf_accumulate_bb_tallies in Hx.
      destruct (bb_totals s) as [|current_bb rest]; [discriminate|].
      rewrite He in Hx. cbn in Hx.
      destruct (user_defined_totals s !! bf_string_to_symbol tag);
        injection Hx as <-; do 2 eexists;
        (split; [reflexivity|]); (split; [reflexivity|]); exact Hinv'.
  - exact (run_invariant cfg _ (fun s => user_defined_totals s = ∅)
             (exec_no_partition cfg) tr s0 s Hrun Hhook Hu).
Qed.

Lemma partition_routing_witness :
  user_defined_totals (final_state default_config (two_blocks (Some "A")))
  = {[ "A" :=
         global_totals
           (final_state default_config (two_blocks (Some "A"))) ]} /\
  loads <$> (user_defined_totals
               (final_state default_config (two_blocks (Some "A")))
             !! "A") = Some 12 /\
  user_defined_totals (final_state default_config (two_blocks None)) = ∅.
Proof.
  split; [|split].
  - apply (proj1 (proj1 (partition_routing default_config empty_env true
                           (two_blocks (Some "A")) "A"
                           (final_state default_config
                              (two_blocks (Some "A")))
                           ltac:(vm_compute; reflexivity))
                    ltac:(repeat constructor; intros _; reflexivity))).
    reflexivity.
  - rewrite (proj1 (proj1 (partition_routing default_config empty_env true
                             (two_blocks (Some "A")) "A"
                             (final_state default_config
                                (two_blocks (Some "A")))
                             ltac:(vm_compute; reflexivity))
                      ltac:(repeat constructor; intros _; reflexivity))
               eq_refl).
    rewrite lookup_singleton_eq. vm_compute. reflexivity.
  - apply (proj2 (partition_routing default_config empty_env true
                    (two_blocks None) "A"
                    (final_state default_config (two_blocks None))
                    ltac:(vm_compute; reflexivity))).
    repeat constructor; intros _; reflexivity.
Defined.

(** On a run of two blocks both tagged "A", partition "A" holds the 12
    bytes and 2 blocks of the global totals. *)
Example partition_A_equals_global :
  let s := final_state default_config (two_blocks (Some "A")) in
  user_defined_totals s !! "A" = Some (global_totals s) /\
  loads (global_totals s) = 12 /\ b_blocks (global_totals s) = 2.
Proof.
  cbv zeta. split; [vm_compute; reflexivity|].
  split; vm_compute; reflexivity.
Qed.

(** ** Call-stack attribution keys *)

(** C5.  Pushing [f1], then [f2], then [f3] onto the empty call stack of a
    new [CallStack] returns, at the third push, the key made of [f3], [f2]
    and [f1] separated by single spaces; one pop then returns the key of
    [f2] and [f1] (the symbol pushed for [f2]); the next pop returns [f1];
    popping the last entry returns the marker [[EMPTY]], a string
    literal. *)
Theorem call_stack_attribution_key (f1 f2 f3 : string) :
  let cs0 := {| complete_call_stack := []; max_depth := 0 |} in
  let cs1 := snd (push_function f1 cs0) in
  let cs2 := snd (push_function f2 cs1) in
  let cs3 := snd (push_function f3 cs2) in
  fst (push_function f1 cs0) = f1 /\
  fst (push_function f2 cs1) = f2 +:+ " " +:+ f1 /\
  fst (push_function f3 cs2) = f3 +:+ " " +:+ f2 +:+ " " +:+ f1 /\
  exists cs2' cs1' cs0',
    pop_function cs3 = Some (Symbol (f2 +:+ " " +:+ f1), cs2') /\
    pop_function cs2' = Some (Symbol f1, cs1') /\
    pop_function cs1' = Some (Literal "[EMPTY]", cs0') /\
    complete_call_stack cs0' = [].
Proof.
  cbn. repeat split.
  do 3 eexists. repeat split.
Qed.

Example push_f1_f2_f3 :
  let cs0 := {| complete_call_stack := []; max_depth := 0 |} in
  let cs1 := snd (push_function "f1" cs0) in
  let cs2 := snd (push_function "f2" cs1) in
  fst (push_function "f3" cs2) = "f3 f2 f1" /\
  option_map fst (pop_function (snd (push_function "f3" cs2)))
  = Some (Symbol "f2 f1").
Proof. split; reflexivity. Qed.

Lemma push_function_stack f cs :
  complete_call_stack (snd (push_function f cs))
  = combined_key f (complete_call_stack cs) :: complete_call_stack cs /\
  fst (push_function f cs) = combined_key f (complete_call_stack cs).
Proof.
  unfold push_function, combined_key, bf_string_to_symbol.
  destruct (complete_call_stack cs); split; reflexivity.
Qed.

(** Through the entry point, [bf_func_and_parents] becomes the key returned
    by [push_function]. *)
Lemma bf_push_function_key f s :
  exists s', bf_push_function f s = Ok tt s' /\
    bf_func_and_parents s' = Symbol (fst (push_function f (call_stack s))) /\
    call_stack s' = snd (push_function f (call_stack s)).
Proof.
  unfold bf_push_function.
  destruct (push_function f (call_stack s)) as [k cs].
  eexists. split; [reflexivity|]. split; reflexivity.
Qed.

(** With call-stack attribution enabled, the counters of [f3] are filed
    under the combined key, and the pop makes the caller's key current. *)
Example assoc_under_combined_key :
  let s := final_state call_stack_config attributed_run in
  loads <$> per_func_totals s !! Symbol "f3 f2 f1" = Some 4 /\
  per_func_totals s !! Symbol "f3" = None /\
  bf_func_and_parents s = Symbol "f2 f1".
Proof. cbv zeta. repeat split; vm_compute; reflexivity. Qed.

(** ** Invocation tallies *)

Lemma tally_of_tally_add k' d m k :
  tally_of (tally_add k' d m) k
  = if String.eqb k' k then u64 (tally_of m k' + d) else tally_of m k.
Proof.
  unfold tally_add, tally_of at 1.
  destruct (String.eqb_spec k' k) as [->|Hne].
  - rewrite lookup_insert_eq. reflexivity.
  - rewrite lookup_insert_ne by exact Hne. reflexivity.
Qed.

(** [bf_push_function] leaves an entry both for the combined key and for
    the bare name. *)
Lemma bf_push_function_entries f s :
  exists s', bf_push_function f s = Ok tt s' /\
    (exists key, bf_func_and_parents s' = Symbol key /\
       is_Some (func_call_tallies s' !! key)) /\
    is_Some (func_call_tallies s' !! f).
Proof.
  unfold bf_push_function.
  destruct (push_function f (call_stack s)) as [key cs].
  eexists. split; [reflexivity|]. cbn. unfold bf_string_to_symbol, tally_add.
  split.
  - exists key. split; [reflexivity|].
    destruct (decide (f = key)) as [->|Hne].
    + rewrite lookup_insert_eq. eauto.
    + rewrite lookup_insert_ne, lookup_insert_eq by exact Hne. eauto.
  - rewrite lookup_insert_eq. eauto.
Qed.

(** One event: the tally under [k] grows by what [counts_under] says, and
    the call stack moves as [stack_after] says. *)
Lemma exec_tally cfg k o s s' n :
  exec cfg o s = Ok tt s' ->
  tally_of (func_call_tallies s) k = u64 n ->
  tally_of (func_call_tallies s') k
  = u64 (n + Z.of_nat
               (counts_under k (complete_call_stack (call_stack s)) o)) /\
  complete_call_stack (call_stack s')
  = stack_after o (complete_call_stack (call_stack s)).
Proof.
  intros Hx Hn.
  assert (Hsame : tally_of (func_call_tallies s) k = u64 (n + Z.of_nat 0)).
  { rewrite Hn. f_equal. lia. }
  destruct o; cbn [exec counts_under stack_after] in *.
  - injection Hx as <-. split; [exact Hsame | reflexivity].
  - injection Hx as <-. split; [exact Hsame | reflexivity].
  - unfold bf_push_basic_block in Hx.
    destruct (allocate (freelist s)). injection Hx as <-.
    split; [exact Hsame | reflexivity].
  - unfold bf_pop_basic_block in Hx.
    destruct (bb_totals s); [discriminate|]. injection Hx as <-.
    split; [exact Hsame | reflexivity].
  - unfold bf_accumulate_bb_tallies in Hx.
    destruct (bb_totals s); [discriminate|].
    destruct (is_end end_of_basic_block).
    + destruct (bf_string_to_symbol_ptr categorize) as [partition|].
      * cbn in Hx. destruct (user_defined_totals s !! partition);
          injection Hx as <-; split; [exact Hsame | reflexivity
                                     | exact Hsame | reflexivity].
      * injection Hx as <-. split; [exact Hsame | reflexivity].
    + injection Hx as <-. split; [exact Hsame | reflexivity].
  - unfold bf_reset_bb_tallies in Hx.
    destruct (bb_totals s); [discriminate|]. injection Hx as <-.
    split; [exact Hsame | reflexivity].
  - apply bf_report_bb_tallies_frame in Hx as (_ & _ & _ & Hf & _ & _ & Hc).
    rewrite Hf, Hc. split; [exact Hsame | reflexivity].
  - unfold bf_assoc_counters_with_func in Hx.
    destruct (per_func_totals s !! _); injection Hx as <-;
      split; [exact Hsame | reflexivity | exact Hsame | reflexivity].
  - injection Hx as <-. cbn. unfold bf_string_to_symbol.
    rewrite tally_of_tally_add. split; [|reflexivity].
    destruct (String.eqb_spec funcname k) as [->|Hne].
    + rewrite Hn, u64_add_l. reflexivity.
    + exact Hsame.
  - unfold bf_push_function in Hx.
    destruct (push_function_stack funcname (call_stack s)) as [Hst Hkey].
    destruct (push_function funcname (call_stack s)) as [key cs].
    cbn in Hst, Hkey. injection Hx as <-. cbn. unfold bf_string_to_symbol.
    split; [|exact Hst]. rewrite Hkey.
    rewrite !tally_of_tally_add.
    set (ck := combined_key funcname (complete_call_stack (call_stack s))).
    destruct (String.eqb_spec funcname k) as [->|Hf].
    + destruct (String.eqb_spec ck k) as [->|Hk].
      * rewrite Z.add_0_r, u64_idem, Hn, u64_add_l. reflexivity.
      * rewrite Z.add_0_r, Hn, u64_idem. exact (eq_trans (eq_sym Hn) Hsame).
    + destruct (String.eqb_spec ck k) as [->|Hk].
      * rewrite Hn, u64_add_l. reflexivity.
      * exact Hsame.
  - unfold bf_pop_function, pop_function in Hx.
    destruct (complete_call_stack (call_stack s)); [discriminate|].
    injection Hx as <-. split; [exact Hsame | reflexivity].
Qed.

Lemma run_tally cfg k : forall tr s s' n,
  run cfg tr s = Ok tt s' ->
  tally_of (func_call_tallies s) k = u64 n ->
  tally_of (func_call_tallies s') k
  = u64 (n + Z.of_nat (bumps k (complete_call_stack (call_stack s)) tr)).
Proof.
  induction tr as [|o tr IH]; intros s s' n Hrun Hn.
  - injection Hrun as <-. rewrite Hn. f_equal. cbn. lia.
  - cbn in Hrun.
    destruct (exec cfg o s) as [[] s1| |] eqn:Hx; cbn in Hrun;
      try discriminate.
    destruct (exec_tally cfg k o s s1 n Hx Hn) as [Ht Hst].
    rewrite (IH s1 s' _ Hrun Ht), Hst. f_equal. cbn [bumps]. lia.
Qed.

(** C6, as the code has it.  In every state a run reaches from the start of
    the program, whatever the configuration flags: the tally recorded under
    a key [k] equals, modulo 2^64, the number of [bf_push_function] calls
    whose combined key (the function followed by its live ancestors) is [k]
    plus the number of [bf_incr_func_tally(k)] calls; any further event
    leaves that tally unchanged or adds one to it modulo 2^64; and
    [bf_incr_func_tally(k)] adds exactly one modulo 2^64 to the tally of [k]
    and changes no other tally. *)
Theorem invocation_tallies cfg env constructed tr k s :
  run_program cfg env constructed tr = Ok tt s ->
  tally_of (func_call_tallies s) k = u64 (Z.of_nat (bumps k [] tr)) /\
  (forall o s', exec cfg o s = Ok tt s' ->
     tally_of (func_call_tallies s') k = tally_of (func_call_tallies s) k \/
     tally_of (func_call_tallies s') k
     = u64 (tally_of (func_call_tallies s) k + 1)) /\
  (exists s', bf_incr_func_tally k s = Ok tt s' /\
     tally_of (func_call_tallies s') k
     = u64 (tally_of (func_call_tallies s) k + 1) /\
     forall k', k' <> k ->
       tally_of (func_call_tallies s') k' = tally_of (func_call_tallies s) k').
Proof.
  intros Hrun.
  apply run_program_inv in Hrun as (s0 & _ & Hrun & _ & _ & Hf & Hc & _).
  assert (H0 : tally_of (func_call_tallies s0) k = u64 0).
  { rewrite Hf. reflexivity. }
  pose proof (run_tally cfg k tr s0 s 0 Hrun H0) as Hcount.
  rewrite Hc, Z.add_0_l in Hcount.
  split; [exact Hcount|]. split.
  - intros o s' Hx.
    destruct (exec_tally cfg k o s s' _ Hx Hcount) as [Ht _].
    rewrite Ht, Hcount.
    destruct o; cbn [counts_under]; try (left; f_equal; lia).
    + destruct (String.eqb funcname k); [right|left; f_equal; lia].
      rewrite u64_add_l. reflexivity.
    + destruct (String.eqb _ k); [right|left; f_equal; lia].
      rewrite u64_add_l. reflexivity.
  - eexists. split; [reflexivity|]. cbn. unfold bf_string_to_symbol. split.
    + rewrite tally_of_tally_add, String.eqb_refl. reflexivity.
    + intros k' Hne. rewrite tally_of_tally_add.
      destruct (String.eqb_spec k k') as [->|_]; [contradiction|reflexivity].
Qed.

Lemma invocation_tallies_witness :
  tally_of (func_call_tallies (final_state default_config main_calls_f))
    "f main"
  = u64 (Z.of_nat (bumps "f main" [] main_calls_f)).
Proof.
  exact (proj1 (invocation_tallies default_config empty_env true
                  main_calls_f "f main"
                  (final_state default_config main_calls_f)
                  ltac:(vm_compute; reflexivity))).
Defined.

(** C6 as stated fails: when [main] calls [f], [bf_push_function("f")] has
    been called once, yet the tally recorded for [f] is 0; the call was
    counted under the combined key. *)
Lemma push_counts_under_combined_key :
  exists s,
    run_program default_config empty_env true main_calls_f = Ok tt s /\
    count_push_calls "f" main_calls_f = 1%nat /\
    tally_of (func_call_tallies s) "f" = 0 /\
    tally_of (func_call_tallies s) "f"
    <> Z.of_nat (count_push_calls "f" main_calls_f) /\
    tally_of (func_call_tallies s) "f main" = 1.
Proof.
  eexists. split; [vm_compute; reflexivity|].
  split; [reflexivity|]. split; [reflexivity|].
  split; [vm_compute; discriminate | reflexivity].
Qed.

(** ** Fallback of the end-of-program report *)

Lemma global_totals_print_all ls s :
  global_totals (print_all ls s) = global_totals s.
Proof. reflexivity. Qed.

Lemma fallback_b_blocks_zero s :
  b_blocks (global_totals s) = 0 ->
  global_totals (reconstruct_from_per_func (fold_live_scalars s))
  = set_b_blocks_cond_brs_zero
      (sum_per_func_totals (per_func_totals s)
         (with_scalars (accumulate (global_totals s)) (scalars s) 0 0)).
Proof.
  intros Hb. unfold reconstruct_from_per_func, fold_live_scalars.
  rewrite Hb. cbn. unfold with_scalars at 1. cbn. rewrite Hb. reflexivity.
Qed.

Lemma fallback_b_blocks_nonzero s :
  b_blocks (global_totals s) <> 0 ->
  reconstruct_from_per_func (fold_live_scalars s) = s.
Proof.
  intros Hb. unfold reconstruct_from_per_func, fold_live_scalars.
  apply Z.eqb_neq in Hb. rewrite Hb, Hb. reflexivity.
Qed.

(** [report_by_function] writes lines and makes entries of
    [func_call_tallies]; it touches nothing else. *)
Lemma report_funcs_frame cfg ext names : forall s s',
  report_funcs cfg ext names s = Ok tt s' ->
  scalars s' = scalars s /\
  global_totals s' = global_totals s /\
  per_func_totals s' = per_func_totals s /\
  user_defined_totals s' = user_defined_totals s /\
  call_stack s' = call_stack s.
Proof.
  induction names as [|funcname names IH]; intros s s' Hx; cbn in Hx.
  - injection Hx as <-. repeat split.
  - destruct (per_func_totals s !! Symbol (bf_string_to_symbol funcname));
      [|discriminate].
    apply IH in Hx. exact Hx.
Qed.

Lemma report_by_function_frame cfg ext s s' :
  report_by_function cfg ext s = Ok tt s' ->
  scalars s' = scalars s /\
  global_totals s' = global_totals s /\
  per_func_totals s' = per_func_totals s /\
  user_defined_totals s' = user_defined_totals s /\
  call_stack s' = call_stack s.
Proof.
  unfold report_by_function. cbn [per_func_totals print set_cout].
  destruct (sorted_key_texts (per_func_totals s)) as [names|];
    [|discriminate].
  destruct (report_funcs cfg ext names _) as [[] s1| |] eqn:Hf; cbn [bind];
    try discriminate.
  intros [= <-]. apply report_funcs_frame in Hf. exact Hf.
Qed.

(** What the destructor does to [global_totals] when output is not
    suppressed and it returns.  It tests [global_totals.b_blocks] twice.  If
    it is zero, the live scalars are added to [global_totals] (with 0 for
    the branch and block counts); [b_blocks] is then still zero, so the
    counters of every entry of [per_func_totals] are added as well, whether
    or not the first step left other fields non-zero, and [b_blocks] and
    [cond_brs] are set to zero.  If it is not zero, [global_totals] is left
    as it is. *)
Lemma fallback_reconstruction cfg ext s s1 s' :
  suppress_output s = Ok false s1 ->
  RunAtEndOfProgram_destructor cfg ext s = Ok tt s' ->
  (b_blocks (global_totals s) = 0 ->
     global_totals s'
     = set_b_blocks_cond_brs_zero
         (sum_per_func_totals (per_func_totals s)
            (with_scalars (accumulate (global_totals s)) (scalars s) 0 0)))
  /\
  (b_blocks (global_totals s) <> 0 -> global_totals s' = global_totals s).
Proof.
  intros Hs. unfold RunAtEndOfProgram_destructor. rewrite Hs. cbn [bind].
  apply suppress_output_Ok in Hs as [o ->].
  set (s0 := set_output o s).
  assert (Hframe : forall s2,
            (if bf_per_func cfg then report_by_function cfg ext s0
             else Ok tt s0) = Ok tt s2 ->
            scalars s2 = scalars s /\ global_totals s2 = global_totals s /\
            per_func_totals s2 = per_func_totals s).
  { intros s2 H2. destruct (bf_per_func cfg).
    - apply report_by_function_frame in H2 as (H1 & H3 & H4 & _).
      repeat split; assumption.
    - injection H2 as <-. repeat split. }
  destruct (if bf_per_func cfg then _ else _) as [[] s2| |]; cbn [bind];
    try discriminate.
  destruct (Hframe s2 eq_refl) as (Hsc & Hg & Hp).
  intros [= <-]. rewrite !global_totals_print_all.
  set (s3 := if bf_vectors cfg then _ else s2).
  assert (H3 : scalars s3 = scalars s /\ global_totals s3 = global_totals s /\
               per_func_totals s3 = per_func_totals s).
  { subst s3. destruct (bf_vectors cfg); repeat split; assumption. }
  destruct H3 as (Hsc3 & Hg3 & Hp3).
  split; intros Hb.
  - rewrite <- Hg3 in Hb. rewrite (fallback_b_blocks_zero s3 Hb).
    rewrite Hsc3, Hg3, Hp3. reflexivity.
  - rewrite <- Hg3 in Hb. rewrite (fallback_b_blocks_nonzero s3 Hb).
    exact Hg3.
Qed.

(** C7.  The second step of the fallback runs although [global_totals] is
    not empty.  On [per_func_run], with per-function reporting enabled and
    output shown, [b_blocks] is zero and the first step makes
    [global_totals] non-empty (the 5 bytes loaded last); the destructor
    nevertheless adds the counters of the record of [f] (7 bytes): the
    totals reported hold 12 bytes.  The second test is on [b_blocks] alone,
    where the comment of the source has "if the global counter totals are
    empty".  On [unzeroed_run], where the 7 bytes associated with [f] are
    still in the scalars at the end, both steps add them: the totals
    reported hold 14 bytes for 7 bytes loaded. *)
Theorem reconstruction_runs_on_nonempty_totals :
  let s := final_state per_func_config per_func_run in
  let u := final_state per_func_config unzeroed_run in
  b_blocks (global_totals s) = 0 /\
  global_totals (fold_live_scalars s) <> BFC_zero /\
  loads (global_totals (fold_live_scalars s)) = 5 /\
  (exists s',
     RunAtEndOfProgram_destructor per_func_config no_collaborators s
       = Ok tt s' /\
     loads (global_totals s') = 12 /\
     global_totals s' <> global_totals (fold_live_scalars s)) /\
  bf_load_count (scalars u) = 7 /\
  loads (global_totals (fold_live_scalars u)) = 7 /\
  exists u',
    RunAtEndOfProgram_destructor per_func_config no_collaborators u
      = Ok tt u' /\
    loads (global_totals u') = 14.
Proof.
  cbv zeta. split; [reflexivity|].
  split; [vm_compute; discriminate|].
  split; [vm_compute; reflexivity|].
  split.
  - eexists. split; [vm_compute; reflexivity|].
    split; [reflexivity | vm_compute; discriminate].
  - split; [reflexivity|]. split; [vm_compute; reflexivity|].
    eexists. split; [vm_compute; reflexivity|]. reflexivity.
Qed.

(** ** Greatest depth of the call stack *)

(** On a call stack that is not empty, [push_function] raises [max_depth]
    only when the new depth exceeds it, and [pop_function] leaves it. *)
Lemma push_function_max_depth_nonempty f cs top rest :
  complete_call_stack cs = top :: rest ->
  max_depth (snd (push_function f cs))
  = Z.max (max_depth cs) (Z.of_nat (length (complete_call_stack cs)) + 1).
Proof.
  intros Hs. unfold push_function. rewrite Hs. cbn [snd max_depth].
  destruct (Z.ltb_spec (max_depth cs) (Z.of_nat (length (top :: rest)) + 1));
    lia.
Qed.

Lemma push_function_max_depth_empty f cs :
  complete_call_stack cs = [] ->
  max_depth (snd (push_function f cs)) = 1.
Proof. intros Hs. unfold push_function. rewrite Hs. reflexivity. Qed.

Lemma pop_function_max_depth cs top cs' :
  pop_function cs = Some (top, cs') -> max_depth cs' = max_depth cs.
Proof.
  unfold pop_function. destruct (complete_call_stack cs); [discriminate|].
  intros [= _ <-]. reflexivity.
Qed.

(** C8.  Pushing two functions, popping both and pushing one more leaves
    [max_depth] at 1, although the stack has been two deep: the branch of
    [push_function] for an empty stack stores 1 without comparing. *)
Theorem max_depth_reset_on_empty_stack cfg env constructed :
  let tr := [op_push_function "a"; op_push_function "b";
             op_pop_function; op_pop_function; op_push_function "c"] in
  exists s, run_program cfg env constructed tr = Ok tt s /\
            max_depth (call_stack s) = 1 /\
            deepest 0 0 tr = 2%nat.
Proof.
  eexists. split; [vm_compute; reflexivity|]. split; reflexivity.
Qed.

(** ** Output suppression *)

Lemma find_first_of_None c str :
  ~ occurs c str -> find_first_of str c = None.
Proof.
  induction str as [|a rest IH]; cbn [find_first_of occurs]; intros Hno;
    [reflexivity|].
  destruct (Ascii.eqb_spec a c) as [->|Hne]; [tauto|].
  rewrite IH by tauto. reflexivity.
Qed.

Lemma find_first_of_split c var value :
  ~ occurs c var ->
  find_first_of (var +:+ String c value) c = Some (String.length var) /\
  substr_to (String.length var) (var +:+ String c value) = var /\
  substr_from (S (String.length var)) (var +:+ String c value) = value.
Proof.
  unfold substr_to.
  induction var as [|a rest IH]; intros Hno.
  - change (EmptyString +:+ String c value) with (String c value).
    cbn [find_first_of String.length substring substr_from].
    rewrite Ascii.eqb_refl. repeat split.
  - change (String a rest +:+ String c value)
      with (String a (rest +:+ String c value)).
    cbn [find_first_of String.length substring substr_from occurs] in *.
    destruct (Ascii.eqb_spec a c) as [->|Hne]; [tauto|].
    destruct IH as (Hf & Hto & Hfrom); [tauto|].
    rewrite Hf, Hto. repeat split. exact Hfrom.
Qed.

(** C9, as the code has it.  Before the constructors of the file have run,
    every output attempt is suppressed and the environment is not read.
    After that, an attempt made when a decision has been taken repeats it;
    at the first attempt (nothing decided yet): with BYFL_OUTPUT_IF unset,
    output is shown; with a value without '=', the attempt prints the
    diagnostic on [cerr] and exits with status 1, and so do
    [bf_report_bb_tallies] and the end-of-program report, with nothing
    written to [cout]; with a value VAR=VALUE (VAR without '='), output is
    shown when the variable VAR has the value VALUE, an unset VAR counting
    as the empty string, and suppressed otherwise. *)
Theorem output_suppression s :
  (all_constructors_called s = false -> suppress_output s = Ok true s) /\
  (all_constructors_called s = true -> output s <> UNKNOWN ->
   suppress_output s = Ok (is_SUPPRESS (output s)) s) /\
  (all_constructors_called s = true -> output s = UNKNOWN ->
   (getenv s "BYFL_OUTPUT_IF" = None ->
      suppress_output s = Ok false (set_output SHOW s)) /\
   (forall value,
      getenv s "BYFL_OUTPUT_IF" = Some value -> ~ occurs "=" value ->
      let s' := set_cerr (parse_failure value :: cerr s) s in
      cout s' = cout s /\
      suppress_output s = Exited 1 s' /\
      forall cfg ext,
        bf_report_bb_tallies cfg s = Exited 1 s' /\
        RunAtEndOfProgram_destructor cfg ext s = Exited 1 s') /\
   (forall var value,
      getenv s "BYFL_OUTPUT_IF" = Some (var +:+ "=" +:+ value) ->
      ~ occurs "=" var ->
      let actual_value := default EmptyString (getenv s var) in
      (value = actual_value ->
         suppress_output s = Ok false (set_output SHOW s)) /\
      (value <> actual_value ->
         suppress_output s = Ok true (set_output SUPPRESS s)))).
Proof.
  split; [|split; [|intros Hc Ho; split; [|split]]].
  - intros Hc. unfold suppress_output. rewrite Hc. reflexivity.
  - intros Hc Ho. unfold suppress_output. rewrite Hc.
    destruct (output s); [contradiction|reflexivity|reflexivity].
  - intros He. unfold suppress_output. rewrite Hc, Ho, He. reflexivity.
  - intros value He Hno s'.
    assert (Hs : suppress_output s = Exited 1 s').
    { unfold suppress_output.
      rewrite Hc, Ho, He, (find_first_of_None _ _ Hno). reflexivity. }
    split; [reflexivity|]. split; [exact Hs|].
    intros cfg ext.
    unfold bf_report_bb_tallies, RunAtEndOfProgram_destructor.
    rewrite Hs. split; reflexivity.
  - intros var value He Hno actual_value.
    destruct (find_first_of_split "=" var value Hno) as (Hf & Hto & Hfrom).
    unfold suppress_output. rewrite Hc, Ho, He. cbn [negb].
    change (var +:+ "=" +:+ value) with (var +:+ String "=" value).
    rewrite Hf, Hto, Hfrom.
    fold actual_value.
    change (match getenv s var with
            | Some value0 => value0
            | None => EmptyString
            end) with actual_value.
    split; intros Hv.
    + apply String.eqb_eq in Hv. rewrite Hv. reflexivity.
    + apply String.eqb_neq in Hv. rewrite Hv. reflexivity.
Qed.

Lemma output_suppression_witness :
  suppress_output (static_state empty_env false)
    = Ok true (static_state empty_env false) /\
  suppress_output (set_output SHOW (static_state (env_with "RANK=1") true))
    = Ok false (set_output SHOW (static_state (env_with "RANK=1") true)) /\
  suppress_output (static_state empty_env true)
    = Ok false (set_output SHOW (static_state empty_env true)) /\
  suppress_output (static_state (env_with "RANK0") true)
    = Exited 1
        (set_cerr [parse_failure "RANK0"]
           (static_state (env_with "RANK0") true)) /\
  suppress_output (static_state (env_with "RANK=0") true)
    = Ok false (set_output SHOW (static_state (env_with "RANK=0") true)) /\
  suppress_output (static_state (env_with "RANK=1") true)
    = Ok true (set_output SUPPRESS (static_state (env_with "RANK=1") true)).
Proof.
  split.
  { exact (proj1 (output_suppression (static_state empty_env false))
             eq_refl). }
  split.
  { refine (proj1 (proj2 (output_suppression
                     (set_output SHOW
                        (static_state (env_with "RANK=1") true))))
              eq_refl _).
    discriminate. }
  split.
  { exact (proj1 (proj2 (proj2 (output_suppression
                                  (static_state empty_env true)))
                    eq_refl eq_refl)
             ltac:(vm_compute; reflexivity)). }
  split.
  { refine (proj1 (proj2
              (proj1 (proj2
                 (proj2 (proj2 (output_suppression
                                  (static_state (env_with "RANK0") true)))
                    eq_refl eq_refl))
                 "RANK0" ltac:(vm_compute; reflexivity) _))).
    cbn. intros H. repeat destruct H as [H|H]; try discriminate H; exact H. }
  split.
  { refine (proj1 (proj2
              (proj2 (proj2 (proj2 (output_suppression
                                      (static_state (env_with "RANK=0")
                                         true)))
                        eq_refl eq_refl))
              "RANK" "0" ltac:(vm_compute; reflexivity) _) _).
    - cbn. intros H.
      repeat destruct H as [H|H]; try discriminate H; exact H.
    - vm_compute. reflexivity. }
  { refine (proj2 (proj2
              (proj2 (proj2 (proj2 (output_suppression
                                      (static_state (env_with "RANK=1")
                                         true)))
                        eq_refl eq_refl))
              "RANK" "1" ltac:(vm_compute; reflexivity) _) _).
    - cbn. intros H.
      repeat destruct H as [H|H]; try discriminate H; exact H.
    - vm_compute. discriminate. }
Defined.

(** C9 as stated fails: called before the constructors of the file have
    run, [suppress_output] suppresses the output although BYFL_OUTPUT_IF is
    unset, and does not exit although BYFL_OUTPUT_IF has no '='. *)
Lemma suppressed_before_construction :
  getenv (static_state empty_env false) "BYFL_OUTPUT_IF" = None /\
  suppress_output (static_state empty_env false)
    = Ok true (static_state empty_env false) /\
  getenv (static_state (env_with "RANK0") false) "BYFL_OUTPUT_IF"
    = Some "RANK0" /\
  suppress_output (static_state (env_with "RANK0") false)
    = Ok true (static_state (env_with "RANK0") false).
Proof.
  split; [vm_compute; reflexivity|]. split; [reflexivity|].
  split; [vm_compute; reflexivity|]. reflexivity.
Qed.

(** ** Stack discipline *)

Lemma flush_stacks e categorize s top rest :
  bb_totals s = top :: rest ->
  exists s' top',
    bf_accumulate_bb_tallies e categorize s = Ok tt s' /\
    bb_totals s' = top' :: rest /\
    call_stack s' = call_stack s.
Proof.
  intros Hbb. unfold bf_accumulate_bb_tallies. rewrite Hbb.
  destruct (is_end e); cbn.
  - destruct (bf_string_to_symbol_ptr categorize) as [partition|]; cbn.
    + destruct (user_defined_totals s !! partition);
        do 2 eexists; (split; [reflexivity|]); split; reflexivity.
    + do 2 eexists; (split; [reflexivity|]); split; reflexivity.
  - do 2 eexists; (split; [reflexivity|]); split; reflexivity.
Qed.

Lemma run_well_matched cfg : forall tr bb fn s,
  well_matched bb fn tr = true ->
  length (bb_totals s) = S bb ->
  length (complete_call_stack (call_stack s)) = fn ->
  run cfg tr s <> Undefined.
Proof.
  induction tr as [|o tr IH]; intros bb fn s Hm Hbb Hfn; cbn [run];
    [discriminate|].
  destruct o; cbn [well_matched exec] in *.
  - cbn [bind]. apply (IH bb fn); assumption.
  - cbn [bind]. apply (IH bb fn); assumption.
  - unfold bf_push_basic_block. destruct (allocate (freelist s)).
    cbn [bind]. apply (IH (S bb) fn); [assumption| |assumption].
    cbn. rewrite Hbb. reflexivity.
  - destruct bb as [|bb]; [discriminate|].
    unfold bf_pop_basic_block.
    destruct (bb_totals s) as [|top rest]; [discriminate|].
    cbn [bind]. apply (IH bb fn); [assumption| |assumption].
    cbn in *. lia.
  - destruct (bb_totals s) as [|top rest] eqn:Hs; [discriminate|].
    destruct (flush_stacks end_of_basic_block categorize s top rest Hs)
      as (s' & top' & Hx & Hb' & Hc').
    rewrite Hx. cbn [bind]. apply (IH bb fn); [assumption| |].
    + rewrite Hb'. exact Hbb.
    + rewrite Hc'. exact Hfn.
  - unfold bf_reset_bb_tallies.
    destruct (bb_totals s) as [|top rest] eqn:Hs; [discriminate|].
    cbn [bind]. apply (IH bb fn); assumption.
  - pose proof (bf_report_bb_tallies_defined cfg s) as Hd.
    destruct (bf_report_bb_tallies cfg s) as [[] s1| |] eqn:Hx;
      cbn [bind]; [|discriminate|tauto].
    apply bf_report_bb_tallies_frame in Hx as (_ & _ & _ & _ & _ & Hb & Hc).
    apply (IH bb fn); [assumption| |].
    + rewrite Hb. exact Hbb.
    + rewrite Hc. exact Hfn.
  - unfold bf_assoc_counters_with_func.
    destruct (per_func_totals s !! _); cbn [bind];
      apply (IH bb fn); assumption.
  - cbn [bf_incr_func_tally bind]. apply (IH bb fn); assumption.
  - unfold bf_push_function.
    destruct (push_function_stack funcname (call_stack s)) as [Hst _].
    destruct (push_function funcname (call_stack s)) as [key cs].
    cbn [bind]. apply (IH bb (S fn)); [assumption|assumption|].
    cbn in *. rewrite Hst. cbn. rewrite Hfn. reflexivity.
  - destruct fn as [|fn]; [discriminate|].
    unfold bf_pop_function, pop_function.
    destruct (complete_call_stack (call_stack s)) as [|top rest];
      [discriminate|].
    cbn [bind]. apply (IH bb fn); [assumption|assumption|].
    cbn in *. lia.
Qed.

(** C10.  Popping a basic-block frame, flushing into the top frame and
    resetting the top frame are undefined on an empty basic-block stack, and
    popping a function name is undefined on an empty call stack; a run from
    the start of the program in which every pop is preceded by a matching
    push never reaches one of these undefined accesses. *)
Theorem stack_discipline cfg env constructed tr :
  (forall s e categorize,
     bb_totals s = [] ->
     bf_pop_basic_block s = Undefined /\
     bf_accumulate_bb_tallies e categorize s = Undefined /\
     bf_reset_bb_tallies s = Undefined) /\
  (forall s,
     complete_call_stack (call_stack s) = [] ->
     bf_pop_function s = Undefined) /\
  (well_matched 0 0 tr = true ->
   run_program cfg env constructed tr <> Undefined).
Proof.
  split; [|split].
  - intros s e categorize Hs.
    unfold bf_pop_basic_block, bf_accumulate_bb_tallies, bf_reset_bb_tallies.
    rewrite Hs. repeat split.
  - intros s Hs. unfold bf_pop_function, pop_function. rewrite Hs.
    reflexivity.
  - intros Hm. unfold run_program, start, initialize_byfl.
    cbn [bf_push_basic_block allocate freelist set_freelist bind].
    apply (run_well_matched cfg tr 0 0); [exact Hm| |]; reflexivity.
Qed.

Lemma stack_discipline_witness :
  (bf_pop_basic_block (static_state empty_env true) = Undefined /\
   bf_accumulate_bb_tallies BB_END_COND None (static_state empty_env true)
     = Undefined /\
   bf_reset_bb_tallies (static_state empty_env true) = Undefined) /\
  bf_pop_function started_state = Undefined /\
  run_program default_config empty_env true nested_call <> Undefined.
Proof.
  split.
  { exact (proj1 (stack_discipline default_config empty_env true nested_call)
             (static_state empty_env true) BB_END_COND None eq_refl). }
  split.
  { exact (proj1 (proj2 (stack_discipline default_config empty_env true
                           nested_call))
             started_state eq_refl). }
  exact (proj2 (proj2 (stack_discipline default_config empty_env true
                         nested_call))
           eq_refl).
Defined.

(** A pop without a matching push removes the frame of [initialize_byfl];
    the next flush is then undefined. *)
Example unmatched_pop_is_undefined :
  well_matched 0 0
    [op_pop_basic_block; op_accumulate_bb_tallies BB_NOT_END None] = false /\
  run_program default_config empty_env true
    [op_pop_basic_block; op_accumulate_bb_tallies BB_NOT_END None]
  = Undefined.
Proof. split; reflexivity. Qed.

(** * Further properties of the library *)

(** ** Counters *)

Lemma u64_add_sub a b : u64 (0 + a) = a -> u64 (u64 (a + b) - b) = a.
Proof.
  unfold u64. intros Ha. rewrite Zminus_mod_idemp_l.
  replace (a + b - b) with (0 + a) by lia. exact Ha.
Qed.

(** X1.  [a.accumulate(&b)] followed by [a.difference(&b)] gives back [a],
    for counters [a] in the range of [uint64_t] and any [b], even when the
    additions wrap around. *)
Theorem difference_undoes_accumulate a b :
  in_u64 a -> difference (accumulate_other a b) b = a.
Proof.
  unfold in_u64, accumulate_other, difference. destruct a, b. cbn.
  intros [= ]. f_equal; apply u64_add_sub; assumption.
Qed.

Lemma difference_undoes_accumulate_witness :
  difference
    (accumulate_other (BFC_zero) (with_scalars BFC (one_load 4) 1 1))
    (with_scalars BFC (one_load 4) 1 1)
  = BFC_zero.
Proof.
  exact (difference_undoes_accumulate BFC_zero
           (with_scalars BFC (one_load 4) 1 1) eq_refl).
Defined.

Lemma accumulate_other_swap y z1 z2 :
  accumulate_other (accumulate_other y z2) z1
  = accumulate_other (accumulate_other y z1) z2.
Proof.
  unfold accumulate_other. cbn.
  f_equal; rewrite !u64_add_l; f_equal; lia.
Qed.

Lemma sum_in_order_permutation l1 l2 acc :
  l1 ≡ₚ l2 -> sum_in_order l1 acc = sum_in_order l2 acc.
Proof.
  unfold sum_in_order.
  induction 1 as [|x l1 l2 _ IH|x y l|l1 l2 l3 _ IH1 _ IH2]; cbn.
  - reflexivity.
  - rewrite IH. reflexivity.
  - apply accumulate_other_swap.
  - rewrite IH1. exact IH2.
Qed.

Lemma sum_in_order_map_to_list (m : gmap char_ptr ByteFlopCounters) acc :
  sum_in_order (map_to_list m) acc = sum_per_func_totals m acc.
Proof.
  unfold sum_per_func_totals, sum_in_order. rewrite map_fold_foldr.
  induction (map_to_list m) as [|[k c] l' IH]; cbn; [reflexivity|].
  rewrite IH. reflexivity.
Qed.

(** X2.  The loop of the destructor over [per_func_totals()] gives the same
    totals in whatever order the unordered map is visited. *)
Theorem reconstruction_order_irrelevant
    (m : gmap char_ptr ByteFlopCounters) l acc :
  l ≡ₚ map_to_list m ->
  sum_in_order l acc = sum_per_func_totals m acc.
Proof.
  intros Hl. rewrite (sum_in_order_permutation _ _ acc Hl).
  apply sum_in_order_map_to_list.
Qed.

Lemma reconstruction_order_irrelevant_witness :
  sum_in_order (reverse (map_to_list two_records)) BFC_zero
  = sum_per_func_totals two_records BFC_zero.
Proof.
  exact (reconstruction_order_irrelevant two_records
           (reverse (map_to_list two_records)) BFC_zero
           (reverse_Permutation (map_to_list two_records))).
Defined.

(** ** Basic-block frames and the memory pool *)

(** X3.  Popping the top frame and pushing a frame again recycles the popped
    counters: the new top frame is all zero whatever the popped frame held,
    the frames below are the same and the free list is as before, so no
    counter set is constructed. *)
Theorem pop_then_push_recycles s top rest :
  bb_totals s = top :: rest ->
  exists s',
    bind (bf_pop_basic_block s) (fun _ s1 => bf_push_basic_block s1)
      = Ok tt s' /\
    bb_totals s' = BFC_zero :: rest /\
    freelist s' = freelist s.
Proof.
  intros Hs. unfold bf_pop_basic_block. rewrite Hs. cbn.
  eexists. split; [reflexivity|]. split; reflexivity.
Qed.

Lemma pop_then_push_recycles_witness :
  exists s',
    bind (bf_pop_basic_block (final_state default_config one_block))
      (fun _ s1 => bf_push_basic_block s1) = Ok tt s' /\
    bb_totals s' = BFC_zero :: [] /\
    freelist s' = freelist (final_state default_config one_block).
Proof.
  exact (pop_then_push_recycles (final_state default_config one_block)
           _ [] eq_refl).
Defined.

Lemma run_app cfg tr1 : forall tr2 s,
  run cfg (tr1 ++ tr2) s = bind (run cfg tr1 s) (fun _ s1 => run cfg tr2 s1).
Proof.
  induction tr1 as [|o tr1 IH]; intros tr2 s; cbn; [reflexivity|].
  destruct (exec cfg o s) as [[] s1| |]; cbn; [apply IH|reflexivity..].
Qed.

(** An event that keeps the depth changes at most the top frame. *)
Lemma exec_keeps_lower_frames cfg o s s' top below :
  exec cfg o s = Ok tt s' ->
  keeps_bb_depth o ->
  bb_totals s = top :: below ->
  exists top', bb_totals s' = top' :: below.
Proof.
  destruct o; cbn [exec keeps_bb_depth]; intros Hx Hk Hbb;
    try contradiction.
  - injection Hx as <-. eauto.
  - injection Hx as <-. eauto.
  - destruct (flush_stacks end_of_basic_block categorize s top below Hbb)
      as (s1 & top' & Hx' & Hb' & _).
    rewrite Hx' in Hx. injection Hx as <-. eauto.
  - unfold bf_reset_bb_tallies in Hx. rewrite Hbb in Hx.
    injection Hx as <-. cbn. eauto.
  - apply bf_report_bb_tallies_frame in Hx as (_ & _ & _ & _ & _ & Hb & _).
    rewrite Hb. eauto.
  - invert_call Hx; cbn; eauto.
  - invert_call Hx. cbn. eauto.
  - invert_call Hx. cbn. eauto.
  - invert_call Hx. cbn. eauto.
Qed.

Lemma run_keeps_lower_frames cfg : forall tr s s' top below,
  run cfg tr s = Ok tt s' ->
  Forall keeps_bb_depth tr ->
  bb_totals s = top :: below ->
  exists top', bb_totals s' = top' :: below.
Proof.
  induction tr as [|o tr IH]; intros s s' top below Hrun Hk Hbb.
  - injection Hrun as <-. eauto.
  - cbn in Hrun. inversion Hk as [|? ? Ho Htr]; subst.
    destruct (exec cfg o s) as [[] s1| |] eqn:Hx; cbn in Hrun;
      try discriminate.
    destruct (exec_keeps_lower_frames cfg o s s1 top below Hx Ho Hbb)
      as [top1 Hb1].
    exact (IH s1 s' top1 below Hrun Htr Hb1).
Qed.

(** X4.  Whatever is flushed, reset, associated or reported between
    [bf_push_basic_block] and the matching [bf_pop_basic_block], the frames
    of the caller are afterwards exactly as they were before the push. *)
Theorem callee_frame_is_isolated cfg tr s s' :
  Forall keeps_bb_depth tr ->
  run cfg (op_push_basic_block :: tr ++ [op_pop_basic_block]) s = Ok tt s' ->
  bb_totals s' = bb_totals s.
Proof.
  intros Hk Hrun. cbn [run exec] in Hrun.
  unfold bf_push_basic_block in Hrun.
  destruct (allocate (freelist s)) as [newBFC fl]. cbn [bind] in Hrun.
  rewrite run_app in Hrun.
  destruct (run cfg tr _) as [[] s1| |] eqn:Htr; cbn [bind] in Hrun;
    try discriminate.
  destruct (run_keeps_lower_frames cfg tr _ s1 newBFC (bb_totals s) Htr Hk
              eq_refl) as [top1 Hb1].
  cbn [run exec] in Hrun. unfold bf_pop_basic_block in Hrun.
  rewrite Hb1 in Hrun. injection Hrun as <-. reflexivity.
Qed.

Lemma callee_frame_is_isolated_witness :
  bb_totals
    (state_of
       (run default_config
          (op_push_basic_block :: callee_body ++ [op_pop_basic_block])
          (final_state default_config one_block))
       started_state)
  = bb_totals (final_state default_config one_block).
Proof.
  apply (callee_frame_is_isolated default_config callee_body).
  - repeat constructor.
  - vm_compute. reflexivity.
Defined.

Lemma accumulate_other_fresh g t cb bb :
  accumulate_other g (with_scalars (accumulate (reset g)) t cb bb)
  = with_scalars (accumulate g) t cb bb.
Proof.
  unfold accumulate_other, with_scalars, accumulate, reset. cbn.
  f_equal; rewrite Z.add_0_l; apply u64_add_r.
Qed.

(** X5.  Resetting the top frame and then flushing at the end of a block
    adds to [global_totals] exactly the scalars tallied in that block, plus
    one basic block and, after a conditional branch, one conditional branch;
    a flush that does not end the block leaves [global_totals] alone. *)
Theorem reset_then_flush_adds_block cfg e categorize s top rest :
  bb_totals s = top :: rest ->
  exists s',
    run cfg [op_reset_bb_tallies; op_accumulate_bb_tallies e categorize] s
      = Ok tt s' /\
    global_totals s'
    = if is_end e
      then with_scalars (accumulate (global_totals s)) (scalars s)
             (b2u (is_cond e)) 1
      else global_totals s.
Proof.
  intros Hs. cbn [run exec]. unfold bf_reset_bb_tallies. rewrite Hs.
  cbn [bind]. unfold bf_accumulate_bb_tallies. cbn [bb_totals set_bb_totals].
  destruct e; cbn [is_end is_cond b2u].
  - eexists. split; reflexivity.
  - destruct (bf_string_to_symbol_ptr categorize) as [partition|]; cbn;
      [destruct (user_defined_totals s !! partition)|];
      eexists; (split; [reflexivity|]); cbn;
      apply (accumulate_other_fresh (global_totals s) (scalars s) 0 1).
  - destruct (bf_string_to_symbol_ptr categorize) as [partition|]; cbn;
      [destruct (user_defined_totals s !! partition)|];
      eexists; (split; [reflexivity|]); cbn;
      apply (accumulate_other_fresh (global_totals s) (scalars s) 1 1).
Qed.

Lemma reset_then_flush_adds_block_witness :
  exists s',
    run default_config
      [op_reset_bb_tallies; op_accumulate_bb_tallies BB_END_COND None]
      (final_state default_config one_block) = Ok tt s' /\
    loads (global_totals s') = 8 /\ b_blocks (global_totals s') = 2.
Proof.
  destruct (reset_then_flush_adds_block default_config BB_END_COND None
              (final_state default_config one_block) _ [] eq_refl)
    as (s' & Hrun & Hg).
  exists s'. split; [exact Hrun|]. rewrite Hg. split; reflexivity.
Defined.

(** ** The call stack *)

(** X6.  A call of [bf_push_function] followed by [bf_pop_function] leaves
    the call stack as it was, and [bf_func_and_parents] names the caller
    again (the symbol on top of the stack), or is the marker [[EMPTY]], a
    string literal, when there is no caller. *)
Theorem push_then_pop_restores_stack f s :
  exists s',
    bind (bf_push_function f s) (fun _ s1 => bf_pop_function s1) = Ok tt s' /\
    complete_call_stack (call_stack s') = complete_call_stack (call_stack s) /\
    bf_func_and_parents s'
    = match complete_call_stack (call_stack s) with
      | caller :: _ => Symbol caller
      | [] => Literal "[EMPTY]"
      end.
Proof.
  unfold bf_push_function.
  destruct (push_function_stack f (call_stack s)) as [Hst _].
  destruct (push_function f (call_stack s)) as [key cs]. cbn in Hst.
  cbn [bind]. unfold bf_pop_function, pop_function.
  cbn [call_stack set_call_stack set_func_call_tallies
       set_bf_func_and_parents].
  rewrite Hst. eexists. split; [reflexivity|]. split; reflexivity.
Qed.

(** One event keeps the shape of the call stack and the link between it and
    [bf_func_and_parents]: the symbol on top of the stack, or a string
    literal while the stack is empty. *)
Lemma exec_call_stack_shape cfg o s s' :
  exec cfg o s = Ok tt s' ->
  True ->
  chained (complete_call_stack (call_stack s)) /\
  (forall top below,
     complete_call_stack (call_stack s) = top :: below ->
     bf_func_and_parents s = Symbol top) /\
  (complete_call_stack (call_stack s) = [] ->
     exists text, bf_func_and_parents s = Literal text) ->
  chained (complete_call_stack (call_stack s')) /\
  (forall top below,
     complete_call_stack (call_stack s') = top :: below ->
     bf_func_and_parents s' = Symbol top) /\
  (complete_call_stack (call_stack s') = [] ->
     exists text, bf_func_and_parents s' = Literal text).
Proof.
  destruct o; cbn [exec]; intros Hx _ Hinv;
    try (invert_call Hx; exact Hinv).
  - destruct (bb_totals s) as [|top rest] eqn:Hs;
      [unfold bf_accumulate_bb_tallies in Hx; rewrite Hs in Hx;
       discriminate|].
    destruct (flush_top end_of_basic_block categorize s top rest Hs)
      as (s1 & Hx' & _ & _).
    rewrite Hx' in Hx. injection Hx as <-.
    unfold bf_accumulate_bb_tallies in Hx'. rewrite Hs in Hx'.
    destruct (is_end end_of_basic_block);
      [destruct (bf_string_to_symbol_ptr categorize) as [partition|];
       [cbn in Hx'; destruct (user_defined_totals s !! partition)|]|];
      injection Hx' as <-; exact Hinv.
  - pose proof Hx as Hx'.
    apply bf_report_bb_tallies_frame in Hx as (_ & _ & _ & _ & _ & _ & Hc).
    rewrite Hc.
    assert (Hf : bf_func_and_parents s' = bf_func_and_parents s).
    { unfold bf_report_bb_tallies in Hx'.
      destruct (suppress_output s) as [b s1| |] eqn:Hso; cbn in Hx';
        try discriminate.
      apply suppress_output_Ok in Hso as [o ->].
      destruct b; [injection Hx' as <-; reflexivity|].
      cbn in Hx'. destruct (showed_header s); cbn in Hx';
        destruct (bf_bb_merge cfg <=? _); injection Hx' as <-; reflexivity. }
    rewrite Hf. exact Hinv.
  - destruct Hinv as (Hch & Htop & Hlit).
    unfold bf_push_function in Hx.
    destruct (push_function_stack funcname (call_stack s)) as [Hst Hkey].
    destruct (push_function funcname (call_stack s)) as [key cs].
    cbn in Hst, Hkey. injection Hx as <-. cbn. rewrite Hst. split.
    + cbn. split; [eauto|exact Hch].
    + split; [|discriminate].
      intros top below [= <- _]. rewrite Hkey. reflexivity.
  - destruct Hinv as (Hch & Htop & Hlit).
    unfold bf_pop_function, pop_function in Hx.
    destruct (complete_call_stack (call_stack s)) as [|top rest];
      [discriminate|].
    injection Hx as <-. cbn. split; [exact (proj2 Hch)|]. split.
    + intros top' below ->. reflexivity.
    + intros ->. eauto.
Qed.

Lemma run_call_stack_shape cfg env constructed tr s :
  run_program cfg env constructed tr = Ok tt s ->
  chained (complete_call_stack (call_stack s)) /\
  (forall top below,
     complete_call_stack (call_stack s) = top :: below ->
     bf_func_and_parents s = Symbol top) /\
  (complete_call_stack (call_stack s) = [] ->
     exists text, bf_func_and_parents s = Literal text).
Proof.
  intros Hrun. unfold run_program in Hrun. cbn [start initialize_byfl
    bf_push_basic_block allocate freelist set_freelist bind] in Hrun.
  refine (run_invariant cfg (fun _ => True) _
            (exec_call_stack_shape cfg) tr _ s Hrun _ _).
  - apply Forall_forall. intros; exact I.
  - split; [exact I|]. split; [intros top below Hs; discriminate Hs|].
    intros _. cbn. eauto.
Qed.

(** X7.  In every state a run reaches from the start of the program, each
    entry of the call stack is a function name followed by a space and the
    entry below it (the bottom entry is a bare name), and while the stack is
    not empty [bf_func_and_parents], the key under which counters are
    associated with call-stack attribution, is its top entry (a symbol). *)
Theorem call_stack_shape cfg env constructed tr s :
  run_program cfg env constructed tr = Ok tt s ->
  chained (complete_call_stack (call_stack s)) /\
  (forall top below,
     complete_call_stack (call_stack s) = top :: below ->
     bf_func_and_parents s = Symbol top).
Proof.
  intros Hrun.
  destruct (run_call_stack_shape cfg env constructed tr s Hrun)
    as (Hch & Htop & _).
  split; assumption.
Qed.

Lemma call_stack_shape_witness :
  chained
    (complete_call_stack
       (call_stack (final_state default_config main_calls_f))) /\
  (forall top below,
     complete_call_stack
       (call_stack (final_state default_config main_calls_f)) = top :: below ->
     bf_func_and_parents (final_state default_config main_calls_f)
     = Symbol top).
Proof.
  exact (call_stack_shape default_config empty_env true main_calls_f
           (final_state default_config main_calls_f)
           ltac:(vm_compute; reflexivity)).
Defined.

Lemma deepest_ge tr : forall d m, (m <= deepest d m tr)%nat.
Proof.
  induction tr as [|o tr IH]; intros d m; cbn; [lia|].
  destruct o; try apply IH.
  etrans; [|apply IH]. lia.
Qed.

Lemma run_max_depth cfg : forall tr s s' d m,
  run cfg tr s = Ok tt s' ->
  length (complete_call_stack (call_stack s)) = d ->
  Z.of_nat d <= max_depth (call_stack s) <= Z.of_nat m ->
  Z.of_nat (length (complete_call_stack (call_stack s')))
    <= max_depth (call_stack s') <= Z.of_nat (deepest d m tr).
Proof.
  induction tr as [|o tr IH]; intros s s' d m Hrun Hd Hm.
  - injection Hrun as <-. cbn. rewrite Hd. exact Hm.
  - cbn [run] in Hrun.
    destruct (exec cfg o s) as [[] s1| |] eqn:Hx; cbn [bind] in Hrun;
      try discriminate.
    destruct o; cbn [exec deepest] in *;
      try (invert_call Hx; exact (IH _ s' d m Hrun Hd Hm)).
    + destruct (bb_totals s) as [|top rest] eqn:Hs;
        [unfold bf_accumulate_bb_tallies in Hx; rewrite Hs in Hx;
         discriminate|].
      destruct (flush_stacks end_of_basic_block categorize s top rest Hs)
        as (s2 & top' & Hx' & _ & Hc).
      rewrite Hx' in Hx. injection Hx as <-.
      apply (IH s2 s' d m Hrun); rewrite Hc; assumption.
    + apply bf_report_bb_tallies_frame in Hx as (_ & _ & _ & _ & _ & _ & Hc).
      apply (IH s1 s' d m Hrun); rewrite Hc; assumption.
    + unfold bf_push_function in Hx.
      destruct (push_function_stack funcname (call_stack s)) as [Hst _].
      destruct (complete_call_stack (call_stack s)) as [|top rest] eqn:Hs.
      * pose proof (push_function_max_depth_empty funcname _ Hs) as Hmax.
        destruct (push_function funcname (call_stack s)) as [key cs].
        cbn in Hst, Hmax. injection Hx as <-.
        apply (IH _ s' (S d) (Nat.max m (S d)) Hrun).
        -- cbn. rewrite Hst. cbn. rewrite <- Hd. reflexivity.
        -- cbn. rewrite Hmax. cbn in Hd. subst d. lia.
      * pose proof (push_function_max_depth_nonempty funcname _ _ _ Hs)
          as Hmax.
        destruct (push_function funcname (call_stack s)) as [key cs].
        cbn in Hst, Hmax. injection Hx as <-.
        apply (IH _ s' (S d) (Nat.max m (S d)) Hrun).
        -- cbn. rewrite Hst. cbn. rewrite <- Hd. reflexivity.
        -- cbn. rewrite Hmax, Hs, Hd. lia.
    + unfold bf_pop_function, pop_function in Hx.
      destruct (complete_call_stack (call_stack s)) as [|top rest] eqn:Hs;
        [discriminate|].
      injection Hx as <-.
      apply (IH _ s' (Nat.pred d) m Hrun).
      * cbn. cbn in Hd. subst d. reflexivity.
      * cbn. cbn in Hd. lia.
Qed.

(** X8.  In every state a run reaches from the start of the program,
    [max_depth] is at least the present depth of the call stack and at most
    the greatest depth the stack has had. *)
Theorem max_depth_bounds cfg env constructed tr s :
  run_program cfg env constructed tr = Ok tt s ->
  Z.of_nat (length (complete_call_stack (call_stack s)))
    <= max_depth (call_stack s) <= Z.of_nat (deepest 0 0 tr).
Proof.
  intros Hrun. unfold run_program in Hrun. cbn [start initialize_byfl
    bf_push_basic_block allocate freelist set_freelist bind] in Hrun.
  apply (run_max_depth cfg tr _ s 0%nat 0%nat Hrun); [reflexivity|].
  cbn. lia.
Qed.

Lemma max_depth_bounds_witness :
  Z.of_nat
    (length (complete_call_stack
               (call_stack (final_state default_config nested_call))))
    <= max_depth (call_stack (final_state default_config nested_call))
    <= Z.of_nat (deepest 0 0 nested_call).
Proof.
  exact (max_depth_bounds default_config empty_env true nested_call
           (final_state default_config nested_call)
           ltac:(vm_compute; reflexivity)).
Defined.

(** ** Output suppression and the basic-block lines *)

(** X9.  Once [suppress_output] has returned, its answer is fixed: whatever
    the environment is changed to afterwards, the next call returns the same
    answer without touching the state. *)
Theorem suppress_output_decides_once s b s1 env' :
  all_constructors_called s = true ->
  suppress_output s = Ok b s1 ->
  suppress_output (set_environ env' s1) = Ok b (set_environ env' s1).
Proof.
  intros Hc. unfold suppress_output at 1. rewrite Hc. cbn [negb].
  destruct (output s) eqn:Ho.
  - destruct (getenv s "BYFL_OUTPUT_IF") as [value|].
    + destruct (find_first_of value "=") as [eqpos|]; [|discriminate].
      destruct (String.eqb _ _); intros [= <- <-];
        unfold suppress_output; cbn; rewrite Hc; reflexivity.
    + intros [= <- <-]. unfold suppress_output. cbn. rewrite Hc. reflexivity.
  - intros [= <- <-]. unfold suppress_output. cbn. rewrite Hc, Ho.
    reflexivity.
  - intros [= <- <-]. unfold suppress_output. cbn. rewrite Hc, Ho.
    reflexivity.
Qed.

Lemma suppress_output_decides_once_witness :
  suppress_output
    (set_environ (env_with "RANK=1")
       (set_output SHOW (static_state (env_with "RANK=0") true)))
  = Ok false
      (set_environ (env_with "RANK=1")
         (set_output SHOW (static_state (env_with "RANK=0") true))).
Proof.
  exact (suppress_output_decides_once
           (static_state (env_with "RANK=0") true) false
           (set_output SHOW (static_state (env_with "RANK=0") true))
           (env_with "RANK=1") eq_refl ltac:(vm_compute; reflexivity)).
Defined.

Lemma bb_columns_length cfg c :
  length (bb_columns cfg c) = length (bb_header_columns cfg).
Proof.
  unfold bb_columns, bb_header_columns.
  destruct (bf_all_ops cfg); [destruct (bf_types cfg)|]; reflexivity.
Qed.

Lemma exec_header_once cfg o s s' :
  exec cfg o s = Ok tt s' ->
  True ->
  (showed_header s = false /\ cout s = []) \/
  (showed_header s = true /\ header_then_records cfg (cout s)) ->
  (showed_header s' = false /\ cout s' = []) \/
  (showed_header s' = true /\ header_then_records cfg (cout s')).
Proof.
  destruct o; cbn [exec]; intros Hx _ Hinv;
    try (invert_call Hx; exact Hinv).
  - unfold bf_accumulate_bb_tallies in Hx.
    destruct (bb_totals s) as [|top rest]; [discriminate|].
    destruct (is_end end_of_basic_block);
      [destruct (bf_string_to_symbol_ptr categorize) as [partition|];
       [cbn in Hx; destruct (user_defined_totals s !! partition)|]|];
      injection Hx as <-; exact Hinv.
  - unfold bf_report_bb_tallies in Hx.
    destruct (suppress_output s) as [b s1| |] eqn:Hso; cbn in Hx;
      try discriminate.
    apply suppress_output_Ok in Hso as [o ->].
    destruct b; [injection Hx as <-; exact Hinv|].
    cbn [showed_header set_output] in Hx. unfold header_then_records in *.
    destruct Hinv as [[Hh Hc]|[Hh (recs & Hc & Hlen)]]; rewrite Hh in Hx;
      cbn [negb] in Hx; destruct (bf_bb_merge cfg <=? _);
      injection Hx as <-; right; (split; [first [reflexivity|exact Hh]|]);
      unfold print;
      cbn [cout set_cout set_num_merged set_prev_global_totals
           set_showed_header set_output global_totals prev_global_totals];
      rewrite Hc.
    + exists [bb_columns cfg
                (difference (global_totals s) (prev_global_totals s))].
      split; [reflexivity|]. repeat constructor. apply bb_columns_length.
    + exists []. split; [reflexivity|]. constructor.
    + exists (bb_columns cfg
                (difference (global_totals s) (prev_global_totals s))
              :: recs).
      split; [reflexivity|]. constructor; [apply bb_columns_length|exact Hlen].
    + exists recs. split; [reflexivity|exact Hlen].
Qed.

(** X10.  In every state a run reaches from the start of the program,
    either nothing has been written, or the basic-block header has been
    written exactly once, before every [BYFL_BB] record, and each record
    has exactly as many fields as the header has columns. *)
Theorem header_written_once cfg env constructed tr s :
  run_program cfg env constructed tr = Ok tt s ->
  (showed_header s = false /\ cout s = []) \/
  (showed_header s = true /\ header_then_records cfg (cout s)).
Proof.
  intros Hrun. unfold run_program in Hrun. cbn [start initialize_byfl
    bf_push_basic_block allocate freelist set_freelist bind] in Hrun.
  refine (run_invariant cfg (fun _ => True) _
            (exec_header_once cfg) tr _ s Hrun _ _).
  - apply Forall_forall. intros; exact I.
  - left. split; reflexivity.
Qed.

Lemma header_written_once_witness :
  (showed_header (final_state window3_config seven_blocks) = false /\
   cout (final_state window3_config seven_blocks) = []) \/
  (showed_header (final_state window3_config seven_blocks) = true /\
   header_then_records window3_config
     (cout (final_state window3_config seven_blocks))).
Proof.
  exact (header_written_once window3_config empty_env true seven_blocks
           (final_state window3_config seven_blocks)
           ltac:(vm_compute; reflexivity)).
Defined.

Lemma suppress_output_shown s :
  output_shown s ->
  exists s1, suppress_output s = Ok false s1 /\ output_shown s1 /\
    s1 = set_output SHOW s.
Proof.
  intros (Hc & Ho & He). unfold suppress_output, getenv. rewrite Hc. cbn.
  destruct (output s) eqn:Hos; [rewrite He| contradiction |];
    eexists; (split; [reflexivity|]); split; try reflexivity.
  - repeat split; [exact Hc|discriminate|exact He].
  - repeat split; [exact Hc|rewrite Hos; discriminate|exact He].
  - rewrite <- Hos. destruct s; reflexivity.
Qed.

Lemma run_emission_count cfg :
  1 <= bf_bb_merge cfg < 2 ^ 64 ->
  forall tr s s',
    run cfg tr s = Ok tt s' ->
    output_shown s ->
    0 <= num_merged s < bf_bb_merge cfg ->
    output_shown s' /\
    0 <= num_merged s' < bf_bb_merge cfg /\
    Z.of_nat (length (bb_records (cout s'))) * bf_bb_merge cfg
      + num_merged s'
    = Z.of_nat (length (bb_records (cout s))) * bf_bb_merge cfg
      + num_merged s + Z.of_nat (count_reports tr).
Proof.
  intros HN. induction tr as [|o tr IH]; intros s s' Hrun Hshown Hn.
  - injection Hrun as <-. cbn. split; [exact Hshown|]. split; [exact Hn|lia].
  - cbn [run] in Hrun.
    destruct (exec cfg o s) as [[] s1| |] eqn:Hx; cbn [bind] in Hrun;
      try discriminate.
    destruct o; cbn [exec count_reports] in *;
      try (invert_call Hx; exact (IH _ s' Hrun Hshown Hn)).
    + unfold bf_accumulate_bb_tallies in Hx.
      destruct (bb_totals s) as [|top rest]; [discriminate|].
      destruct (is_end end_of_basic_block);
        [destruct (bf_string_to_symbol_ptr categorize) as [partition|];
         [cbn in Hx; destruct (user_defined_totals s !! partition)|]|];
        injection Hx as <-; exact (IH _ s' Hrun Hshown Hn).
    + destruct (suppress_output_shown s Hshown) as (s2 & Hso & Hsh2 & ->).
      unfold bf_report_bb_tallies in Hx. rewrite Hso in Hx.
      assert (Hu : u64 (num_merged s + 1) = num_merged s + 1)
        by (apply u64_small; lia).
      destruct (showed_header s) eqn:Hh;
        cbn -[bb_columns bb_header_columns difference u64 Z.leb] in Hx;
        rewrite Hh in Hx;
        cbn -[bb_columns bb_header_columns difference u64 Z.leb] in Hx;
        rewrite Hu in Hx;
        destruct (Z.leb_spec (bf_bb_merge cfg) (num_merged s + 1));
        injection Hx as <-;
        (edestruct (IH _ s' Hrun) as (H1 & H2 & H3);
         [exact Hsh2 | cbn; lia |]);
        (split; [exact H1|]); (split; [exact H2|]);
        rewrite H3; unfold bb_records;
        cbn [cout num_merged set_cout set_num_merged
             set_prev_global_totals set_showed_header set_output print
             flat_map app length]; lia.
Qed.

(** X11.  With a window of [bf_bb_merge] >= 1 basic blocks and output not
    suppressed, after [n] calls of [bf_report_bb_tallies] exactly
    [n / bf_bb_merge] records have been written and [n mod bf_bb_merge]
    calls are waiting in the merge count. *)
Theorem one_record_per_window cfg env tr s :
  1 <= bf_bb_merge cfg < 2 ^ 64 ->
  env !! "BYFL_OUTPUT_IF" = None ->
  run_program cfg env true tr = Ok tt s ->
  Z.of_nat (length (bb_records (cout s)))
    = Z.of_nat (count_reports tr) / bf_bb_merge cfg /\
  num_merged s = Z.of_nat (count_reports tr) mod bf_bb_merge cfg.
Proof.
  intros HN He Hrun. unfold run_program in Hrun. cbn [start initialize_byfl
    bf_push_basic_block allocate freelist set_freelist bind] in Hrun.
  destruct (run_emission_count cfg HN tr _ s Hrun) as (_ & Hn & Hsum).
  - repeat split; [discriminate|exact He].
  - cbn. lia.
  - cbn in Hsum. rewrite Z.add_0_l in Hsum.
    symmetry in Hsum. rewrite Z.mul_comm in Hsum.
    split.
    + apply (Z.div_unique_pos _ _ _ (num_merged s)); [lia|].
      exact Hsum.
    + apply (Z.mod_unique_pos _ _
                         (Z.of_nat (length (bb_records (cout s)))));
        [lia|exact Hsum].
Qed.

Lemma one_record_per_window_witness :
  Z.of_nat
    (length (bb_records (cout (final_state window3_config seven_blocks))))
    = Z.of_nat (count_reports seven_blocks) / bf_bb_merge window3_config /\
  num_merged (final_state window3_config seven_blocks)
    = Z.of_nat (count_reports seven_blocks) mod bf_bb_merge window3_config.
Proof.
  apply (one_record_per_window window3_config empty_env seven_blocks).
  - cbn. lia.
  - reflexivity.
  - vm_compute. reflexivity.
Defined.

(** ** Per-function counters *)









(** ** The per-function report *)

Lemma ascii_compare_refl a : Ascii.compare a a = Eq.
Proof. unfold Ascii.compare. apply N.compare_refl. Qed.

Lemma ascii_compare_lt_trans a b c :
  Ascii.compare a b = Lt -> Ascii.compare b c = Lt -> Ascii.compare a c = Lt.
Proof.
  unfold Ascii.compare. rewrite !N.compare_lt_iff. apply N.lt_trans.
Qed.

Lemma string_compare_refl str : String.compare str str = Eq.
Proof.
  induction str as [|a rest IH]; cbn; [reflexivity|].
  rewrite ascii_compare_refl. exact IH.
Qed.

Lemma string_compare_lt_trans : forall s1 s2 s3,
  String.compare s1 s2 = Lt -> String.compare s2 s3 = Lt ->
  String.compare s1 s3 = Lt.
Proof.
  induction s1 as [|a s1 IH]; intros [|b s2] [|c s3]; cbn;
    try discriminate; try reflexivity.
  destruct (Ascii.compare a b) eqn:Hab; try discriminate;
    destruct (Ascii.compare b c) eqn:Hbc; try discriminate; intros H1 H2.
  - apply Ascii.compare_eq_iff in Hab, Hbc. subst.
    rewrite ascii_compare_refl. exact (IH _ _ H1 H2).
  - apply Ascii.compare_eq_iff in Hab. subst. rewrite Hbc. reflexivity.
  - apply Ascii.compare_eq_iff in Hbc. subst. rewrite Hab. reflexivity.
  - rewrite (ascii_compare_lt_trans _ _ _ Hab Hbc). reflexivity.
Qed.

Lemma compare_char_stars_strict_order : strict_total_order compare_char_stars.
Proof.
  unfold strict_total_order, compare_char_stars, String.ltb.
  split; [|split].
  - intros a. rewrite string_compare_refl. reflexivity.
  - intros a b c Hab Hbc.
    destruct (String.compare a b) eqn:H1; try discriminate.
    destruct (String.compare b c) eqn:H2; try discriminate.
    rewrite (string_compare_lt_trans _ _ _ H1 H2). reflexivity.
  - intros a b Hne. rewrite (String.compare_antisym b a).
    destruct (String.compare a b) eqn:H1; cbn; auto.
    apply String.compare_eq_iff in H1. contradiction.
Qed.

(** X13.  Whatever the tallies are, [compare_func_totals] is a strict total
    order on function names (more calls first, equal counts by name), so
    the [std::sort] of the called functions has one well-defined result. *)
Theorem compare_func_totals_strict_order tallies :
  strict_total_order (compare_func_totals tallies).
Proof.
  destruct compare_char_stars_strict_order as (Hirr & Htrans & Htot).
  unfold strict_total_order, compare_func_totals. split; [|split].
  - intros a. rewrite Z.eqb_refl. cbn. apply Hirr.
  - intros a b c.
    destruct (Z.eqb_spec (tally_of tallies a) (tally_of tallies b)) as [E1|N1];
      destruct (Z.eqb_spec (tally_of tallies b) (tally_of tallies c))
        as [E2|N2];
      destruct (Z.eqb_spec (tally_of tallies a) (tally_of tallies c))
        as [E3|N3]; cbn; rewrite ?Z.ltb_lt; try lia; try congruence.
    apply Htrans.
  - intros a b Hne.
    destruct (Z.eqb_spec (tally_of tallies a) (tally_of tallies b)) as [E1|N1];
      destruct (Z.eqb_spec (tally_of tallies b) (tally_of tallies a))
        as [E2|N2]; cbn; rewrite ?Z.ltb_lt; try lia; try congruence.
    apply Htot, Hne.
Qed.

Lemma tally_touch_spec k m j :
  tally_of (tally_touch k m) j = tally_of m j /\
  (is_Some (tally_touch k m !! j) <-> is_Some (m !! j) \/ j = k).
Proof.
  unfold tally_touch, tally_of.
  destruct (m !! k) as [v|] eqn:Hk.
  - split; [reflexivity|]. split; [auto|].
    intros [H| ->]; [exact H|]. rewrite Hk. eauto.
  - destruct (decide (k = j)) as [->|Hne].
    + rewrite lookup_insert_eq, Hk. split; [reflexivity|].
      split; [auto|eauto].
    + rewrite lookup_insert_ne by exact Hne. split; [reflexivity|].
      split; [auto|]. intros [H|E]; [exact H|congruence].
Qed.

Lemma string_leb_total a b :
  Is_true (String.leb a b) \/ Is_true (String.leb b a).
Proof.
  unfold String.leb. rewrite (String.compare_antisym a b).
  destruct (String.compare b a); cbn; auto.
Qed.

Lemma string_leb_trans a b c :
  Is_true (String.leb a b) -> Is_true (String.leb b c) ->
  Is_true (String.leb a c).
Proof.
  unfold String.leb.
  destruct (String.compare a b) eqn:H1; cbn; try tauto;
    destruct (String.compare b c) eqn:H2; cbn; try tauto; intros _ _.
  - apply String.compare_eq_iff in H1, H2. subst.
    rewrite string_compare_refl. exact I.
  - apply String.compare_eq_iff in H1. subst. rewrite H2. exact I.
  - apply String.compare_eq_iff in H2. subst. rewrite H1. exact I.
  - rewrite (string_compare_lt_trans _ _ _ H1 H2). exact I.
Qed.

Lemma string_leb_ne_ltb a b :
  Is_true (String.leb a b) -> a <> b -> compare_char_stars a b = true.
Proof.
  unfold String.leb, compare_char_stars, String.ltb.
  destruct (String.compare a b) eqn:H; cbn; try tauto.
  apply String.compare_eq_iff in H. intros _ Hne. contradiction.
Qed.

(** A sorted list without repetition is strictly increasing. *)
Lemma sorted_strictly l :
  StronglySorted (fun a b => Is_true (String.leb a b)) l -> NoDup l ->
  strictly_increasing l.
Proof.
  unfold strictly_increasing.
  induction 1 as [|a l Hl IH Ha]; intros Hnd; constructor.
  - apply IH. inversion Hnd; assumption.
  - inversion Hnd as [|? ? Hnotin _]; subst.
    rewrite Forall_forall in Ha |- *. intros b Hb.
    apply string_leb_ne_ltb; [exact (Ha b Hb)|].
    intros ->. contradiction.
Qed.

Lemma merge_sort_leb_spec (l : list string) :
  let sorted := merge_sort (fun a b => Is_true (String.leb a b)) l in
  (forall n, In n sorted <-> In n l) /\
  (NoDup l -> strictly_increasing sorted).
Proof.
  cbn zeta. split.
  - intros n. rewrite <- !list_elem_of_In, merge_sort_Permutation.
    reflexivity.
  - intros Hnd. apply sorted_strictly.
    + apply (@StronglySorted_merge_sort _ _ _).
      * intros a b c. apply string_leb_trans.
      * intros a b. apply string_leb_total.
    + rewrite merge_sort_Permutation. exact Hnd.
Qed.

Lemma Forall2_In_r {A B : Type} (P : A -> B -> Prop) l k y :
  Forall2 P l k -> In y k -> exists x, In x l /\ P x y.
Proof.
  induction 1 as [|x y' l k Hxy _ IH]; intros Hin; [destruct Hin|].
  destruct Hin as [->|Hin]; [exists x; cbn; auto|].
  destruct (IH Hin) as (x' & Hx' & HP). exists x'. cbn. auto.
Qed.

Lemma Forall2_In_l {A B : Type} (P : A -> B -> Prop) l k x :
  Forall2 P l k -> In x l -> exists y, In y k /\ P x y.
Proof.
  induction 1 as [|x' y l k Hxy _ IH]; intros Hin; [destruct Hin|].
  destruct Hin as [->|Hin]; [exists y; cbn; auto|].
  destruct (IH Hin) as (y' & Hy' & HP). exists y'. cbn. auto.
Qed.

(** The texts of the keys: those a key points to. *)
Lemma sorted_key_texts_In {V : Type} (m : gmap char_ptr V) names n :
  sorted_key_texts m = Some names ->
  In n names <-> exists k, is_Some (m !! k) /\ c_str k = Some n.
Proof.
  unfold sorted_key_texts.
  destruct (mapM c_str (map fst (map_to_list m))) as [texts|] eqn:Hm;
    [|discriminate].
  intros [= <-]. rewrite (proj1 (merge_sort_leb_spec texts) n).
  apply mapM_Some_1 in Hm. split.
  - intros Hin.
    destruct (Forall2_In_r _ _ _ _ Hm Hin) as (k & Hk & Hc).
    exists k. split; [|exact Hc].
    apply in_map_iff in Hk as ([k' v] & <- & Hkv).
    apply list_elem_of_In, elem_of_map_to_list in Hkv. cbn. eauto.
  - intros (k & [v Hv] & Hc).
    apply elem_of_map_to_list, list_elem_of_In in Hv.
    apply (in_map fst) in Hv. cbn in Hv.
    destruct (Forall2_In_l _ _ _ _ Hm Hv) as (n' & Hn' & Hc').
    rewrite Hc in Hc'. injection Hc' as <-. exact Hn'.
Qed.

(** When every key is a symbol, the texts are listed without repetition, in
    strictly increasing order. *)
Lemma sorted_key_texts_symbols {V : Type} (m : gmap char_ptr V) :
  keyed_by_symbols m ->
  exists names,
    sorted_key_texts m = Some names /\ strictly_increasing names /\
    forall n, In n names <-> is_Some (m !! Symbol n).
Proof.
  intros Hsym. unfold sorted_key_texts.
  assert (Hkeys : exists texts,
            map fst (map_to_list m) = map Symbol texts).
  { assert (Hall : Forall (fun k => exists text, k = Symbol text)
                     (map fst (map_to_list m))).
    { apply Forall_forall. intros k Hk.
      apply list_elem_of_fmap in Hk as ([k' v] & -> & Hkv).
      apply elem_of_map_to_list in Hkv. apply Hsym. cbn. eauto. }
    induction Hall as [|k l [text ->] _ [texts ->]].
    - exists []. reflexivity.
    - exists (text :: texts). reflexivity. }
  destruct Hkeys as [texts Hkeys].
  assert (Hm : mapM c_str (map fst (map_to_list m)) = Some texts).
  { rewrite Hkeys. apply mapM_Some_2. clear.
    induction texts; constructor; [reflexivity|assumption]. }
  assert (Hnd : NoDup texts).
  { apply (NoDup_fmap_1 Symbol). change (NoDup (map Symbol texts)).
    rewrite <- Hkeys. apply NoDup_fst_map_to_list. }
  rewrite Hm. cbn [option_map]. eexists. split; [reflexivity|].
  destruct (merge_sort_leb_spec texts) as [Hin Hsorted].
  split; [exact (Hsorted Hnd)|].
  intros n. rewrite Hin. split.
  - intros Hn. apply (in_map Symbol) in Hn. rewrite <- Hkeys in Hn.
    apply in_map_iff in Hn as ([k v] & Hk & Hkv). cbn in Hk. subst k.
    apply list_elem_of_In, elem_of_map_to_list in Hkv. eauto.
  - intros [v Hv]. apply elem_of_map_to_list, list_elem_of_In in Hv.
    apply (in_map fst) in Hv. cbn in Hv. rewrite Hkeys in Hv.
    apply in_map_iff in Hv as (n' & [= ->] & Hn'). exact Hn'.
Qed.

(** The loop over the function names, when each name is a symbol that has
    counters. *)
Lemma report_funcs_spec cfg ext : forall names s,
  Forall (fun n => is_Some (per_func_totals s !! Symbol n)) names ->
  exists s' ls,
    report_funcs cfg ext names s = Ok tt s' /\
    written s s' ls /\
    omap func_line_name ls = names /\
    (forall t i n, ~ In (BYFL_CALLEE t i n) ls) /\
    (forall vals uq cb inv n,
       In (BYFL_FUNC vals uq cb inv n) ls ->
       exists c,
         per_func_totals s !! Symbol n = Some c /\
         vals = bb_columns cfg c /\
         uq = (if bf_unique_bytes cfg
               then Some (tally_unique_addresses_of ext n) else None) /\
         cb = cond_brs c /\ inv = tally_of (func_call_tallies s) n) /\
    (forall j,
       tally_of (func_call_tallies s') j = tally_of (func_call_tallies s) j) /\
    (forall j,
       is_Some (func_call_tallies s' !! j) <->
       is_Some (func_call_tallies s !! j) \/ In j names).
Proof.
  unfold written.
  induction names as [|k names IH]; intros s Hall.
  - exists s, []. cbn. repeat split; auto; try tauto.
  - inversion Hall as [|? ? [c Hk] Hrest]; subst.
    cbn [report_funcs]. unfold bf_string_to_symbol. rewrite Hk.
    match goal with
    | |- exists s' ls, report_funcs _ _ _ ?s1 = _ /\ _ =>
        destruct (IH s1 Hrest)
          as (s' & ls & Hx & Hw & Hn & Hno & Hlines & Ht & Hs)
    end.
    cbn [cout print set_cout set_func_call_tallies per_func_totals
         func_call_tallies] in Hw, Hlines, Ht, Hs.
    eexists s', (_ :: ls). split; [exact Hx|].
    split; [cbn [rev]; rewrite <- app_assoc; exact Hw|].
    split; [cbn; rewrite Hn; reflexivity|].
    split; [intros t i n [H|H]; [discriminate H|exact (Hno t i n H)]|].
    split; [|split].
    + intros vals uq cb inv n [[= <- <- <- <- <-]|Hin].
      * exists c. repeat split; [exact Hk|].
        apply (proj1 (tally_touch_spec k (func_call_tallies s) k)).
      * destruct (Hlines _ _ _ _ _ Hin) as (c' & H1 & H2 & H3 & H4 & H5).
        exists c'. repeat split; try assumption.
        rewrite H5. apply tally_touch_spec.
    + intros j. rewrite Ht. apply tally_touch_spec.
    + intros j. rewrite Hs.
      rewrite (proj2 (tally_touch_spec k (func_call_tallies s) j)). cbn.
      split; [intros [[H|H]|H]|intros [H|[H|H]]]; auto.
Qed.

(** The loop returns only when every name is a symbol that has counters. *)
Lemma report_funcs_Ok cfg ext : forall names s s',
  report_funcs cfg ext names s = Ok tt s' ->
  Forall (fun n => is_Some (per_func_totals s !! Symbol n)) names.
Proof.
  induction names as [|k names IH]; intros s s' Hx; constructor.
  - cbn in Hx. unfold bf_string_to_symbol in Hx.
    destruct (per_func_totals s !! Symbol k); [eauto|discriminate].
  - cbn in Hx. unfold bf_string_to_symbol in Hx.
    destruct (per_func_totals s !! Symbol k); [|discriminate].
    exact (IH _ _ Hx).
Qed.

Lemma std_sort_In comp l k : In k (std_sort comp l) <-> In k l.
Proof.
  unfold std_sort. rewrite <- !list_elem_of_In.
  rewrite merge_sort_Permutation. reflexivity.
Qed.

Lemma report_callee_In tallies key t i n :
  In (BYFL_CALLEE t i n) (report_callee tallies key) <->
  key = String "+" n /\ t = tally_of tallies key /\ 0 < t /\
  i = is_Some_bool (tallies !! n).
Proof.
  unfold report_callee, bf_string_to_symbol.
  destruct key as [|a rest]; [cbn; split; [tauto|intros [H _]; discriminate]|].
  destruct (Ascii.eqb_spec a "+") as [->|Hne].
  - destruct (Z.ltb_spec 0 (tally_of tallies (String "+" rest))) as [Hp|Hp];
      cbn.
    + split.
      * intros [[= <- <- <-]|[]]. auto.
      * intros ([= <-] & -> & _ & ->). left. reflexivity.
    + split; [tauto|]. intros ([= <-] & -> & Hpos & _). lia.
  - assert (Hnil : match a with
                   | "+"%char =>
                       if 0 <? tally_of tallies (String a rest)
                       then [BYFL_CALLEE (tally_of tallies (String a rest))
                               (is_Some_bool (tallies !! rest)) rest]
                       else []
                   | _ => []
                   end = []).
    { destruct a as [[] [] [] [] [] [] [] []]; try reflexivity.
      contradiction Hne. reflexivity. }
    rewrite Hnil. cbn. split; [tauto|]. intros ([= E _] & _). contradiction.
Qed.

Lemma report_callee_lines tallies l x :
  In x (flat_map (report_callee tallies) l) ->
  exists t i n, x = BYFL_CALLEE t i n.
Proof.
  intros H. apply in_flat_map in H as (key & _ & H).
  unfold report_callee in H. destruct key as [|a rest]; [destruct H|].
  destruct a as [[] [] [] [] [] [] [] []]; try destruct H.
  destruct (0 <? _); [destruct H as [<-|[]]; eauto|destruct H].
Qed.

Lemma omap_report_callee tallies l :
  omap func_line_name (flat_map (report_callee tallies) l) = [].
Proof.
  induction l as [|key l IH]; cbn; [reflexivity|].
  rewrite omap_app, IH, app_nil_r.
  unfold report_callee. destruct key as [|a rest]; [reflexivity|].
  destruct a as [[] [] [] [] [] [] [] []]; try reflexivity.
  destruct (0 <? _); reflexivity.
Qed.

(** What a normal return of [report_by_function] has written: the header,
    the function lines [funcs], the callee header and the callee lines,
    which are made from the tallies [T'] as the function lines left
    them. *)
Lemma report_by_function_Ok cfg ext s s' :
  report_by_function cfg ext s = Ok tt s' ->
  exists names funcs T',
    sorted_key_texts (per_func_totals s) = Some names /\
    Forall (fun n => is_Some (per_func_totals s !! Symbol n)) names /\
    written s s'
      (func_header cfg (call_stack s) :: funcs ++ BYFL_CALLEE_HEADER
         :: flat_map (report_callee T')
              (std_sort (compare_func_totals T')
                 (map fst (map_to_list T')))) /\
    omap func_line_name funcs = names /\
    (forall t i n, ~ In (BYFL_CALLEE t i n) funcs) /\
    (forall vals uq cb inv n,
       In (BYFL_FUNC vals uq cb inv n) funcs ->
       exists c,
         per_func_totals s !! Symbol n = Some c /\
         vals = bb_columns cfg c /\
         uq = (if bf_unique_bytes cfg
               then Some (tally_unique_addresses_of ext n) else None) /\
         cb = cond_brs c /\ inv = tally_of (func_call_tallies s) n) /\
    (forall j, tally_of T' j = tally_of (func_call_tallies s) j) /\
    (forall j,
       is_Some (T' !! j) <->
       is_Some (func_call_tallies s !! j) \/ In j names).
Proof.
  unfold report_by_function. cbn [per_func_totals print set_cout].
  destruct (sorted_key_texts (per_func_totals s)) as [names|] eqn:Hk;
    [|discriminate].
  destruct (report_funcs cfg ext names _) as [[] s1| |] eqn:Hf; cbn [bind];
    try discriminate.
  intros [= <-].
  pose proof (report_funcs_Ok _ _ _ _ _ Hf) as Hall.
  destruct (report_funcs_spec cfg ext names _ Hall)
    as (s1' & funcs & Hf' & Hw & Hn & Hno & Hlines & Ht & Hs).
  rewrite Hf in Hf'. injection Hf' as <-.
  exists names, funcs, (func_call_tallies s1).
  split; [reflexivity|]. split; [exact Hall|]. split.
  { unfold written in *. unfold print_all.
    cbn [cout print set_cout func_call_tallies] in *. rewrite Hw.
    cbn [rev]. rewrite !rev_app_distr. cbn [rev app].
    rewrite <- !app_assoc. reflexivity. }
  split; [exact Hn|]. split; [exact Hno|]. split; [exact Hlines|].
  split; [exact Ht|exact Hs].
Qed.

(** When every key is a symbol, [report_by_function] returns. *)
Lemma report_by_function_returns cfg ext s :
  keyed_by_symbols (per_func_totals s) ->
  exists s', report_by_function cfg ext s = Ok tt s'.
Proof.
  intros Hsym.
  destruct (sorted_key_texts_symbols _ Hsym) as (names & Hk & _ & Hin).
  assert (Hall : Forall (fun n => is_Some
                           (per_func_totals
                              (print (func_header cfg (call_stack s)) s)
                            !! Symbol n)) names).
  { apply Forall_forall. intros n Hn. apply Hin, list_elem_of_In, Hn. }
  destruct (report_funcs_spec cfg ext names _ Hall) as (s1 & funcs & Hf & _).
  unfold report_by_function. cbn [per_func_totals print set_cout].
  rewrite Hk. cbn [per_func_totals print set_cout] in Hf. rewrite Hf.
  cbn [bind]. eexists. reflexivity.
Qed.

Lemma omap_func_lines header funcs tallies l :
  func_line_name header = None ->
  omap func_line_name
    (header :: funcs ++ BYFL_CALLEE_HEADER
       :: flat_map (report_callee tallies) l)
  = omap func_line_name funcs.
Proof.
  intros Hh.
  change (omap func_line_name
            ([header] ++ funcs ++ [BYFL_CALLEE_HEADER]
               ++ flat_map (report_callee tallies) l)
          = omap func_line_name funcs).
  rewrite !omap_app, omap_report_callee.
  cbn. rewrite Hh. cbn. rewrite ?app_nil_r. reflexivity.
Qed.

(** X14.  When every key of [per_func_totals()] is a symbol,
    [report_by_function] returns, and the [BYFL_FUNC] lines it has written
    are in strictly increasing [strcmp] order of their names, one for each
    function that has counters and no other; each line carries that
    function's counters, its unique bytes if enabled, its conditional
    branches and the tally of invocations recorded under the same name (0
    if there is none). *)
Theorem one_func_line_per_record cfg ext s :
  keyed_by_symbols (per_func_totals s) ->
  exists s' ls,
    report_by_function cfg ext s = Ok tt s' /\
    written s s' ls /\
    strictly_increasing (omap func_line_name ls) /\
    (forall n,
       In n (omap func_line_name ls) <->
       is_Some (per_func_totals s !! Symbol n)) /\
    (forall vals uq cb inv n,
       In (BYFL_FUNC vals uq cb inv n) ls ->
       exists c,
         per_func_totals s !! Symbol n = Some c /\
         vals = bb_columns cfg c /\
         uq = (if bf_unique_bytes cfg
               then Some (tally_unique_addresses_of ext n) else None) /\
         cb = cond_brs c /\ inv = tally_of (func_call_tallies s) n).
Proof.
  intros Hsym.
  destruct (report_by_function_returns cfg ext s Hsym) as [s' Hx].
  destruct (sorted_key_texts_symbols _ Hsym) as (names & Hk & Hinc & Hin).
  destruct (report_by_function_Ok _ _ _ _ Hx)
    as (names' & funcs & T' & Hk' & _ & Hw & Hn & _ & Hlines & _).
  rewrite Hk in Hk'. injection Hk' as <-.
  exists s'. eexists. split; [exact Hx|]. split; [exact Hw|].
  rewrite omap_func_lines by reflexivity. rewrite Hn.
  split; [exact Hinc|]. split; [exact Hin|].
  intros vals uq cb inv n [H|H]; [discriminate H|].
  apply in_app_or in H as [H|[H|H]];
    [exact (Hlines _ _ _ _ _ H)|discriminate H|].
  apply report_callee_lines in H as (t & i & n' & H). discriminate H.
Qed.


(** Without call-stack attribution every counter record is filed under a
    symbol. *)
Lemma exec_keyed_by_symbols cfg (Hcs : bf_call_stack cfg = false) o s s' :
  exec cfg o s = Ok tt s' ->
  True ->
  keyed_by_symbols (per_func_totals s) ->
  keyed_by_symbols (per_func_totals s').
Proof.
  destruct o; cbn [exec]; intros Hx _ Hinv;
    try (invert_call Hx; exact Hinv).
  - unfold bf_accumulate_bb_tallies in Hx.
    destruct (bb_totals s); [discriminate|].
    destruct (is_end end_of_basic_block);
      [destruct (bf_string_to_symbol_ptr categorize) as [partition|];
       [cbn in Hx; destruct (user_defined_totals s !! partition)|]|];
      injection Hx as <-; exact Hinv.
  - apply bf_report_bb_tallies_frame in Hx as (_ & _ & Hp & _).
    rewrite Hp. exact Hinv.
  - unfold bf_assoc_counters_with_func in Hx. rewrite Hcs in Hx.
    destruct (per_func_totals s !! _); injection Hx as <-;
      cbn [per_func_totals set_per_func_totals];
      intros k [c Hk];
      (destruct (decide (Symbol (bf_string_to_symbol funcname) = k))
         as [<-|Hne];
       [eauto|rewrite lookup_insert_ne in Hk by exact Hne; apply Hinv; eauto]).
Qed.

Lemma run_keyed_by_symbols cfg env constructed tr s :
  bf_call_stack cfg = false ->
  run_program cfg env constructed tr = Ok tt s ->
  keyed_by_symbols (per_func_totals s).
Proof.
  intros Hcs Hrun. unfold run_program in Hrun. cbn [start initialize_byfl
    bf_push_basic_block allocate freelist set_freelist bind] in Hrun.
  refine (run_invariant cfg (fun _ => True) _
            (exec_keyed_by_symbols cfg Hcs) tr _ s Hrun _ _).
  - apply Forall_forall. intros; exact I.
  - intros k [c Hc]. cbn in Hc. rewrite lookup_empty in Hc. discriminate Hc.
Qed.

Lemma one_func_line_per_record_witness :
  exists s' ls,
    report_by_function per_func_config no_collaborators
      (final_state per_func_config calls_with_callees) = Ok tt s' /\
    written (final_state per_func_config calls_with_callees) s' ls /\
    strictly_increasing (omap func_line_name ls) /\
    (forall n,
       In n (omap func_line_name ls) <->
       is_Some (per_func_totals
                  (final_state per_func_config calls_with_callees)
                !! Symbol n)) /\
    (forall vals uq cb inv n,
       In (BYFL_FUNC vals uq cb inv n) ls ->
       exists c,
         per_func_totals (final_state per_func_config calls_with_callees)
         !! Symbol n = Some c /\
         vals = bb_columns per_func_config c /\
         uq = (if bf_unique_bytes per_func_config
               then Some (tally_unique_addresses_of no_collaborators n)
               else None) /\
         cb = cond_brs c /\
         inv = tally_of
                 (func_call_tallies
                    (final_state per_func_config calls_with_callees)) n).
Proof.
  apply (one_func_line_per_record per_func_config no_collaborators
           (final_state per_func_config calls_with_callees)).
  apply (run_keyed_by_symbols per_func_config empty_env true
           calls_with_callees).
  - reflexivity.
  - vm_compute. reflexivity.
Defined.

(** X15.  When [report_by_function] returns, it has written a
    [BYFL_CALLEE] line for the name [n] exactly when a positive tally is
    recorded under the key "+n"; the line carries that tally, and it says
    "instrumented" exactly when [n] itself has an invocation tally or
    per-function counters.  A function counted only under its own name gets
    no line, however often it was called. *)
Theorem callee_lines cfg ext s s' ls t i n :
  report_by_function cfg ext s = Ok tt s' ->
  written s s' ls ->
  In (BYFL_CALLEE t i n) ls <->
  t = tally_of (func_call_tallies s) (String "+" n) /\ 0 < t /\
  (i = true <->
   is_Some (func_call_tallies s !! n) \/
   is_Some (per_func_totals s !! Symbol n)).
Proof.
  intros Hx Hls.
  destruct (report_by_function_Ok _ _ _ _ Hx)
    as (names & funcs & T' & Hk & Hall & Hw & _ & Hno & _ & Ht & Hs).
  unfold written in Hls, Hw. rewrite Hw in Hls.
  apply app_inv_tail in Hls. apply (f_equal (@rev line)) in Hls.
  rewrite !rev_involutive in Hls. subst ls.
  assert (Hnames : forall m, In m names <->
                     is_Some (per_func_totals s !! Symbol m)).
  { intros m. split.
    - intros Hm. rewrite Forall_forall in Hall.
      apply Hall, list_elem_of_In, Hm.
    - intros Hm. apply (sorted_key_texts_In _ _ _ Hk).
      exists (Symbol m). split; [exact Hm|reflexivity]. }
  assert (Hi : is_Some_bool (T' !! n) = true <->
               is_Some (func_call_tallies s !! n) \/
               is_Some (per_func_totals s !! Symbol n)).
  { rewrite <- Hnames. split.
    - intros Hb. apply Hs. destruct (T' !! n); [eauto|discriminate Hb].
    - intros H. apply Hs in H as [v Hv]. rewrite Hv. reflexivity. }
  split.
  - intros [H|H]; [discriminate H|].
    apply in_app_or in H as [H|[H|H]];
      [destruct (Hno _ _ _ H)|discriminate H|].
    apply in_flat_map in H as (key & _ & H).
    apply report_callee_In in H as (-> & -> & Hpos & ->).
    rewrite Ht in *. auto.
  - intros (-> & Hpos & Hinst). right. apply in_or_app. right. right.
    apply in_flat_map. exists (String "+" n). split.
    + apply std_sort_In, in_map_iff.
      destruct (T' !! String "+" n) as [v|] eqn:Hv.
      * exists (String "+" n, v). split; [reflexivity|].
        apply list_elem_of_In, elem_of_map_to_list, Hv.
      * rewrite <- Ht in Hpos. unfold tally_of in Hpos. rewrite Hv in Hpos.
        cbn in Hpos. lia.
    + apply report_callee_In. rewrite Ht. repeat split; [exact Hpos|].
      destruct i, (is_Some_bool (T' !! n)) eqn:Hb; try reflexivity.
      * pose proof (proj2 Hi (proj1 Hinst eq_refl)) as E. discriminate E.
      * pose proof (proj2 Hinst (proj1 Hi eq_refl)) as E. discriminate E.
Qed.

Lemma callee_lines_witness :
  In (BYFL_CALLEE 2 false "memcpy")
     (rev (cout (state_of
                   (report_by_function per_func_config no_collaborators
                      (final_state per_func_config calls_with_callees))
                   started_state))).
Proof.
  apply (proj2 (callee_lines per_func_config no_collaborators
                  (final_state per_func_config calls_with_callees)
                  (state_of
                     (report_by_function per_func_config no_collaborators
                        (final_state per_func_config calls_with_callees))
                     started_state)
                  (rev (cout
                          (state_of
                             (report_by_function per_func_config
                                no_collaborators
                                (final_state per_func_config
                                   calls_with_callees))
                             started_state)))
                  2 false "memcpy"
                  ltac:(vm_compute; reflexivity)
                  ltac:(unfold written; rewrite rev_involutive;
                        vm_compute; reflexivity))).
  split; [vm_compute; reflexivity|]. split; [lia|].
  split; [discriminate|].
  intros [[v Hv]|[v Hv]]; vm_compute in Hv; discriminate Hv.
Defined.

(** On that run: one line for [f], which has counters but no tally under
    its own name, and callee lines for [memcpy] and [f], most called
    first. *)
Example report_by_function_example :
  rev (cout (state_of
               (report_by_function per_func_config no_collaborators
                  (final_state per_func_config calls_with_callees))
               started_state))
  = [BYFL_FUNC_HEADER
       ["Bytes_LD"; "Bytes_ST"; "Ops_LD"; "Ops_ST"; "Flops"; "FP_bits";
        "Cond_brs"; "Invocations"; "Function"] 0;
     BYFL_FUNC [4; 0; 1; 0; 0; 0] None 0 0 "f";
     BYFL_CALLEE_HEADER;
     BYFL_CALLEE 2 false "memcpy";
     BYFL_CALLEE 1 true "f"].
Proof. vm_compute. reflexivity. Qed.

Lemma deepest_no_push tr : forall d m,
  Forall not_a_push tr -> deepest d m tr = m.
Proof.
  induction tr as [|o tr IH]; intros d m Hall; cbn; [reflexivity|].
  inversion Hall as [|? ? Ho Htr]; subst.
  destruct o; cbn in Ho; try contradiction; apply IH, Htr.
Qed.

(** X16.  With call-stack attribution enabled, if the program has pushed no
    function by the time of the report, [max_depth] is still 0 and the
    unsigned [max_depth - 1] wraps: the header line is given 2^64 - 1
    parent columns, and it is the first line [report_by_function] has
    written when it returns. *)
Theorem header_parent_columns_wrap cfg ext env constructed tr s :
  bf_call_stack cfg = true ->
  Forall not_a_push tr ->
  run_program cfg env constructed tr = Ok tt s ->
  func_header cfg (call_stack s)
  = BYFL_FUNC_HEADER (func_header_columns cfg) (2 ^ 64 - 1) /\
  forall s',
    report_by_function cfg ext s = Ok tt s' ->
    exists rest,
      written s s'
        (BYFL_FUNC_HEADER (func_header_columns cfg) (2 ^ 64 - 1) :: rest).
Proof.
  intros Hcs Hnp Hrun. unfold run_program in Hrun. cbn [start initialize_byfl
    bf_push_basic_block allocate freelist set_freelist bind] in Hrun.
  pose proof (run_max_depth cfg tr _ s 0%nat 0%nat Hrun eq_refl
                ltac:(cbn; lia)) as Hb.
  rewrite (deepest_no_push tr 0 0 Hnp) in Hb.
  assert (Hm : max_depth (call_stack s) = 0) by lia.
  assert (Hh : func_header cfg (call_stack s)
               = BYFL_FUNC_HEADER (func_header_columns cfg) (2 ^ 64 - 1)).
  { unfold func_header. rewrite Hcs, Hm. reflexivity. }
  split; [exact Hh|]. intros s' Hx.
  destruct (report_by_function_Ok _ _ _ _ Hx)
    as (names & funcs & T' & _ & _ & Hw & _).
  rewrite Hh in Hw. eexists. exact Hw.
Qed.

Lemma header_parent_columns_wrap_witness :
  func_header call_stack_config
    (call_stack (final_state call_stack_config one_block))
  = BYFL_FUNC_HEADER (func_header_columns call_stack_config) (2 ^ 64 - 1) /\
  forall s',
    report_by_function call_stack_config no_collaborators
      (final_state call_stack_config one_block) = Ok tt s' ->
    exists rest,
      written (final_state call_stack_config one_block) s'
        (BYFL_FUNC_HEADER (func_header_columns call_stack_config)
           (2 ^ 64 - 1) :: rest).
Proof.
  apply (header_parent_columns_wrap call_stack_config no_collaborators
           empty_env true one_block).
  - reflexivity.
  - repeat constructor.
  - vm_compute. reflexivity.
Defined.

(** On that run the report returns: no counters were associated with a
    function, so only the two header lines are written. *)
Example report_of_one_block :
  rev (cout (state_of
               (report_by_function call_stack_config no_collaborators
                  (final_state call_stack_config one_block))
               started_state))
  = [BYFL_FUNC_HEADER (func_header_columns call_stack_config) (2 ^ 64 - 1);
     BYFL_CALLEE_HEADER].
Proof. vm_compute. reflexivity. Qed.

(** The loop over the function names stops at a name whose symbol has no
    counters. *)
Lemma report_funcs_missing cfg ext n : forall names s,
  In n names ->
  per_func_totals s !! Symbol n = None ->
  report_funcs cfg ext names s = Undefined.
Proof.
  induction names as [|k names IH]; intros s Hin Hn; [destruct Hin|].
  cbn [report_funcs]. unfold bf_string_to_symbol.
  destruct (per_func_totals s !! Symbol k) as [c|] eqn:Hk; [|reflexivity].
  destruct Hin as [->|Hin]; [congruence|].
  apply IH; [exact Hin|exact Hn].
Qed.

(** X23.  Counters filed under a string literal make the end-of-program
    report undefined.  With call-stack attribution, counters associated
    while no function is pushed are filed under the literal "-" or
    "[EMPTY]" ([bf_func_and_parents]); [report_by_function] interns the text
    again and looks the symbol up, which is another key: unless that
    symbol has counters too, the lookup makes a null entry and the
    destructor dereferences it. *)
Theorem literal_key_breaks_report cfg ext s s1 text :
  suppress_output s = Ok false s1 ->
  bf_per_func cfg = true ->
  is_Some (per_func_totals s !! Literal text) ->
  per_func_totals s !! Symbol text = None ->
  RunAtEndOfProgram_destructor cfg ext s = Undefined.
Proof.
  intros Hs Hpf Hlit Hsym. unfold RunAtEndOfProgram_destructor.
  rewrite Hs. cbn [bind]. rewrite Hpf.
  apply suppress_output_Ok in Hs as [o ->].
  unfold report_by_function. cbn [per_func_totals print set_cout set_output].
  destruct (sorted_key_texts (per_func_totals s)) as [names|] eqn:Hk;
    [|reflexivity].
  rewrite (report_funcs_missing cfg ext text names); [reflexivity| |exact Hsym].
  apply (sorted_key_texts_In _ _ _ Hk).
  exists (Literal text). split; [exact Hlit|reflexivity].
Qed.

Lemma literal_key_breaks_report_witness :
  RunAtEndOfProgram_destructor call_stack_config no_collaborators
    (final_state call_stack_config top_level_assoc) = Undefined.
Proof.
  apply (literal_key_breaks_report call_stack_config no_collaborators
           (final_state call_stack_config top_level_assoc)
           (set_output SHOW (final_state call_stack_config top_level_assoc))
           "-").
  - vm_compute. reflexivity.
  - reflexivity.
  - vm_compute. eauto.
  - vm_compute. reflexivity.
Defined.

(** ** The summary *)

(** X17.  The summary gives the number of basic blocks only when at least
    one conditional branch was counted: the line "basic blocks" is written
    exactly when [cond_brs] is positive, and then holds [b_blocks]. *)
Theorem basic_blocks_line_needs_branch cfg ext partition c b :
  In (BYFL_SUMMARY partition (Counts [b] "basic blocks"))
     (report_totals cfg ext partition c) <->
  0 < cond_brs c /\ b = b_blocks c.
Proof.
  unfold report_totals. split.
  - intros H. apply in_map_iff in H as (item & Heq & Hin).
    injection Heq as ->.
    split_summary Hin; try discriminate Hin;
      injection Hin as <-; split; [apply Z.ltb_lt; assumption|reflexivity].
  - intros [Hpos ->]. apply in_map. apply in_or_app. right.
    apply in_or_app. left. apply Z.ltb_lt in Hpos. rewrite Hpos.
    left. reflexivity.
Qed.

Lemma basic_blocks_line_needs_branch_witness :
  In (BYFL_SUMMARY None (Counts [1] "basic blocks"))
     (report_totals default_config no_collaborators None
        (global_totals (final_state default_config one_block))).
Proof.
  apply (proj2 (basic_blocks_line_needs_branch default_config
                  no_collaborators None
                  (global_totals (final_state default_config one_block)) 1)).
  split; [reflexivity|reflexivity].
Defined.

(** X18.  The summary of a user-defined partition never has the lines
    "unique bytes", "unique bits" and "bytes per unique byte", whatever the
    configuration and the collaborators say; they are written in the global
    summary alone. *)
Theorem partition_summary_has_no_unique_bytes cfg ext tag c item text :
  In (BYFL_SUMMARY (Some tag) item) (report_totals cfg ext (Some tag) c) ->
  summary_text item = Some text ->
  ~ In text unique_byte_texts.
Proof.
  unfold report_totals. intros H Ht.
  apply in_map_iff in H as (item' & Heq & Hin). injection Heq as ->.
  cbn [is_Some_bool negb] in Hin. rewrite andb_false_r in Hin.
  split_summary Hin; subst item; cbn in Ht; try discriminate Ht;
    injection Ht as <-; unfold unique_byte_texts; cbn;
    intros H; repeat destruct H as [H|H]; try discriminate H; exact H.
Qed.

Lemma partition_summary_has_no_unique_bytes_witness :
  ~ In "bytes per flop" unique_byte_texts.
Proof.
  apply (partition_summary_has_no_unique_bytes full_config no_collaborators
           "A" (BFC 100 50 0 0 0 0 0 0 0 0 0 0 0 0 0 0 0 0 0 0 25 0 0 0 0 0)
           (Ratio 150 25 "bytes per flop") "bytes per flop").
  - vm_compute. tauto.
  - reflexivity.
Defined.

(** X19.  When output is suppressed the end-of-program report does nothing:
    no line is written, and the counters, the function records and the
    partitions are left as they were, without the fallback being run. *)
Theorem suppressed_report_is_silent cfg ext s s1 :
  suppress_output s = Ok true s1 ->
  exists s',
    RunAtEndOfProgram_destructor cfg ext s = Ok tt s' /\
    cout s' = cout s /\ cerr s' = cerr s /\
    global_totals s' = global_totals s /\
    per_func_totals s' = per_func_totals s /\
    user_defined_totals s' = user_defined_totals s.
Proof.
  intros Hs. unfold RunAtEndOfProgram_destructor. rewrite Hs. cbn [bind].
  apply suppress_output_Ok in Hs as [o ->].
  eexists. split; [reflexivity|]. repeat split.
Qed.

Lemma suppressed_report_is_silent_witness :
  exists s',
    RunAtEndOfProgram_destructor default_config no_collaborators
      (static_state (env_with "RANK=1") true) = Ok tt s' /\
    cout s' = [] /\ cerr s' = [] /\
    global_totals s' = BFC_zero /\
    per_func_totals s' = ∅ /\
    user_defined_totals s' = ∅.
Proof.
  exact (suppressed_report_is_silent default_config no_collaborators
           (static_state (env_with "RANK=1") true)
           (set_output SUPPRESS (static_state (env_with "RANK=1") true))
           ltac:(vm_compute; reflexivity)).
Defined.

(** * Properties of the energy audit *)

Lemma get_eventset_reads x st :
  exists st1, get_eventset (papi_reads x) st = AOk tt st1 /\
    cur_energy st1 = cur_energy st /\ total_energy st1 = total_energy st /\
    eventset_created st1 = true.
Proof.
  unfold get_eventset. destruct (eventset_created st) eqn:He.
  - exists st. auto.
  - eexists. split; [reflexivity|]. repeat split.
Qed.

Lemma reset_rapl_reads x st :
  exists st1, reset_rapl (papi_reads x) st = AOk tt st1 /\
    cur_energy st1 = cur_energy st /\ total_energy st1 = total_energy st.
Proof.
  unfold reset_rapl.
  destruct (get_eventset_reads x st) as (st1 & -> & Hc1 & Ht1 & He1).
  cbn [abind papi_reads reset_ok start_ok negb].
  unfold get_eventset. rewrite He1. cbn [abind].
  exists st1. auto.
Qed.

Lemma add_ll_Some a b :
  - 2 ^ 63 <= a + b < 2 ^ 63 -> add_ll a b = Some (a + b).
Proof.
  intros H. unfold add_ll.
  destruct (Z.leb_spec (- 2 ^ 63) (a + b)); [|lia].
  destruct (Z.ltb_spec (a + b) (2 ^ 63)); [reflexivity|lia].
Qed.

Lemma timeout_reads x st top rest :
  cur_energy st = top :: rest ->
  - 2 ^ 63 <= top + x < 2 ^ 63 ->
  exists st1, timeout SIGALRM (papi_reads x) st = AOk tt st1 /\
    cur_energy st1 = (top + x) :: rest /\
    total_energy st1 = total_energy st.
Proof.
  intros Hc Hr. unfold timeout. rewrite Z.eqb_refl. unfold get_rapl_energy.
  destruct (get_eventset_reads x st) as (st1 & -> & Hc1 & Ht1 & He1).
  cbn [abind papi_reads stop_value]. rewrite Hc1, Hc, (add_ll_Some _ _ Hr).
  destruct (reset_rapl_reads x (set_cur_energy (top + x :: rest) st1))
    as (st2 & -> & Hc2 & Ht2).
  exists st2. split; [reflexivity|]. split; [exact Hc2|].
  rewrite Ht2. exact Ht1.
Qed.

Lemma signals_read : forall rs st top rest,
  cur_energy st = top :: rest ->
  Forall (fun x => 0 <= x) rs ->
  0 <= top -> top + sum_Z rs < 2 ^ 63 ->
  exists st1,
    audit_run (map (fun x => ev_signal SIGALRM (papi_reads x)) rs) st
      = AOk tt st1 /\
    cur_energy st1 = (top + sum_Z rs) :: rest /\
    total_energy st1 = total_energy st.
Proof.
  induction rs as [|x rs IH]; intros st top rest Hc Hpos Ht Hlt.
  - exists st. cbn. rewrite Z.add_0_r. auto.
  - inversion Hpos as [|? ? Hx Hrs]; subst. cbn [sum_Z fold_right] in Hlt.
    fold (sum_Z rs) in Hlt.
    assert (Hs : 0 <= sum_Z rs).
    { clear -Hrs. induction Hrs; cbn; [lia|]. fold (sum_Z l). lia. }
    destruct (timeout_reads x st top rest Hc ltac:(lia))
      as (st1 & Hx1 & Hc1 & Ht1).
    destruct (IH st1 (top + x) rest Hc1 Hrs ltac:(lia) ltac:(lia))
      as (st2 & Hx2 & Hc2 & Ht2).
    exists st2. cbn [map audit_run audit_exec]. rewrite Hx1. cbn [abind].
    split; [exact Hx2|]. split.
    + rewrite Hc2. cbn [sum_Z fold_right]. fold (sum_Z rs). f_equal. lia.
    + rewrite Ht2. exact Ht1.
Qed.

Lemma audit_run_app evs1 : forall evs2 st,
  audit_run (evs1 ++ evs2) st
  = abind (audit_run evs1 st) (fun _ st1 => audit_run evs2 st1).
Proof.
  induction evs1 as [|e evs1 IH]; intros evs2 st; cbn; [reflexivity|].
  destruct (audit_exec e st) as [[] st1| |]; cbn; [apply IH|reflexivity..].
Qed.

(** X20.  A call that is pushed, interrupted by the timer any number of
    times and popped under the name [f] adds to the total of [f] exactly
    the energy read at those interrupts and at the pop; the readings of the
    calls that were open before it are untouched, so the energy of a callee
    is not counted for its caller. *)
Theorem call_energy_goes_to_callee st rs r f :
  Forall (fun x => 0 <= x) (r :: rs) ->
  0 <= default 0 (total_energy st !! f) ->
  default 0 (total_energy st !! f) + (sum_Z rs + r) < 2 ^ 63 ->
  exists st',
    audit_run
      (ev_push (papi_reads 0)
         :: map (fun x => ev_signal SIGALRM (papi_reads x)) rs
         ++ [ev_pop f (papi_reads r)]) st = AOk tt st' /\
    cur_energy st' = cur_energy st /\
    total_energy st'
    = <[f := default 0 (total_energy st !! f) + (sum_Z rs + r)]>
        (total_energy st).
Proof.
  intros Hpos Ht Hlt. inversion Hpos as [|? ? Hr Hrs]; subst.
  assert (Hs : 0 <= sum_Z rs).
  { clear -Hrs. induction Hrs; cbn; [lia|]. fold (sum_Z l). lia. }
  cbn [audit_run audit_exec]. unfold do_push.
  destruct (reset_rapl_reads 0
              (set_cur_energy (0 :: cur_energy (audit_print "push" st))
                 (audit_print "push" st))) as (st1 & -> & Hc1 & Ht1).
  cbn [abind]. rewrite audit_run_app.
  destruct (signals_read rs st1 0 (cur_energy st) Hc1 Hrs ltac:(lia)
              ltac:(lia)) as (st2 & -> & Hc2 & Ht2).
  cbn [abind audit_run audit_exec]. unfold do_pop.
  destruct (timeout_reads r (audit_print "pop" st2) (0 + sum_Z rs)
              (cur_energy st) Hc2 ltac:(lia)) as (st3 & -> & Hc3 & Ht3).
  cbn [abind]. rewrite Hc3, Ht3. cbn [total_energy audit_print].
  rewrite Ht2, Ht1. cbn [total_energy set_cur_energy audit_print].
  rewrite add_ll_Some by lia.
  eexists. split; [reflexivity|]. split; [reflexivity|].
  cbn [total_energy set_cur_energy set_total_energy]. f_equal; lia.
Qed.

Lemma call_energy_goes_to_callee_witness :
  exists st',
    audit_run
      (ev_push (papi_reads 0)
         :: map (fun x => ev_signal SIGALRM (papi_reads x)) [3; 4]
         ++ [ev_pop "f" (papi_reads 5)]) audit_start = AOk tt st' /\
    cur_energy st' = cur_energy audit_start /\
    total_energy st'
    = <["f" := default 0 (total_energy audit_start !! "f")
               + (sum_Z [3; 4] + 5)]> (total_energy audit_start).
Proof.
  apply (call_energy_goes_to_callee audit_start [3; 4] 5 "f").
  - repeat constructor; lia.
  - vm_compute. discriminate.
  - vm_compute. reflexivity.
Defined.

Lemma get_eventset_Ok p st st1 :
  get_eventset p st = AOk tt st1 ->
  cur_energy st1 = cur_energy st /\ total_energy st1 = total_energy st.
Proof.
  unfold get_eventset, do_init.
  destruct (eventset_created st); [intros [= <-]; auto|].
  destruct (signal_ok p), (library_init_ok p), (create_eventset_ok p),
    (add_event_ok p); cbn; try discriminate.
  intros [= <-]. auto.
Qed.

Lemma reset_rapl_Ok p st st1 :
  reset_rapl p st = AOk tt st1 ->
  cur_energy st1 = cur_energy st /\ total_energy st1 = total_energy st.
Proof.
  unfold reset_rapl.
  destruct (get_eventset p st) as [[] sa| |] eqn:Ha; cbn [abind];
    try discriminate.
  destruct (reset_ok p); cbn [negb]; try discriminate.
  destruct (get_eventset p sa) as [[] sb| |] eqn:Hb; cbn [abind];
    try discriminate.
  destruct (start_ok p); cbn [negb]; try discriminate.
  intros [= <-].
  destruct (get_eventset_Ok _ _ _ Ha) as [Hc Ht].
  destruct (get_eventset_Ok _ _ _ Hb) as [Hc' Ht'].
  split; congruence.
Qed.

Lemma get_rapl_energy_Ok p st v st1 :
  get_rapl_energy p st = AOk v st1 ->
  stop_value p = Some v /\
  cur_energy st1 = cur_energy st /\ total_energy st1 = total_energy st.
Proof.
  unfold get_rapl_energy.
  destruct (get_eventset p st) as [[] sa| |] eqn:Ha; cbn [abind];
    try discriminate.
  destruct (stop_value p) as [e|]; try discriminate.
  intros [= <- <-]. split; [reflexivity|]. exact (get_eventset_Ok _ _ _ Ha).
Qed.

Lemma add_ll_inv a b c : add_ll a b = Some c -> c = a + b.
Proof.
  unfold add_ll. destruct (_ && _); [intros [= <-]; reflexivity|discriminate].
Qed.

Lemma timeout_Ok p st st1 :
  timeout SIGALRM p st = AOk tt st1 ->
  exists top rest v,
    cur_energy st = top :: rest /\ stop_value p = Some v /\
    cur_energy st1 = (top + v) :: rest /\
    total_energy st1 = total_energy st.
Proof.
  unfold timeout. rewrite Z.eqb_refl.
  destruct (get_rapl_energy p st) as [v sa| |] eqn:Ha; cbn [abind];
    try discriminate.
  destruct (get_rapl_energy_Ok _ _ _ _ Ha) as (Hv & Hc & Ht).
  rewrite Hc. destruct (cur_energy st) as [|top rest]; [discriminate|].
  destruct (add_ll top v) as [top'|] eqn:Hadd; [|discriminate].
  apply add_ll_inv in Hadd. subst top'. intros Hr.
  destruct (reset_rapl_Ok _ _ _ Hr) as [Hc1 Ht1].
  exists top, rest, v. repeat split; try assumption.
  rewrite Ht1. exact Ht.
Qed.

Lemma total_insert (m : gmap string Z) f x :
  map_fold (fun _ v acc => v + acc) 0 (<[f := x]> m)
  = map_fold (fun _ v acc => v + acc) 0 m - default 0 (m !! f) + x.
Proof.
  assert (Hnew : forall (m' : gmap string Z) y, m' !! f = None ->
            map_fold (fun _ v acc => v + acc) 0 (<[f := y]> m')
            = y + map_fold (fun _ v acc => v + acc) 0 m').
  { intros m' y Hn.
    apply (map_fold_insert_L (fun _ v acc => v + acc)); [|exact Hn].
    intros; lia. }
  destruct (m !! f) as [y|] eqn:Hf; cbn [default from_option id].
  - pose proof (Hnew (delete f m) x (lookup_delete_eq m f)) as Hx.
    pose proof (Hnew (delete f m) y (lookup_delete_eq m f)) as Hy.
    rewrite insert_delete_eq in Hx. rewrite (insert_delete_id m f y Hf) in Hy.
    lia.
  - rewrite Hnew by exact Hf. lia.
Qed.

Lemma audit_exec_energy e st st' :
  audit_exec e st = AOk tt st' ->
  energy_held st' = energy_held st + energy_read e.
Proof.
  destruct e as [p|f p|signum p]; cbn [audit_exec energy_read].
  - unfold do_push. intros Hr.
    destruct (reset_rapl_Ok _ _ _ Hr) as [Hc Ht].
    unfold energy_held, sum_Z. rewrite Hc, Ht. cbn. lia.
  - unfold do_pop.
    destruct (timeout SIGALRM p (audit_print "pop" st)) as [[] sa| |] eqn:Ha;
      cbn [abind]; try discriminate.
    destruct (timeout_Ok _ _ _ Ha) as (top & rest & v & Hc & Hv & Hc1 & Ht1).
    rewrite Hc1, Ht1, Hv.
    destruct (add_ll _ _) as [total|] eqn:Hadd; [|discriminate].
    apply add_ll_inv in Hadd. subst total. intros [= <-].
    unfold energy_held, sum_Z. cbn in Hc |- *. rewrite total_insert, Hc.
    cbn. lia.
  - unfold timeout. destruct (signum =? SIGALRM) eqn:Hs.
    + apply Z.eqb_eq in Hs. subst signum. intros Hx.
      destruct (timeout_Ok _ _ _ Hx) as (top & rest & v & Hc & Hv & Hc1 & Ht1).
      unfold energy_held, sum_Z. rewrite Hc1, Ht1, Hc, Hv. cbn. lia.
    + intros [= <-]. lia.
Qed.

(** X21.  Energy is neither lost nor counted twice: after any sequence of
    pushes, pops and signals that returns normally, the totals of the
    functions together with the readings of the calls still open hold what
    they held before plus every value read from PAPI on the way. *)
Theorem energy_is_conserved evs : forall st st',
  audit_run evs st = AOk tt st' ->
  energy_held st' = energy_held st + sum_Z (map energy_read evs).
Proof.
  induction evs as [|e evs IH]; intros st st' Hx; cbn in Hx.
  - injection Hx as <-. cbn. lia.
  - destruct (audit_exec e st) as [[] sa| |] eqn:He; cbn [abind] in Hx;
      try discriminate.
    rewrite (IH _ _ Hx), (audit_exec_energy _ _ _ He).
    cbn [map sum_Z fold_right]. fold (sum_Z (map energy_read evs)). lia.
Qed.

Lemma energy_is_conserved_witness :
  energy_held
    (set_total_energy
       (<["f" := 7]> (<["main" := 14]> (total_energy audit_start)))
       (set_eventset_created true
          (fold_right audit_print audit_start
             ["pop"; "pop"; "push"; "init"; "push"])))
  = energy_held audit_start + sum_Z (map energy_read audit_nested).
Proof.
  apply (energy_is_conserved audit_nested audit_start).
  vm_compute. reflexivity.
Defined.

(** X22.  With no call open, a pop or a delivery of [SIGALRM] never returns
    normally: either PAPI fails and the program exits, or the handler uses
    the top of an empty stack. *)
Theorem no_open_call_no_return f p st st' :
  cur_energy st = [] ->
  timeout SIGALRM p st <> AOk tt st' /\ do_pop f p st <> AOk tt st'.
Proof.
  intros Hc. split.
  - intros Hx. destruct (timeout_Ok _ _ _ Hx) as (top & rest & v & Hc' & _).
    rewrite Hc in Hc'. discriminate.
  - unfold do_pop.
    destruct (timeout SIGALRM p (audit_print "pop" st)) as [[] sa| |] eqn:Ha;
      cbn [abind]; try discriminate.
    destruct (timeout_Ok _ _ _ Ha) as (top & rest & v & Hc' & _).
    cbn in Hc'. rewrite Hc in Hc'. discriminate.
Qed.

Lemma no_open_call_no_return_witness :
  timeout SIGALRM (papi_reads 5) audit_start <> AOk tt audit_start /\
  do_pop "main" (papi_reads 5) audit_start <> AOk tt audit_start.
Proof.
  apply (no_open_call_no_return "main" (papi_reads 5) audit_start
           audit_start).
  reflexivity.
Defined.
